(** * Content selection and template splicing of the resume generator

    A shallow embedding of the [ResumeGenerator] class and of the two
    generation handlers of [AIResumeMcpServer]
    (ai-resume-mcp-server/src/index.js), with the parts of the JavaScript
    string library they rely on.

    Text model.  A JavaScript string is modelled by a Rocq [string]; the
    characters are the ASCII range of its code units.  Case mapping and the
    white-space class are the ASCII ones. *)

From Stdlib Require Import String Ascii List Bool Arith ZArith Lia.
Import ListNotations.
Open Scope list_scope.
Open Scope string_scope.
Open Scope nat_scope.

(** ** JavaScript strings *)

Module Js.

(** The line feed written [\n] in the source. *)
Definition LF : ascii := "010"%char.
Definition nl : string := String LF EmptyString.

Definition isUpper (c : ascii) : bool :=
  (65 <=? nat_of_ascii c) && (nat_of_ascii c <=? 90).
Definition isLower (c : ascii) : bool :=
  (97 <=? nat_of_ascii c) && (nat_of_ascii c <=? 122).
Definition isDigit (c : ascii) : bool :=
  (48 <=? nat_of_ascii c) && (nat_of_ascii c <=? 57).

(** White space and line terminators: TAB, LF, VT, FF, CR and SPACE. *)
Definition isSpace (c : ascii) : bool :=
  ((9 <=? nat_of_ascii c) && (nat_of_ascii c <=? 13)) || (nat_of_ascii c =? 32).

Definition lowerChar (c : ascii) : ascii :=
  if isUpper c then ascii_of_nat (nat_of_ascii c + 32) else c.
Definition upperChar (c : ascii) : ascii :=
  if isLower c then ascii_of_nat (nat_of_ascii c - 32) else c.

Fixpoint mapChars (f : ascii -> ascii) (s : string) : string :=
  match s with
  | EmptyString => EmptyString
  | String c r => String (f c) (mapChars f r)
  end.

(** [String.prototype.toLowerCase] and [toUpperCase]. *)
Definition toLowerCase : string -> string := mapChars lowerChar.
Definition toUpperCase : string -> string := mapChars upperChar.

(** [String.prototype.startsWith] and [includes]. *)
Fixpoint startsWith (s p : string) {struct p} : bool :=
  match p with
  | EmptyString => true
  | String a p' =>
      match s with
      | EmptyString => false
      | String b s' => Ascii.eqb a b && startsWith s' p'
      end
  end.

Fixpoint includes (hay needle : string) : bool :=
  startsWith hay needle ||
  match hay with
  | EmptyString => false
  | String _ r => includes r needle
  end.

(** [String.prototype.trim]. *)
Fixpoint trimStart (s : string) : string :=
  match s with
  | EmptyString => EmptyString
  | String c r => if isSpace c then trimStart r else s
  end.

Fixpoint trimEnd (s : string) : string :=
  match s with
  | EmptyString => EmptyString
  | String c r =>
      match trimEnd r with
      | EmptyString => if isSpace c then EmptyString else String c EmptyString
      | t => String c t
      end
  end.

Definition trim (s : string) : string := trimEnd (trimStart s).

(** [Array.prototype.join] is [String.concat]; the concatenation of a list of
    pieces without separator is [concatAll]. *)
Definition join (sep : string) (l : list string) : string := String.concat sep l.

Fixpoint concatAll (l : list string) : string :=
  match l with
  | [] => EmptyString
  | x :: r => x ++ concatAll r
  end.

(** [str.split(re)] for a pattern that is one character class: the
    fragments between the separators, one empty fragment for the empty
    string. *)
Fixpoint splitOn (sep : ascii -> bool) (s : string) : list string :=
  match s with
  | EmptyString => [EmptyString]
  | String c r =>
      if sep c then EmptyString :: splitOn sep r
      else match splitOn sep r with
           | h :: t => String c h :: t
           | [] => [String c EmptyString]
           end
  end.

(** [s] without the prefix [p], when it starts with it. *)
Fixpoint stripPrefix (p s : string) : option string :=
  match p with
  | EmptyString => Some s
  | String a p' =>
      match s with
      | EmptyString => None
      | String b s' => if Ascii.eqb a b then stripPrefix p' s' else None
      end
  end.

(** *** Regular expressions

    Every pattern of the source is a sequence of literals, single character
    classes and starred character classes, or an alternation of such
    sequences.  [x+] is written [One x; Star false x]. *)

Inductive cls : Type :=
| CAll                      (* [.] under the [s] flag *)
| CDot                      (* [.] without it: no line terminator *)
| CChar (c : ascii)
| CNot (c : ascii)          (* [[^c]] *)
| COneOf (l : list ascii)   (* [[abc]] *)
| CDigit                    (* [\d] *)
| CSpace.                   (* [\s] *)

Definition cmatch (k : cls) (a : ascii) : bool :=
  match k with
  | CAll => true
  | CDot => negb (Ascii.eqb a LF || Ascii.eqb a "013"%char)
  | CChar c => Ascii.eqb a c
  | CNot c => negb (Ascii.eqb a c)
  | COneOf l => existsb (Ascii.eqb a) l
  | CDigit => isDigit a
  | CSpace => isSpace a
  end.

Inductive item : Type :=
| Lit (s : string)
| One (k : cls)
| Star (lazy : bool) (k : cls).

Definition consPiece (p : string) (r : option (list string * string))
  : option (list string * string) :=
  match r with
  | Some (ps, rest) => Some (p :: ps, rest)
  | None => None
  end.

Definition growPiece (a : ascii) (r : option (list string * string))
  : option (list string * string) :=
  match r with
  | Some (p :: ps, rest) => Some (String a p :: ps, rest)
  | _ => None
  end.

(** The backtracking matcher, anchored at the start of [s]: the text consumed
    by each item, and what is left of [s].  A lazy star first tries to stop, a
    greedy one first tries to go on. *)
Fixpoint matchItems (its : list item) (s : string) {struct its}
  : option (list string * string) :=
  match its with
  | [] => Some ([], s)
  | Lit l :: r =>
      match stripPrefix l s with
      | Some s' => consPiece l (matchItems r s')
      | None => None
      end
  | One k :: r =>
      match s with
      | String a s' =>
          if cmatch k a then consPiece (String a EmptyString) (matchItems r s')
          else None
      | EmptyString => None
      end
  | Star lazy k :: r =>
      (fix loop (s : string) : option (list string * string) :=
         if lazy then
           match consPiece EmptyString (matchItems r s) with
           | Some m => Some m
           | None =>
               match s with
               | String a s' => if cmatch k a then growPiece a (loop s') else None
               | EmptyString => None
               end
           end
         else
           match
             match s with
             | String a s' => if cmatch k a then growPiece a (loop s') else None
             | EmptyString => None
             end
           with
           | Some m => Some m
           | None => consPiece EmptyString (matchItems r s)
           end) s
  end.

(** [RegExp.prototype.exec] from index 0: the leftmost match, as the text
    before it, the pieces and the text after it. *)
Fixpoint exec (its : list item) (s : string)
  : option (string * list string * string) :=
  match matchItems its s with
  | Some (ps, rest) => Some (EmptyString, ps, rest)
  | None =>
      match s with
      | EmptyString => None
      | String a s' =>
          match exec its s' with
          | Some (pre, ps, rest) => Some (String a pre, ps, rest)
          | None => None
          end
      end
  end.

(** [re.test(s)] for an alternation of sequences. *)
Definition test (alts : list (list item)) (s : string) : bool :=
  existsb (fun its => match exec its s with Some _ => true | None => false end) alts.

(** A pattern with its capture groups, each the run of items
    [first, first + count). *)
Record regex : Type := mkRegex {
  items : list item;
  groups : list (nat * nat)
}.

Definition captures (re : regex) (ps : list string) : list string :=
  map (fun g => concatAll (firstn (snd g) (skipn (fst g) ps))) (groups re).

Definition digitVal (c : ascii) : option nat :=
  if isDigit c then Some (nat_of_ascii c - 48) else None.

Definition capture (caps : list string) (n : nat) : option string :=
  if (1 <=? n) && (n <=? List.length caps) then Some (nth (n - 1) caps EmptyString)
  else None.

(** GetSubstitution of ECMA-262 (no named groups): the expansion of the
    replacement text [t]. *)
Fixpoint getSubstitution (matched before after : string) (caps : list string)
  (t : string) : string :=
  let go := getSubstitution matched before after caps in
  match t with
  | EmptyString => EmptyString
  | String c t1 =>
      if negb (Ascii.eqb c "$"%char) then String c (go t1)
      else
        match t1 with
        | EmptyString => String c EmptyString
        | String d t2 =>
            if Ascii.eqb d "$"%char then String "$"%char (go t2)
            else if Ascii.eqb d "&"%char then matched ++ go t2
            else if Ascii.eqb d "`"%char then before ++ go t2
            else if Ascii.eqb d "'"%char then after ++ go t2
            else
              match digitVal d with
              | None => String c (go t1)
              | Some n1 =>
                  let one :=
                    match capture caps n1 with
                    | Some g => g ++ go t2
                    | None => String c (String d (go t2))
                    end in
                  match t2 with
                  | EmptyString => one
                  | String e t3 =>
                      match digitVal e with
                      | None => one
                      | Some n2 =>
                          match capture caps (10 * n1 + n2) with
                          | Some g => g ++ go t3
                          | None => one
                          end
                      end
                  end
              end
        end
  end.

(** [s.replace(re, t)] for a pattern without the [g] flag: the first match
    is replaced, and [s] is returned as it is when there is none. *)
Definition replace (re : regex) (t : string) (s : string) : string :=
  match exec (items re) s with
  | None => s
  | Some (pre, ps, post) =>
      pre ++ getSubstitution (concatAll ps) pre post (captures re ps) t ++ post
  end.

(** [s.replace(re, t)] at the start of [s] only, for a pattern that begins
    with [^]. *)
Definition replaceAtStart (re : regex) (t : string) (s : string) : string :=
  match matchItems (items re) s with
  | None => s
  | Some (ps, post) =>
      getSubstitution (concatAll ps) EmptyString post (captures re ps) t ++ post
  end.

(** [s.replace(re, t)] for a pattern with the [g] flag: every match, from
    left to right; [done] is the part of the subject already passed.  After
    an empty match the scan moves on by one character. *)
Fixpoint replaceAllFrom (fuel : nat) (re : regex) (t : string) (done s : string)
  : string :=
  match fuel with
  | 0 => s
  | S f =>
      match exec (items re) s with
      | None => s
      | Some (pre, ps, post) =>
          let m := concatAll ps in
          let sub := getSubstitution m (done ++ pre) post (captures re ps) t in
          match m with
          | EmptyString =>
              match post with
              | EmptyString => pre ++ sub
              | String a post' =>
                  pre ++ sub ++
                  String a (replaceAllFrom f re t (done ++ pre ++ String a EmptyString) post')
              end
          | _ => pre ++ sub ++ replaceAllFrom f re t (done ++ pre ++ m) post
          end
      end
  end.

Definition replaceAll (re : regex) (t : string) (s : string) : string :=
  replaceAllFrom (S (String.length s)) re t EmptyString s.

(** The number of matches [s.match(re)] returns for a pattern with the [g]
    flag (0 when it returns null). *)
Fixpoint countMatchesFrom (fuel : nat) (its : list item) (s : string) : nat :=
  match fuel with
  | 0 => 0
  | S f =>
      match exec its s with
      | None => 0
      | Some (_, ps, post) =>
          match concatAll ps with
          | EmptyString =>
              match post with
              | EmptyString => 1
              | String _ post' => S (countMatchesFrom f its post')
              end
          | _ => S (countMatchesFrom f its post)
          end
      end
  end.

Definition countMatches (its : list item) (s : string) : nat :=
  countMatchesFrom (S (String.length s)) its s.

(** The values a dynamically typed argument can hold, as far as [typeof] and
    truthiness tell them apart. *)
Inductive value : Type :=
| VUndefined
| VNull
| VBool (b : bool)
| VNumber (n : nat)
| VString (s : string)
| VObject.

Definition isString (v : value) : bool :=
  match v with VString _ => true | _ => false end.

Definition truthy (v : value) : bool :=
  match v with
  | VUndefined | VNull => false
  | VBool b => b
  | VNumber n => negb (n =? 0)
  | VString s => negb (String.eqb s EmptyString)
  | VObject => true
  end.

End Js.

(** ** Paths

    [path.join] and [path.normalize] of Node.js, in their POSIX form: the
    separator is the slash. *)

Module NodePath.

Import Js.

Definition isSlash (c : ascii) : bool := Ascii.eqb c "/"%char.

Fixpoint endsWithSlash (path : string) : bool :=
  match path with
  | EmptyString => false
  | String c EmptyString => isSlash c
  | String _ r => endsWithSlash r
  end.

(** One segment of [normalizeString]; [kept] holds the segments of the
    result so far, the last one first.  An empty segment and [.] are dropped;
    [..] removes the segment before it, and is kept only where there is none
    to remove and the path is relative. *)
Definition pushSegment (allowAboveRoot : bool) (kept : list string) (segment : string)
  : list string :=
  if String.eqb segment EmptyString || String.eqb segment "." then kept
  else if String.eqb segment ".." then
    match kept with
    | [] => if allowAboveRoot then [".."] else []
    | top :: rest =>
        if String.eqb top ".." then (if allowAboveRoot then ".." :: kept else kept)
        else rest
    end
  else segment :: kept.

Definition normalizeString (allowAboveRoot : bool) (path : string) : string :=
  join "/" (rev (fold_left (pushSegment allowAboveRoot) (splitOn isSlash path) [])).

Definition normalize (path : string) : string :=
  match path with
  | EmptyString => "."
  | String c _ =>
      let isAbsolute := isSlash c in
      let trailingSeparator := endsWithSlash path in
      match normalizeString (negb isAbsolute) path with
      | EmptyString =>
          if isAbsolute then "/" else if trailingSeparator then "./" else "."
      | normalized =>
          let normalized :=
            if trailingSeparator then normalized ++ "/" else normalized in
          if isAbsolute then "/" ++ normalized else normalized
      end
  end.

(** [path.join(...parts)]: the parts that are not empty, joined by slashes
    and normalized. *)
Definition pathJoin (parts : list string) : string :=
  match filter (fun part => negb (String.eqb part EmptyString)) parts with
  | [] => "."
  | kept => normalize (join "/" kept)
  end.

End NodePath.

(** ** Exceptions and effects *)

Module Eff.

(** A thrown [Error] object. *)
Record error : Type := mkError {
  errorName : string;
  message : string
}.

Definition TypeError (m : string) : error := mkError "TypeError" m.
Definition PlainError (m : string) : error := mkError "Error" m.

(** A computation that returns or throws. *)
Inductive result (A : Type) : Type :=
| Ok (a : A)
| Throw (e : error).
Arguments Ok {A} a.
Arguments Throw {A} e.

Definition bind {A B : Type} (m : result A) (k : A -> result B) : result B :=
  match m with
  | Ok a => k a
  | Throw e => Throw e
  end.

Notation "x <- m ;; k" := (bind m (fun x => k))
  (at level 61, m at next level, right associativity).

(** [Array.prototype.map] with a callback that may throw. *)
Fixpoint mapM {A B : Type} (f : A -> result B) (l : list A) : result (list B) :=
  match l with
  | [] => Ok []
  | x :: r => y <- f x ;; ys <- mapM f r ;; Ok (y :: ys)
  end.

(** What a handler does to the outside world, in order. *)
Inductive event : Type :=
| LoadProfileSummary
| LoadWorkExperience
| LoadSkills
| LoadAllProjects
| LoadLatexTemplate
| EnsureDir (dir : string)
| WriteFile (file content : string)
| ConvertLatexToPdf (latex fileName : string).

(** An asynchronous computation: the events it performed, and how it
    settled ([Ok] resolved, [Throw] rejected). *)
Definition io (A : Type) : Type := (list event * result A)%type.

Definition ioRet {A : Type} (a : A) : io A := ([], Ok a).
Definition ioThrow {A : Type} (e : error) : io A := ([], Throw e).
Definition ioLift {A : Type} (r : result A) : io A := ([], r).
Definition perform {A : Type} (ev : event) (r : result A) : io A := ([ev], r).

Definition ioBind {A B : Type} (m : io A) (k : A -> io B) : io B :=
  match m with
  | (t, Ok a) => let (t', r) := k a in ((t ++ t')%list, r)
  | (t, Throw e) => (t, Throw e)
  end.

Notation "x <~ m ;; k" := (ioBind m (fun x => k))
  (at level 61, m at next level, right associativity).

(** [try { body } catch (error) { handler }]. *)
Definition tryCatch {A : Type} (body : io A) (handler : error -> io A) : io A :=
  match body with
  | (t, Ok a) => (t, Ok a)
  | (t, Throw e) => let (t', r) := handler e in ((t ++ t')%list, r)
  end.

End Eff.

(** ** The knowledge base *)

Module KnowledgeBase.

Record Duration : Type := mkDuration {
  start_date : string;
  end_date : string
}.

(** An entry of [work_experience.positions].  [technologies] and
    [achievements] may be missing. *)
Record Position : Type := mkPosition {
  company : string;
  position : string;
  location : string;
  duration : Duration;
  status : string;
  description : list string;
  technologies : option (list string);
  achievements : option (list string)
}.

Record Skill : Type := mkSkill {
  name : string;
  proficiency : string;
  context : list string
}.

Record SkillCategory : Type := mkSkillCategory {
  skills : list Skill
}.

(** [skills.categories], an object used as a map, in insertion order. *)
Definition SkillCategories : Type := list (string * SkillCategory).

(** The [project] member of a project file. *)
Record Project : Type := mkProject {
  title : string;
  summary : option string;
  raw_summary : option string
}.

(** [profile.profile_summary], as far as the generator reads it. *)
Record Profile : Type := mkProfile {
  total_experience : string;
  key_achievements : list string;
  strongest_areas : list string
}.

End KnowledgeBase.

(** ** The resume generator *)

Module ResumeGenerator.

Import Js Eff KnowledgeBase.

(** [{...pos, relevanceScore}]. *)
Record ScoredPosition : Type := mkScoredPosition {
  scored : Position;
  relevanceScore : nat
}.

(** [{...project, relevanceScore, githubUrl, bulletPoints}]. *)
Record ScoredProject : Type := mkScoredProject {
  scoredProject : Project;
  projectScore : nat;
  githubUrl : string;
  bulletPoints : list string
}.

Definition techKeywords : list string :=
  [ "python"; "java"; "javascript"; "react"; "node.js"; "spring boot";
    "aws"; "docker"; "kubernetes"; "postgresql"; "mongodb"; "redis";
    "microservices"; "api"; "rest"; "graphql"; "ci/cd"; "devops";
    "machine learning"; "ai"; "tensorflow"; "pytorch"; "cloud";
    "backend"; "frontend"; "full-stack"; "agile"; "scrum"; "git";
    "linux"; "oauth"; "jwt"; "security"; "performance"; "scalability" ].

(** [extractJobKeywords(jobDescription)]; a job description that is not a
    string has no [toLowerCase]. *)
Definition extractJobKeywords (jobDescription : value) : result (list string) :=
  match jobDescription with
  | VString s =>
      let descriptionLower := toLowerCase s in
      Ok (filter (fun keyword => includes descriptionLower keyword) techKeywords)
  | VUndefined =>
      Throw (TypeError "Cannot read properties of undefined (reading 'toLowerCase')")
  | VNull =>
      Throw (TypeError "Cannot read properties of null (reading 'toLowerCase')")
  | _ => Throw (TypeError "jobDescription.toLowerCase is not a function")
  end.

(** [x || y] on strings: the empty string is falsy. *)
Definition orElse (x : option string) (y : option string) : option string :=
  match x with
  | Some EmptyString | None => y
  | Some s => Some s
  end.

Definition orEmpty (x : option string) : string :=
  match orElse x (Some EmptyString) with
  | Some s => s
  | None => EmptyString
  end.

Definition generateTailoredSummary (profile : Profile) (jobDescription : value)
  (jobTitle : string) : result string :=
  jobKeywords <- extractJobKeywords jobDescription ;;
  let experience := total_experience profile in
  let relevantAchievements := firstn 2 (key_achievements profile) in
  let relevantTech :=
    firstn 3
      (filter (fun area =>
                 existsb (fun keyword => includes (toLowerCase area) (toLowerCase keyword))
                         jobKeywords)
              (strongest_areas profile)) in
  Ok (jobTitle ++ " with " ++ experience
      ++ " full-stack development experience specializing in "
      ++ join ", " relevantTech ++ ". "
      ++ join " and " relevantAchievements
      ++ " across enterprise applications. Expertise in scalable system design, team leadership, and agile development methodologies.").

(** [new RegExp(keywordLower, 'g')]: every character stands for itself,
    except the dot.  This is the pattern the source builds for a keyword in
    which the dot is the only character with a meaning in patterns, as in
    every keyword of [techKeywords]. *)
Fixpoint keywordRegex (keyword : string) : list item :=
  match keyword with
  | EmptyString => []
  | String c r =>
      (if Ascii.eqb c "."%char then One CDot else One (CChar c)) :: keywordRegex r
  end.

(** The characters with a meaning in patterns. *)
Definition isMeta (c : ascii) : bool :=
  existsb (Ascii.eqb c)
    [ "\"%char; "^"%char; "$"%char; "."%char; "*"%char; "+"%char; "?"%char;
      "("%char; ")"%char; "["%char; "]"%char; "{"%char; "}"%char; "|"%char ].

(** [(text.match(new RegExp(keywordLower, 'g')) || []).length * 2], summed
    over the keywords. *)
Definition keywordScore (searchText : string) (jobKeywords : list string) : nat :=
  fold_left
    (fun score keyword =>
       let keywordLower := toLowerCase keyword in
       let matches := countMatches (keywordRegex keywordLower) searchText in
       score + matches * 2)
    jobKeywords 0.

Definition joinOrEmpty (l : option (list string)) : string :=
  match l with
  | Some xs => join " " xs
  | None => EmptyString
  end.

Definition calculateRelevanceScore (pos : Position) (jobKeywords : list string) : nat :=
  let searchText :=
    toLowerCase
      (join " " [ joinOrEmpty (Some (description pos));
                  joinOrEmpty (technologies pos);
                  joinOrEmpty (achievements pos) ]) in
  let score := keywordScore searchText jobKeywords in
  let score := if String.eqb (status pos) "Current" then score + 5 else score in
  let score :=
    if includes (toLowerCase (position pos)) "engineer"
       || includes (toLowerCase (position pos)) "developer"
    then score + 3 else score in
  score.

Definition effectiveSummary (project : Project) : option string :=
  orElse (summary project) (raw_summary project).

Definition calculateProjectRelevanceScore (project : Project) (jobKeywords : list string)
  : nat :=
  let searchText := toLowerCase (orEmpty (effectiveSummary project)) in
  keywordScore searchText jobKeywords.

(** [Array.prototype.sort] with the comparator
    [(a, b) => b.relevanceScore - a.relevanceScore]: a stable sort by
    decreasing score. *)
Section Sort.
Context {A : Type} (score : A -> nat).

Fixpoint insertByScore (x : A) (l : list A) : list A :=
  match l with
  | [] => [x]
  | y :: r => if score x <? score y then y :: insertByScore x r else x :: y :: r
  end.

Fixpoint sortByScore (l : list A) : list A :=
  match l with
  | [] => []
  | x :: r => insertByScore x (sortByScore r)
  end.

End Sort.

Definition filler : string := "significant performance improvements".

(** [pos.achievements[i] || 'significant performance improvements'], for an
    index that is a difference of two lengths. *)
Definition achievementOrFiller (achs : list string) (i : Z) : string :=
  if (i <? 0)%Z then filler
  else match nth_error achs (Z.to_nat i) with
       | Some EmptyString | None => filler
       | Some a => a
       end.

(** The loop [while (bulletPoints.length < 3 && pos.achievements) push(...)];
    each turn adds one bullet, so three turns are enough. *)
Fixpoint fillBullets (turns : nat) (pos : Position) (bullets : list string)
  : list string :=
  match turns with
  | 0 => bullets
  | S n =>
      if List.length bullets <? 3 then
        match achievements pos with
        | Some achs =>
            let i := (Z.of_nat (List.length bullets)
                      - Z.of_nat (List.length (description pos)))%Z in
            fillBullets n pos
              (bullets ++ [("Achieved " ++ achievementOrFiller achs i)%string])%list
        | None => bullets
        end
      else bullets
  end.

Definition withDescription (pos : Position) (d : list string) : Position :=
  mkPosition (company pos) (position pos) (location pos) (duration pos)
             (status pos) d (technologies pos) (achievements pos).

(** The callback of the last [map] of [selectRelevantExperience]. *)
Definition threeBullets (sp : ScoredPosition) : ScoredPosition :=
  let pos := scored sp in
  let bullets := fillBullets 3 pos (firstn 3 (description pos)) in
  mkScoredPosition (withDescription pos (firstn 3 bullets)) (relevanceScore sp).

Definition selectRelevantExperience (positions : list Position) (jobDescription : value)
  : result (list ScoredPosition) :=
  jobKeywords <- extractJobKeywords jobDescription ;;
  let scoredPositions :=
    map (fun pos => mkScoredPosition pos (calculateRelevanceScore pos jobKeywords))
        positions in
  Ok (map threeBullets (firstn 4 (sortByScore relevanceScore scoredPositions))).

Definition isRelevantSkill (jobKeywords : list string) (skill : Skill) : bool :=
  existsb
    (fun keyword =>
       includes (toLowerCase (name skill)) (toLowerCase keyword)
       || existsb (fun ctx => includes (toLowerCase ctx) (toLowerCase keyword))
                  (context skill))
    jobKeywords.

Definition isProficient (skill : Skill) : bool :=
  existsb (String.eqb (proficiency skill)) ["Advanced"; "Intermediate"].

Definition selectRelevantSkills (skillCategories : SkillCategories) (jobDescription : value)
  : result SkillCategories :=
  jobKeywords <- extractJobKeywords jobDescription ;;
  Ok (flat_map
        (fun entry : string * SkillCategory =>
           let (category, categoryData) := entry in
           let relevantSkillsInCategory :=
             filter (fun skill => isRelevantSkill jobKeywords skill || isProficient skill)
                    (skills categoryData) in
           if 0 <? List.length relevantSkillsInCategory
           then [(category, mkSkillCategory (firstn 8 relevantSkillsInCategory))]
           else [])
        skillCategories).

(** The pattern [/\d+%|\d+x|performance|optimization|implementation|development|architecture/]. *)
Definition technicalPattern : list (list item) :=
  [ [One CDigit; Star false CDigit; Lit "%"];
    [One CDigit; Star false CDigit; Lit "x"];
    [Lit "performance"]; [Lit "optimization"]; [Lit "implementation"];
    [Lit "development"]; [Lit "architecture"] ].

(** The pattern [/^\*+\s*/]. *)
Definition leadingStars : regex :=
  mkRegex [One (CChar "*"); Star false (CChar "*"); Star false CSpace] [].

Definition cleanBullet (bp : string) : string :=
  replaceAtStart leadingStars EmptyString (trim bp).

(** The fragments [summary.split(/[.!]/)] keeps. *)
Definition sentencesOf (summaryText : string) : list string :=
  filter (fun s => 20 <? String.length (trim s))
         (splitOn (fun c => cmatch (COneOf ["."%char; "!"%char]) c) summaryText).

(** [generateProjectBulletPoints(project)]; [split] is read from
    [undefined] when the project has neither summary. *)
Definition generateProjectBulletPoints (project : Project) : result (list string) :=
  match effectiveSummary project with
  | None => Throw (TypeError "Cannot read properties of undefined (reading 'split')")
  | Some summaryText =>
      let sentences := sentencesOf summaryText in
      let technicalSentences :=
        filter (fun s => test technicalPattern (toLowerCase s)) sentences in
      let bulletPoints :=
        if 2 <=? List.length technicalSentences
        then firstn 2 technicalSentences
        else firstn 2 sentences in
      Ok (firstn 2
            (filter (fun bp => 0 <? String.length bp) (map cleanBullet bulletPoints)))
  end.

Definition selectRelevantProjects (projects : list Project) (jobDescription : value)
  : result (list ScoredProject) :=
  jobKeywords <- extractJobKeywords jobDescription ;;
  scoredProjects <-
    mapM (fun project =>
            let score := calculateProjectRelevanceScore project jobKeywords in
            bullets <- generateProjectBulletPoints project ;;
            Ok (mkScoredProject project score
                  ("https://github.com/Dextron04/" ++ title project) bullets))
         projects ;;
  Ok (firstn 3 (sortByScore projectScore scoredProjects)).

(** [this.sanitizeLatex(text)]: nine global replacements, one after the
    other, each on the result of the one before. *)
Definition charRegex (c : ascii) : regex := mkRegex [One (CChar c)] [].

Definition sanitizeLatex (text : value) : string :=
  if negb (truthy text) || negb (isString text) then EmptyString
  else
    match text with
    | VString s =>
        let s1 := replaceAll (charRegex "&") "\&" s in
        let s2 := replaceAll (charRegex "%") "\%" s1 in
        let s3 := replaceAll (charRegex "$") "\$" s2 in
        let s4 := replaceAll (charRegex "#") "\#" s3 in
        let s5 := replaceAll (charRegex "^") "\^{}" s4 in
        let s6 := replaceAll (charRegex "~") "\~{}" s5 in
        let s7 := replaceAll (charRegex "_") "\_" s6 in
        let s8 := replaceAll (charRegex "{") "\{" s7 in
        replaceAll (charRegex "}") "\}" s8
    | _ => EmptyString
    end.

Definition sanitize (s : string) : string := sanitizeLatex (VString s).

Definition resumeItems (bullets : list string) : string :=
  join nl (map (fun desc => "        \resumeItem{" ++ sanitize desc ++ "}") bullets).

Definition buildExperienceSection (experiences : list ScoredPosition) : string :=
  join (nl ++ nl)
    (map (fun sp =>
            let exp := scored sp in
            "    \resumeSubheading" ++ nl
            ++ "      {" ++ sanitize (company exp) ++ "}{"
            ++ sanitize (start_date (duration exp)) ++ " -- "
            ++ sanitize (end_date (duration exp)) ++ "}" ++ nl
            ++ "      {" ++ sanitize (position exp) ++ "}{"
            ++ sanitize (location exp) ++ "}" ++ nl
            ++ "      \resumeItemListStart" ++ nl
            ++ resumeItems (description exp) ++ nl
            ++ "      \resumeItemListEnd" ++ nl
            ++ "      \vspace{-3pt}")
         experiences).

Definition buildProjectsSection (projects : list ScoredProject) : string :=
  join (nl ++ nl)
    (map (fun project =>
            "\resumeProjectHeading" ++ nl
            ++ "    {\textbf{" ++ sanitize (title (scoredProject project)) ++ "} \href{"
            ++ githubUrl project ++ "}{[\underline{Link to GitHub}]}}{}" ++ nl
            ++ "    \resumeItemListStart" ++ nl
            ++ resumeItems (bulletPoints project) ++ nl
            ++ "    \resumeItemListEnd" ++ nl
            ++ "    \vspace{-3pt}")
         projects).

(** [skillCategories[categoryKey]]. *)
Fixpoint lookup (key : string) (m : SkillCategories) : option SkillCategory :=
  match m with
  | [] => None
  | (k, v) :: r => if String.eqb k key then Some v else lookup key r
  end.

Definition extractSkillNames (skillCategories : SkillCategories) (categoryKey : string)
  : list string :=
  match lookup categoryKey skillCategories with
  | None => []
  | Some category => map name (skills category)
  end.

Definition skillLine (label : string) (names : list string) : string :=
  "\textbf{" ++ label ++ ":} " ++ join ", " (map sanitize names).

(** [if (names.length) skillLines.push(line)]. *)
Definition pushIf (names : list string) (line : string) : list string :=
  if 0 <? List.length names then [line] else [].

Definition buildSkillsSection (skillCategories : SkillCategories) : string :=
  let programmingSkills := extractSkillNames skillCategories "programming_languages" in
  let webSkills := extractSkillNames skillCategories "web_technologies" in
  let cloudSkills := extractSkillNames skillCategories "cloud_technologies" in
  let databaseSkills := extractSkillNames skillCategories "databases" in
  let toolSkills := extractSkillNames skillCategories "tools_and_systems" in
  let specializedSkills :=
    extractSkillNames skillCategories "specialized_technologies" in
  let skillLines :=
    (pushIf programmingSkills (skillLine "Programming Languages" programmingSkills)
     ++ pushIf webSkills (skillLine "Frontend \& Backend" webSkills)
     ++ pushIf (cloudSkills ++ databaseSkills)
               (skillLine "Databases \& Cloud" (databaseSkills ++ cloudSkills))
     ++ pushIf (toolSkills ++ specializedSkills)
               (skillLine "AI/ML \& Tools" (toolSkills ++ specializedSkills)))%list in
  join (" \\" ++ nl) skillLines.

(** The pattern [replaceSection] builds for a section name made of letters:
    [(%-----------NAME-----------.*?\\resumeSubHeadingListStart)(.*?)(\\resumeSubHeadingListEnd)]
    with the [s] flag. *)
Definition sectionMarker (sectionName : string) : string :=
  "%-----------" ++ toUpperCase sectionName ++ "-----------".

Definition listStart : string := "\resumeSubHeadingListStart".
Definition listEnd : string := "\resumeSubHeadingListEnd".

Definition sectionRegex (sectionName : string) : regex :=
  mkRegex
    [ Lit (sectionMarker sectionName); Star true CAll; Lit listStart;
      Star true CAll;
      Lit listEnd ]
    [ (0, 3); (3, 1); (4, 1) ].

Definition replaceSection (latexContent sectionName newContent : string) : string :=
  replace (sectionRegex sectionName)
          ("$1" ++ nl ++ nl ++ newContent ++ nl ++ nl ++ "  $3")
          latexContent.

(** [/(%------SKILLS SECTION-------.*?\\section\{Skills\}.*?\\small\n)(.*?)(\n\\vspace\{-12pt\})/s] *)
Definition skillsMarker : string := "%------SKILLS SECTION-------".

Definition skillsRegex : regex :=
  mkRegex
    [ Lit skillsMarker; Star true CAll; Lit "\section{Skills}";
      Star true CAll; Lit ("\small" ++ nl);
      Star true CAll;
      Lit (nl ++ "\vspace{-12pt}") ]
    [ (0, 5); (5, 1); (6, 1) ].

Definition replaceSkillsSection (latexContent skillsContent : string) : string :=
  replace skillsRegex ("$1" ++ skillsContent ++ "$3") latexContent.

(** [/\\resumeItem\{[^}]*Software Engineer with[^}]*\}/s] *)
Definition sentinel : string := "Software Engineer with".

Definition summaryRegex : regex :=
  mkRegex
    [ Lit "\resumeItem{"; Star false (CNot "}"); Lit sentinel;
      Star false (CNot "}"); Lit "}" ]
    [].

Definition summaryItem (summaryText : string) : string :=
  "\resumeItem{" ++ nl ++ "  " ++ sanitize summaryText ++ nl ++ "}".

(** [buildLatexResume({ template, summary, experience, skills, projects })];
    [profile] and [customizations] are not read. *)
Definition buildLatexResume (template : string) (summaryText : string)
  (experience : list ScoredPosition) (skillCategories : SkillCategories)
  (projects : list ScoredProject) : string :=
  let latexContent := template in
  let summarySection := summaryItem summaryText in
  let latexContent := replace summaryRegex summarySection latexContent in
  let experienceSection := buildExperienceSection experience in
  let latexContent := replaceSection latexContent "Experience" experienceSection in
  let projectsSection := buildProjectsSection projects in
  let latexContent := replaceSection latexContent "Projects" projectsSection in
  let skillsSection := buildSkillsSection skillCategories in
  let latexContent := replaceSkillsSection latexContent skillsSection in
  latexContent.

(** The world [generateResume] runs in: what each load of the knowledge
    base settles to and when, relative to the other loads, and the clock. *)
Record World : Type := mkWorld {
  profileSummary : result Profile;
  workExperience : result (list Position);
  skillsFile : result SkillCategories;
  allProjects : result (list Project);
  latexTemplate : result string;
  now : string;
  outputPath : string;
  ensureDir : string -> result unit;
  writeFile : string -> string -> result unit;
  convertLatexToPdf : string -> string -> string + (string * string);
  settleTime : event -> nat
}.

Record Metadata : Type := mkMetadata {
  metaJobTitle : string;
  generatedAt : string;
  experienceCount : nat;
  projectCount : nat;
  skillCategoryNames : list string;
  atsOptimized : bool;
  singlePage : bool
}.

(** The object [generateResume] resolves to: [{success: true, latexContent,
    metadata}] or [{success: false, error, stack}]. *)
Inductive Outcome : Type :=
| Success (latexContent : string) (metadata : Metadata)
| Failure (errorMessage : string) (stack : string).

(** [Promise.all] of the five loads: all five are started; when several
    reject, the promise rejects with the error of the load that settles
    first ([settleTime]), the first of the array among loads that settle
    together. *)
Definition rejectionOf {A : Type} (time : nat) (r : result A) : list (nat * error) :=
  match r with
  | Ok _ => []
  | Throw e => [(time, e)]
  end.

Definition rejections (w : World) : list (nat * error) :=
  (rejectionOf (settleTime w LoadProfileSummary) (profileSummary w)
   ++ rejectionOf (settleTime w LoadWorkExperience) (workExperience w)
   ++ rejectionOf (settleTime w LoadSkills) (skillsFile w)
   ++ rejectionOf (settleTime w LoadAllProjects) (allProjects w)
   ++ rejectionOf (settleTime w LoadLatexTemplate) (latexTemplate w))%list.

Fixpoint earliest (l : list (nat * error)) : option (nat * error) :=
  match l with
  | [] => None
  | (time, e) :: r =>
      match earliest r with
      | Some (time', e') => if time' <? time then Some (time', e') else Some (time, e)
      | None => Some (time, e)
      end
  end.

Definition loadAll (w : World)
  : io (Profile * list Position * SkillCategories * list Project * string) :=
  ( [LoadProfileSummary; LoadWorkExperience; LoadSkills; LoadAllProjects;
     LoadLatexTemplate],
    match earliest (rejections w) with
    | Some (_, e) => Throw e
    | None =>
        profile <- profileSummary w ;;
        workExp <- workExperience w ;;
        skills <- skillsFile w ;;
        projects <- allProjects w ;;
        template <- latexTemplate w ;;
        Ok (profile, workExp, skills, projects, template)
    end ).

(** The body of the [try] block of [generateResume]. *)
Definition generateResumeBody (w : World) (jobDescription : value)
  (jobTitle : string) : io Outcome :=
  loaded <~ loadAll w ;;
  let '(profile, workExp, skills, projects, template) := loaded in
  tailoredSummary <~ ioLift (generateTailoredSummary profile jobDescription jobTitle) ;;
  relevantExperience <~ ioLift (selectRelevantExperience workExp jobDescription) ;;
  relevantSkills <~ ioLift (selectRelevantSkills skills jobDescription) ;;
  relevantProjects <~ ioLift (selectRelevantProjects projects jobDescription) ;;
  let latexContent :=
    buildLatexResume template tailoredSummary relevantExperience relevantSkills
                     relevantProjects in
  ioRet (Success latexContent
           (mkMetadata jobTitle (now w) (List.length relevantExperience)
                       (List.length relevantProjects) (map fst relevantSkills)
                       true true)).

(** The stack trace of an error is not modelled beyond its first line. *)
Definition stackOf (e : error) : string := errorName e ++ ": " ++ message e.

(** [generateResume(jobDescription, jobTitle = "Software Engineer",
    customizations = {})]. *)
Definition generateResume (w : World) (jobDescription : value)
  (jobTitle : option string) (customizations : value) : io Outcome :=
  let jobTitle := match jobTitle with Some t => t | None => "Software Engineer" end in
  tryCatch (generateResumeBody w jobDescription jobTitle)
           (fun e => ioRet (Failure (message e) (stackOf e))).

End ResumeGenerator.

(** ** The generation handlers of the server *)

Module AIResumeMcpServer.

Import Js Eff KnowledgeBase ResumeGenerator.

(** The [arguments] of a tool call. *)
Record Args : Type := mkArgs {
  jobDescription : value;
  jobTitle : option string;
  fileName : option string;
  customizations : option value
}.

Definition orDefault {A : Type} (x : option A) (d : A) : A :=
  match x with Some a => a | None => d end.

(** What the handlers report; the wording of the message is left out. *)
Inductive Response : Type :=
| Generated (metadata : Metadata) (texPath : string)
| GeneratedAndConverted (metadata : Metadata) (pdfPath texPath : string).

Definition validationError : error :=
  PlainError "Job description is required and cannot be empty".

(** [if (!jobDescription || jobDescription.trim().length === 0) throw ...];
    a truthy value that is not a string has no [trim]. *)
Definition requireJobDescription (jd : value) : result unit :=
  if negb (truthy jd) then Throw validationError
  else
    match jd with
    | VString s =>
        if String.length (trim s) =? 0 then Throw validationError else Ok tt
    | _ => Throw (TypeError "jobDescription.trim is not a function")
    end.

(** [path.join(CONFIG.outputPath, `${fileName}.tex`)]. *)
Definition texPathOf (w : World) (file : string) : string :=
  NodePath.pathJoin [outputPath w; file ++ ".tex"].

Definition handleGenerateResume (w : World) (args : Args) : io Response :=
  let jobTitle := orDefault (jobTitle args) "Software Engineer" in
  let fileName := orDefault (fileName args) "tailored_resume" in
  let customizations := orDefault (customizations args) VObject in
  _ <~ ioLift (requireJobDescription (jobDescription args)) ;;
  outcome <~ generateResume w (jobDescription args) (Some jobTitle) customizations ;;
  match outcome with
  | Failure err _ => ioThrow (PlainError ("Resume generation failed: " ++ err))
  | Success latexContent metadata =>
      _ <~ perform (EnsureDir (outputPath w)) (ensureDir w (outputPath w)) ;;
      let texPath := texPathOf w fileName in
      _ <~ perform (WriteFile texPath latexContent) (writeFile w texPath latexContent) ;;
      ioRet (Generated metadata texPath)
  end.

Definition handleGenerateAndConvertResume (w : World) (args : Args) : io Response :=
  let jobTitle := orDefault (jobTitle args) "Software Engineer" in
  let fileName := orDefault (fileName args) "tailored_resume" in
  let customizations := orDefault (customizations args) VObject in
  generateResult <~ generateResume w (jobDescription args) (Some jobTitle) customizations ;;
  match generateResult with
  | Failure err _ => ioThrow (PlainError ("Resume generation failed: " ++ err))
  | Success latexContent metadata =>
      pdfResult <~ perform (ConvertLatexToPdf latexContent fileName)
                           (Ok (convertLatexToPdf w latexContent fileName)) ;;
      match pdfResult with
      | inl err => ioThrow (PlainError ("PDF conversion failed: " ++ err))
      | inr (pdfPath, texPath) => ioRet (GeneratedAndConverted metadata pdfPath texPath)
      end
  end.

(** Whether an event reads the knowledge base. *)
Definition isKnowledgeBaseLoad (ev : event) : bool :=
  match ev with
  | LoadProfileSummary | LoadWorkExperience | LoadSkills | LoadAllProjects
  | LoadLatexTemplate => true
  | _ => false
  end.

End AIResumeMcpServer.

(** ** The knowledge base manager

    The class [KnowledgeBaseManager]: the loads and their cache.  The calls
    are taken one after the other, each on the cache the one before left. *)

Module KnowledgeBaseManager.

Import Js Eff.

(** What a load does to the file system. *)
Inductive access : Type :=
| ReadJson (filePath : string)
| ReadFile (filePath : string).

Section Manager.

(** Parsed JSON data; [path.join]; the member [files] of the project index
    (iterating a missing member throws). *)
Context {Json : Type}.
Variable pathJoin : list string -> string.
Variable indexFiles : Json -> result (list string).

(** The files as they are during one call: what [fs.readJson] and
    [fs.readFile] settle to. *)
Record FileSystem : Type := mkFileSystem {
  readJson : string -> result Json;
  readFile : string -> result string
}.

(** [this.cache], a [Map] from file paths to data, in insertion order. *)
Definition Cache : Type := list (string * Json).

Fixpoint cacheGet (filePath : string) (c : Cache) : option Json :=
  match c with
  | [] => None
  | (k, v) :: r => if String.eqb k filePath then Some v else cacheGet filePath r
  end.

(** [Map.prototype.set]: the value of a key that is present is replaced in
    place, a new key goes to the end. *)
Fixpoint cacheSet (filePath : string) (data : Json) (c : Cache) : Cache :=
  match c with
  | [] => [(filePath, data)]
  | (k, v) :: r =>
      if String.eqb k filePath then (k, data) :: r
      else (k, v) :: cacheSet filePath data r
  end.

(** A method of the manager: the accesses it makes, how it settles, and the
    cache it leaves. *)
Definition kb (A : Type) : Type := Cache -> (list access * result A * Cache).

Definition kbRet {A : Type} (a : A) : kb A := fun c => ([], Ok a, c).

Definition kbBind {A B : Type} (m : kb A) (k : A -> kb B) : kb B :=
  fun c =>
    match m c with
    | (t, Ok a, c1) => let '(t', r, c2) := k a c1 in ((t ++ t')%list, r, c2)
    | (t, Throw e, c1) => (t, Throw e, c1)
    end.

(** [readJsonFile(filePath)]. *)
Definition readJsonFile (fs : FileSystem) (filePath : string) : kb Json :=
  fun c =>
    match cacheGet filePath c with
    | Some data => ([], Ok data, c)
    | None =>
        match readJson fs filePath with
        | Ok data => ([ReadJson filePath], Ok data, cacheSet filePath data c)
        | Throw e => ([ReadJson filePath], Throw e, c)
        end
    end.

Definition loadProfileSummary (fs : FileSystem) (basePath : string) : kb Json :=
  readJsonFile fs (pathJoin [basePath; "profile_summary.json"]).

Definition loadWorkExperience (fs : FileSystem) (basePath : string) : kb Json :=
  readJsonFile fs (pathJoin [basePath; "work_experience"; "work_experience.json"]).

Definition loadSkills (fs : FileSystem) (basePath : string) : kb Json :=
  readJsonFile fs (pathJoin [basePath; "skills"; "skills.json"]).

(** The loop of [loadAllProjects] over [index.files]. *)
Fixpoint loadProjectFiles (fs : FileSystem) (basePath : string) (files : list string)
  : kb (list Json) :=
  match files with
  | [] => kbRet []
  | file :: rest =>
      kbBind (readJsonFile fs (pathJoin [basePath; "github_projects"; file]))
        (fun project =>
           kbBind (loadProjectFiles fs basePath rest)
             (fun projects => kbRet (project :: projects)))
  end.

Definition loadAllProjects (fs : FileSystem) (basePath : string) : kb (list Json) :=
  kbBind (readJsonFile fs (pathJoin [basePath; "github_projects"; "00_index.json"]))
    (fun index =>
       kbBind (fun c => ([], indexFiles index, c))
         (fun files => loadProjectFiles fs basePath files)).

(** [loadLatexTemplate()]: read with [fs.readFile], not through the cache. *)
Definition loadLatexTemplate (fs : FileSystem) (basePath : string) : kb string :=
  fun c =>
    ([ReadFile (pathJoin [basePath; "templates"; "Tushin_Resume_SYS.tex"])],
     readFile fs (pathJoin [basePath; "templates"; "Tushin_Resume_SYS.tex"]),
     c).

(** [clearCache()]. *)
Definition clearCache : kb unit := fun _ => ([], Ok tt, []).

End Manager.

End KnowledgeBaseManager.

(** ** The other tools of the server *)

Module ServerTools.

Import Js Eff KnowledgeBase ResumeGenerator AIResumeMcpServer.

(** The members of [arguments] the handlers read. *)
Record CallArguments : Type := mkCallArguments {
  generationArgs : Args;
  latexContent : value
}.

(** What a tool call resolves to: the report of a handler, or the object
    with [isError: true] and its text. *)
Inductive ToolResult : Type :=
| ResumeReport (r : Response)
| PdfReport (pdfPath texPath : string)
| OtherReport (text : string)
| ErrorResult (text : string).

Definition isError (r : ToolResult) : bool :=
  match r with ErrorResult _ => true | _ => false end.

Definition latexRequired : error :=
  PlainError "LaTeX content is required and cannot be empty".

(** [if (!latexContent || latexContent.trim().length === 0) throw ...]. *)
Definition requireLatexContent (latex : value) : result string :=
  if negb (truthy latex) then Throw latexRequired
  else
    match latex with
    | VString s =>
        if String.length (trim s) =? 0 then Throw latexRequired else Ok s
    | _ => Throw (TypeError "latexContent.trim is not a function")
    end.

(** [handleConvertLatexToPdf(args)], with [fileName = "resume"]. *)
Definition handleConvertLatexToPdf (w : World) (args : CallArguments) : io ToolResult :=
  let fileName := orDefault (fileName (generationArgs args)) "resume" in
  latex <~ ioLift (requireLatexContent (latexContent args)) ;;
  result <~ perform (ConvertLatexToPdf latex fileName)
                    (Ok (convertLatexToPdf w latex fileName)) ;;
  match result with
  | inl err => ioThrow (PlainError ("PDF conversion failed: " ++ err))
  | inr (pdfPath, texPath) => ioRet (PdfReport pdfPath texPath)
  end.

Section CallTool.

(** The two handlers that are not modelled: what they settle to. *)
Variable handleRefreshKnowledgeBase : io ToolResult.
Variable handleAnalyzeKnowledgeBase : io ToolResult.

(** The handler of [CallToolRequestSchema]: the [switch] on the tool name
    inside [try], and the [catch] that answers with [isError]. *)
Definition callTool (w : World) (name : string) (args : CallArguments) : io ToolResult :=
  tryCatch
    (if String.eqb name "generate-resume" then
       r <~ handleGenerateResume w (generationArgs args) ;; ioRet (ResumeReport r)
     else if String.eqb name "convert-latex-to-pdf" then
       handleConvertLatexToPdf w args
     else if String.eqb name "generate-and-convert-resume" then
       r <~ handleGenerateAndConvertResume w (generationArgs args) ;;
       ioRet (ResumeReport r)
     else if String.eqb name "refresh-knowledge-base" then
       handleRefreshKnowledgeBase
     else if String.eqb name "analyze-knowledge-base" then
       handleAnalyzeKnowledgeBase
     else ioThrow (PlainError ("Unknown tool: " ++ name)))
    (fun e => ioRet (ErrorResult ("Error executing " ++ name ++ ": " ++ message e))).

End CallTool.

(** [categorizeProjects(projects)]: the category of a summary, by the first
    test of the chain that holds. *)
Definition anyIncluded (text : string) (words : list string) : bool :=
  existsb (fun word => includes text word) words.

Definition categoryOf (summaryLower : string) : string :=
  if anyIncluded summaryLower ["web"; "react"; "node"; "frontend"; "backend"]
  then "Web Development"
  else if anyIncluded summaryLower ["mobile"; "ios"; "android"; "app"]
  then "Mobile Development"
  else if anyIncluded summaryLower ["system"; "file system"; "operating"; "c++"; "shell"]
  then "System Programming"
  else if anyIncluded summaryLower ["ai"; "machine learning"; "ml"; "tensorflow"; "neural"]
  then "AI/ML"
  else if anyIncluded summaryLower
            ["docker"; "kubernetes"; "deploy"; "infrastructure"; "server"]
  then "DevOps/Infrastructure"
  else if anyIncluded summaryLower ["api"; "rest"; "graphql"; "microservice"]
  then "API Development"
  else "Other".

(** The object [categories], in the order of its keys. *)
Definition Categories : Type := list (string * nat).

Definition noProjects : Categories :=
  [ ("Web Development", 0); ("Mobile Development", 0); ("System Programming", 0);
    ("AI/ML", 0); ("DevOps/Infrastructure", 0); ("API Development", 0);
    ("Other", 0) ].

(** [categories[key]++] for a key that is present. *)
Fixpoint increment (key : string) (c : Categories) : Categories :=
  match c with
  | [] => []
  | (k, n) :: r =>
      if String.eqb k key then (k, S n) :: r else (k, n) :: increment key r
  end.

Definition categorizeProjects (projects : list Project) : Categories :=
  fold_left
    (fun categories project =>
       let summaryLower := toLowerCase (orEmpty (effectiveSummary project)) in
       increment (categoryOf summaryLower) categories)
    projects noProjects.

(** [categories[key] || 0]. *)
Fixpoint countOf (key : string) (c : Categories) : nat :=
  match c with
  | [] => 0
  | (k, n) :: r => if String.eqb k key then n else countOf key r
  end.

(** [s.match(re) || []] for a pattern with the [g] flag: the matched texts,
    from left to right. *)
Fixpoint matchAllFrom (fuel : nat) (its : list item) (s : string) : list string :=
  match fuel with
  | 0 => []
  | S f =>
      match exec its s with
      | None => []
      | Some (_, ps, post) =>
          match concatAll ps with
          | EmptyString =>
              match post with
              | EmptyString => [EmptyString]
              | String _ post' => EmptyString :: matchAllFrom f its post'
              end
          | m => m :: matchAllFrom f its post
          end
      end
  end.

Definition matchAll (its : list item) (s : string) : list string :=
  matchAllFrom (S (String.length s)) its s.

(** [/\\section\{([^}]+)\}/] *)
Definition sectionHeading : regex :=
  mkRegex [Lit "\section{"; One (CNot "}"); Star false (CNot "}"); Lit "}"] [(1, 2)].

Definition extractLatexSections (template : string) : list string :=
  map (fun m => replace sectionHeading "$1" m) (matchAll (items sectionHeading) template).

(** [/\\newcommand\{([^}]+)\}/], and the same followed by [.*]. *)
Definition commandHeading : regex :=
  mkRegex [Lit "\newcommand{"; One (CNot "}"); Star false (CNot "}"); Lit "}"] [(1, 2)].

Definition commandHeadingRest : regex :=
  mkRegex [Lit "\newcommand{"; One (CNot "}"); Star false (CNot "}"); Lit "}";
           Star false CDot]
          [(1, 2)].

Definition extractLatexCommands (template : string) : list string :=
  map (fun m => replace commandHeadingRest "$1" m)
      (matchAll (items commandHeading) template).

End ServerTools.

(** ** Reference definitions

    What the statements below compare the code with. *)

Module Reference.

Import Js Eff KnowledgeBase ResumeGenerator.

(** [substChar c rep s]: every [c] of [s] replaced by [rep]. *)
Fixpoint substChar (c : ascii) (rep : string) (s : string) : string :=
  match s with
  | EmptyString => EmptyString
  | String a r =>
      if Ascii.eqb a c then rep ++ substChar c rep r
      else String a (substChar c rep r)
  end.

(** A replacement text that stands for itself. *)
Definition plainText (t : string) : Prop :=
  forall matched before after caps, getSubstitution matched before after caps t = t.

(** What the nine passes make of one character: the two characters whose
    replacement holds braces are escaped again by the brace passes. *)
Definition escapeChar (c : ascii) : string :=
  if Ascii.eqb c "&" then "\&"
  else if Ascii.eqb c "%" then "\%"
  else if Ascii.eqb c "$" then "\$"
  else if Ascii.eqb c "#" then "\#"
  else if Ascii.eqb c "^" then "\^\{\}"
  else if Ascii.eqb c "~" then "\~\{\}"
  else if Ascii.eqb c "_" then "\_"
  else if Ascii.eqb c "{" then "\{"
  else if Ascii.eqb c "}" then "\}"
  else String c EmptyString.

Fixpoint escapeAll (s : string) : string :=
  match s with
  | EmptyString => EmptyString
  | String c r => escapeChar c ++ escapeAll r
  end.

Definition passes (s : string) : string :=
  substChar "}" "\}" (substChar "{" "\{" (substChar "_" "\_"
    (substChar "~" "\~{}" (substChar "^" "\^{}" (substChar "#" "\#"
      (substChar "$" "\$" (substChar "%" "\%" (substChar "&" "\&" s)))))))).

(** The achievement at index [k], or the filler when there is none or it is
    the empty string. *)
Definition padded (achs : list string) (k : nat) : string :=
  match nth_error achs k with
  | Some a => if String.eqb a EmptyString then filler else a
  | None => filler
  end.

Definition achievementsOf (pos : Position) : list string :=
  match achievements pos with Some achs => achs | None => [] end.

Fixpoint allChars (p : ascii -> bool) (s : string) : bool :=
  match s with
  | EmptyString => true
  | String c r => p c && allChars p r
  end.

(** What an item can consume. *)
Definition pieceOf (it : item) (p : string) : Prop :=
  match it with
  | Lit l => p = l
  | One k => exists a, p = String a EmptyString /\ cmatch k a = true
  | Star _ k => allChars (cmatch k) p = true
  end.

(** The backfill as the specification words it: the missing bullets are
    taken from the achievements, in order, and when these run out the list
    stays short. *)
Definition backfillAsSpecified (pos : Position) : list string :=
  (description pos ++
   map (fun a => ("Achieved " ++ a)%string)
       (firstn (3 - List.length (description pos)) (achievementsOf pos)))%list.

(** A position with one description bullet and an empty achievements list. *)
Definition helpDesk : Position :=
  mkPosition "Campus IT" "Support Assistant" "San Francisco, CA"
             (mkDuration "Jan 2022" "May 2022") "Completed"
             ["Ran the help desk"] None (Some []).

(** A position with two description bullets and one achievement. *)
Definition tutor : Position :=
  mkPosition "Learning Center" "Tutor" "San Francisco, CA"
             (mkDuration "Aug 2021" "Dec 2021") "Completed"
             ["Tutored algorithms"; "Graded assignments"] None
             (Some ["a teaching award"]).

(** Sentence-ending punctuation, and the fragments of a summary. *)
Definition isSentenceEnd (c : ascii) : bool := Ascii.eqb c "." || Ascii.eqb c "!".

Definition fragments (text : string) : list string := splitOn isSentenceEnd text.

Definition onlyStars (s : string) : bool := allChars (fun c => Ascii.eqb c "*") s.

(** A project whose summary has two fragments of exactly 20 characters
    (white space at the ends left out). *)
Definition chatProject : Project :=
  mkProject "chat-service" (Some "Built a chat service. Added the login page.") None.

(** A project whose summary has two fragments that hold asterisks only. *)
Definition starProject : Project :=
  mkProject "stars" (Some "*********************.*********************") None.

(** A project with two sentences of substance. *)
Definition ordersProject : Project :=
  mkProject "orders-api"
    (Some "Designed a REST API for orders. Cut response times by 40% overall.") None.

(** The events of [loadAll]. *)
Definition fiveLoads : list event :=
  [LoadProfileSummary; LoadWorkExperience; LoadSkills; LoadAllProjects;
   LoadLatexTemplate].

(** An occurrence of [m] in [pre ++ rest] begins inside [pre]. *)
Fixpoint beginsIn (pre rest m : string) : bool :=
  match pre with
  | EmptyString => false
  | String _ p => startsWith (pre ++ rest) m || beginsIn p rest m
  end.

Definition noDollar (s : string) : bool :=
  allChars (fun c => negb (Ascii.eqb c "$")) s.

(** The parts of a template, in document order: the text around the four
    regions, the old inner spans, and what lies between the markers of a
    region. *)
Record Layout : Type := mkLayout {
  beforeSummary : string;
  oldSummary : string;
  beforeExperience : string;
  experienceLead : string;
  oldExperience : string;
  beforeProjects : string;
  projectsLead : string;
  oldProjects : string;
  beforeSkills : string;
  skillsLead1 : string;
  skillsLead2 : string;
  oldSkills : string;
  afterSkills : string
}.

Definition skillsAfter (L : Layout) (k : string) : string :=
  skillsMarker ++ skillsLead1 L ++ "\section{Skills}" ++ skillsLead2 L
  ++ ("\small" ++ nl) ++ k ++ (nl ++ "\vspace{-12pt}") ++ afterSkills L.

Definition projectsAfter (L : Layout) (p k : string) : string :=
  sectionMarker "Projects" ++ projectsLead L ++ listStart ++ p ++ listEnd
  ++ beforeSkills L ++ skillsAfter L k.

Definition experienceAfter (L : Layout) (e p k : string) : string :=
  sectionMarker "Experience" ++ experienceLead L ++ listStart ++ e ++ listEnd
  ++ beforeProjects L ++ projectsAfter L p k.

(** The document with the given texts in the four regions. *)
Definition assemble (L : Layout) (s e p k : string) : string :=
  beforeSummary L ++ s ++ beforeExperience L ++ experienceAfter L e p k.

Definition templateOf (L : Layout) : string :=
  assemble L (oldSummary L) (oldExperience L) (oldProjects L) (oldSkills L).

(** The document up to each region. *)
Definition upToExperience (L : Layout) (s : string) : string :=
  beforeSummary L ++ s ++ beforeExperience L.

Definition upToProjects (L : Layout) (s e : string) : string :=
  upToExperience L s ++ sectionMarker "Experience" ++ experienceLead L
  ++ listStart ++ e ++ listEnd ++ beforeProjects L.

Definition upToSkills (L : Layout) (s e p : string) : string :=
  upToProjects L s e ++ sectionMarker "Projects" ++ projectsLead L
  ++ listStart ++ p ++ listEnd ++ beforeSkills L.

(** The patterns of the splicer find the regions of the layout in its
    template: the summary pattern matches first at the old summary, and each
    of the other patterns, tried where its region begins, stops where the
    region ends. *)
Definition located (L : Layout) : Prop :=
  (exists ps,
      exec (items summaryRegex) (templateOf L)
      = Some (beforeSummary L, ps,
              beforeExperience L
              ++ experienceAfter L (oldExperience L) (oldProjects L) (oldSkills L))
      /\ concatAll ps = oldSummary L) /\
  matchItems (items (sectionRegex "Experience"))
             (experienceAfter L (oldExperience L) (oldProjects L) (oldSkills L))
  = Some ([sectionMarker "Experience"; experienceLead L; listStart;
           oldExperience L; listEnd],
          beforeProjects L ++ projectsAfter L (oldProjects L) (oldSkills L)) /\
  matchItems (items (sectionRegex "Projects"))
             (projectsAfter L (oldProjects L) (oldSkills L))
  = Some ([sectionMarker "Projects"; projectsLead L; listStart;
           oldProjects L; listEnd],
          beforeSkills L ++ skillsAfter L (oldSkills L)) /\
  matchItems (items skillsRegex) (skillsAfter L (oldSkills L))
  = Some ([skillsMarker; skillsLead1 L; "\section{Skills}"; skillsLead2 L;
           "\small" ++ nl; oldSkills L; nl ++ "\vspace{-12pt}"],
          afterSkills L).

(** What [replaceSection] puts around the new content. *)
Definition padded2 (content : string) : string :=
  nl ++ nl ++ content ++ nl ++ nl ++ "  ".

(** A template with the four regions. *)
Definition resumeTemplate : string :=
  "\section{Summary}" ++ nl
  ++ "\resumeItem{Software Engineer with two years of experience}" ++ nl
  ++ "%-----------EXPERIENCE-----------" ++ nl
  ++ "\section{Experience}" ++ nl
  ++ "  \resumeSubHeadingListStart" ++ nl
  ++ "    \resumeItem{An earlier job}" ++ nl
  ++ "  \resumeSubHeadingListEnd" ++ nl
  ++ "%-----------PROJECTS-----------" ++ nl
  ++ "\section{Projects}" ++ nl
  ++ "  \resumeSubHeadingListStart" ++ nl
  ++ "    \resumeItem{An earlier project}" ++ nl
  ++ "  \resumeSubHeadingListEnd" ++ nl
  ++ "%------SKILLS SECTION-------" ++ nl
  ++ "\section{Skills}" ++ nl
  ++ " \small" ++ nl
  ++ "\textbf{Languages:} C" ++ nl
  ++ "\vspace{-12pt}" ++ nl
  ++ "\end{document}".

Definition resumeLayout : Layout :=
  mkLayout ("\section{Summary}" ++ nl)
           "\resumeItem{Software Engineer with two years of experience}"
           nl
           (nl ++ "\section{Experience}" ++ nl ++ "  ")
           (nl ++ "    \resumeItem{An earlier job}" ++ nl ++ "  ")
           nl
           (nl ++ "\section{Projects}" ++ nl ++ "  ")
           (nl ++ "    \resumeItem{An earlier project}" ++ nl ++ "  ")
           nl
           nl
           (nl ++ " ")
           "\textbf{Languages:} C"
           (nl ++ "\end{document}").

(** A job title that holds the opening markers of the Experience region. *)
Definition injectedTitle : string :=
  "%-----------EXPERIENCE-----------\resumeSubHeadingListStart".

Definition profile0 : Profile :=
  mkProfile "2+ years" ["Shipped a portal"; "Led a team"] ["Backend Development"].

Definition resumeWorld : World :=
  mkWorld (Ok profile0) (Ok [tutor]) (Ok []) (Ok [ordersProject]) (Ok resumeTemplate)
          "2025-01-01T00:00:00.000Z" "output"
          (fun _ => Ok tt) (fun _ _ => Ok tt)
          (fun _ _ => inr ("output/resume.pdf", "output/resume.tex"))
          (fun _ => 0).

(** The number of places of [hay] at which [needle] occurs. *)
Fixpoint countOccurrences (hay needle : string) : nat :=
  (if startsWith hay needle then 1 else 0) +
  match hay with
  | EmptyString => 0
  | String _ r => countOccurrences r needle
  end.

(** The score as the specification words it: twice the number of
    occurrences of each keyword in the joined text, without regard to case,
    and the two bonuses. *)
Definition scoreAsSpecified (pos : Position) (jobKeywords : list string) : nat :=
  let text :=
    toLowerCase
      (join " " [ join " " (description pos);
                  match technologies pos with Some l => join " " l | None => EmptyString end;
                  match achievements pos with Some l => join " " l | None => EmptyString end ]) in
  list_sum (map (fun k => 2 * countOccurrences text (toLowerCase k)) jobKeywords)
  + (if String.eqb (status pos) "Current" then 5 else 0)
  + (if includes (toLowerCase (position pos)) "engineer"
        || includes (toLowerCase (position pos)) "developer" then 3 else 0).

(** A keyword without dot, and a keyword no proper end of which is also a
    beginning of it (its occurrences cannot overlap). *)
Definition noDot (k : string) : bool :=
  allChars (fun c => negb (Ascii.eqb c ".")) k.

Fixpoint noBorderFrom (k rest : string) : bool :=
  match rest with
  | EmptyString => true
  | String _ r => negb (startsWith k rest) && noBorderFrom k r
  end.

Definition unbordered (k : string) : bool :=
  match k with
  | EmptyString => false
  | String _ r => noBorderFrom k r
  end.

Definition noMeta (k : string) : bool :=
  allChars (fun c => negb (isMeta c)) k.

(** A keyword that holds no character with a meaning in patterns and whose
    occurrences cannot overlap. *)
Definition plainKeyword (k : string) : bool :=
  noMeta (toLowerCase k) && unbordered (toLowerCase k).

(** A position whose text holds [node js] and nowhere [node.js]. *)
Definition buildClerk : Position :=
  mkPosition "Print Shop" "Clerk" "Oakland, CA"
             (mkDuration "Jun 2020" "Aug 2020") "Completed"
             ["Kept the node js build scripts of the shop running"] None None.

(** A world whose template has none of the markers. *)
Definition plainTemplate : string := "\documentclass{article} \begin{document} Hello \end{document}".

Definition plainWorld : World :=
  mkWorld (Ok profile0) (Ok [tutor]) (Ok []) (Ok [ordersProject]) (Ok plainTemplate)
          "2025-01-01T00:00:00.000Z" "output"
          (fun _ => Ok tt) (fun _ _ => Ok tt)
          (fun _ _ => inr ("output/resume.pdf", "output/resume.tex"))
          (fun _ => 0).

(** A world in which the skills file and the template cannot be read; the
    template is the first to fail. *)
Definition offlineWorld : World :=
  mkWorld (Ok profile0) (Ok [tutor]) (Throw (PlainError "EACCES: permission denied"))
          (Ok [ordersProject]) (Throw (PlainError "ENOENT: no such file or directory"))
          "2025-01-01T00:00:00.000Z" "output"
          (fun _ => Ok tt) (fun _ _ => Ok tt)
          (fun _ _ => inr ("output/resume.pdf", "output/resume.tex"))
          (fun ev => match ev with LoadLatexTemplate => 1 | _ => 2 end).

(** A knowledge base on disk, its JSON data taken as lists of strings: the
    index holds the names of two project files. *)
Definition joinPath (parts : list string) : string := NodePath.pathJoin parts.

Definition namesOf (index : list string) : result (list string) := Ok index.

Definition diskFiles : @KnowledgeBaseManager.FileSystem (list string) :=
  KnowledgeBaseManager.mkFileSystem
    (fun p =>
       if String.eqb p "kb/github_projects/00_index.json"
       then Ok ["chat.json"; "orders.json"]
       else if String.eqb p "kb/github_projects/chat.json" then Ok ["chat-service"]
       else if String.eqb p "kb/github_projects/orders.json" then Ok ["orders-api"]
       else Throw (PlainError "ENOENT"))
    (fun _ => Throw (PlainError "ENOENT")).

(** The same disk once the files are gone. *)
Definition noFiles : @KnowledgeBaseManager.FileSystem (list string) :=
  KnowledgeBaseManager.mkFileSystem
    (fun _ => Throw (PlainError "ENOENT")) (fun _ => Throw (PlainError "ENOENT")).

Definition chatPath : string := "kb/github_projects/chat.json".

(** The cache after a sequence of reads, each on the files as they are at
    its time; every load of the manager that touches the cache is such a
    sequence. *)
Fixpoint cacheAfterReads {Json : Type}
  (reads : list (@KnowledgeBaseManager.FileSystem Json * string))
  (c : @KnowledgeBaseManager.Cache Json) : @KnowledgeBaseManager.Cache Json :=
  match reads with
  | [] => c
  | (fs, filePath) :: rest =>
      cacheAfterReads rest (snd (KnowledgeBaseManager.readJsonFile fs filePath c))
  end.

(** A list of scores that never goes up. *)
Fixpoint descending (l : list nat) : bool :=
  match l with
  | [] => true
  | a :: r =>
      match r with
      | [] => true
      | b :: _ => (b <=? a) && descending r
      end
  end.

Definition hasAchievements (pos : Position) : bool :=
  match achievements pos with Some _ => true | None => false end.

(** The names of the tools the server answers to. *)
Definition toolNames : list string :=
  [ "generate-resume"; "convert-latex-to-pdf"; "generate-and-convert-resume";
    "refresh-knowledge-base"; "analyze-knowledge-base" ].

(** The projects counted in all the categories together, and the category
    of a project. *)
Fixpoint total (c : ServerTools.Categories) : nat :=
  match c with
  | [] => 0
  | (_, n) :: r => n + total r
  end.

Definition summaryCategory (project : Project) : string :=
  ServerTools.categoryOf (toLowerCase (orEmpty (effectiveSummary project))).

Definition categoryNames : list string := map fst ServerTools.noProjects.

Definition webProject : Project :=
  mkProject "shop" (Some "A React storefront with a REST API.") None.

(** The characters a heading can hold between its braces. *)
Definition braceFree (s : string) : bool := allChars (cmatch (CNot "}")) s.

(** The items of [OPENING([^}]+)\}], followed by [tail]. *)
Definition braced (opening : string) (tail : list item) : list item :=
  Lit opening :: One (CNot "}") :: Star false (CNot "}") :: Lit "}" :: tail.

(** The nine characters the sanitizer replaces. *)
Definition isSpecial (c : ascii) : bool :=
  existsb (Ascii.eqb c)
    [ "&"%char; "%"%char; "$"%char; "#"%char; "^"%char; "~"%char; "_"%char;
      "{"%char; "}"%char ].

Definition noSpecial (s : string) : bool := allChars (fun c => negb (isSpecial c)) s.

(** Every one of the nine characters of [s] comes right after a backslash;
    [prev] is the character before [s]. *)
Fixpoint guardedFrom (prev : ascii) (s : string) : bool :=
  match s with
  | EmptyString => true
  | String c r =>
      (negb (isSpecial c) || Ascii.eqb prev "\"%char) && guardedFrom c r
  end.

Definition guarded (s : string) : bool := guardedFrom " "%char s.

Definition isLetter (c : ascii) : bool := isUpper c || isLower c.

(** The keyword part of the project score as the specification words it. *)
Definition projectScoreAsSpecified (project : Project) (jobKeywords : list string) : nat :=
  list_sum
    (map (fun k =>
            2 * countOccurrences (toLowerCase (orEmpty (effectiveSummary project)))
                                 (toLowerCase k))
         jobKeywords).

End Reference.

(** * Properties *)

(** ** Text *)

Module TextFacts.

Import Js Reference.

Lemma append_empty_r (s : string) : s ++ EmptyString = s.
Proof. induction s as [|c s IH]; simpl; [reflexivity | now rewrite IH]. Qed.

Lemma append_assoc (a b c : string) : (a ++ b) ++ c = a ++ (b ++ c).
Proof. induction a as [|x a IH]; simpl; [reflexivity | now rewrite IH]. Qed.

Lemma length_append (a b : string) :
  String.length (a ++ b) = String.length a + String.length b.
Proof. induction a as [|x a IH]; simpl; [reflexivity | now rewrite IH]. Qed.

Lemma substChar_append (c : ascii) (rep a b : string) :
  substChar c rep (a ++ b) = substChar c rep a ++ substChar c rep b.
Proof.
  induction a as [|x a IH]; simpl; [reflexivity|].
  destruct (Ascii.eqb x c); rewrite IH; [now rewrite append_assoc | reflexivity].
Qed.

(** The leftmost match of a one-character pattern. *)
Lemma exec_char_some (c : ascii) (s pre post : string) (ps : list string) :
  exec [One (CChar c)] s = Some (pre, ps, post) ->
  ps = [String c EmptyString] /\
  String.length post < String.length s /\
  forall rep, substChar c rep s = pre ++ rep ++ substChar c rep post.
Proof.
  revert pre; induction s as [|a s IH]; intros pre H; simpl in H; [discriminate|].
  destruct (Ascii.eqb a c) eqn:E.
  - apply Ascii.eqb_eq in E; subst a. simpl in H. inversion H; subst.
    repeat split; [simpl; lia|]. intros rep. simpl. now rewrite Ascii.eqb_refl.
  - destruct (exec [One (CChar c)] s) as [[[pre' ps'] post']|] eqn:X; [|discriminate].
    inversion H; subst. destruct (IH pre' eq_refl) as (P1 & P2 & P3).
    repeat split; [exact P1 | simpl; lia|]. intros rep. simpl. rewrite E.
    now rewrite P3.
Qed.

Lemma exec_char_none (c : ascii) (s : string) :
  exec [One (CChar c)] s = None -> forall rep, substChar c rep s = s.
Proof.
  induction s as [|a s IH]; intros H rep; simpl in *; [reflexivity|].
  destruct (Ascii.eqb a c); simpl in H; [discriminate|].
  destruct (exec [One (CChar c)] s) as [[[pre' ps'] post']|]; [discriminate|].
  now rewrite IH.
Qed.

Lemma replaceAllFrom_char (c : ascii) (t : string) (Ht : plainText t) :
  forall fuel done s, String.length s < fuel ->
    replaceAllFrom fuel (mkRegex [One (CChar c)] []) t done s = substChar c t s.
Proof.
  induction fuel as [|f IH]; intros done s Hlen; [lia|].
  cbn [replaceAllFrom items].
  destruct (exec [One (CChar c)] s) as [[[pre ps] post]|] eqn:X.
  - destruct (exec_char_some _ _ _ _ _ X) as (-> & Hl & Hs).
    cbn [concatAll append]. rewrite Ht, IH by lia. now rewrite Hs.
  - symmetry. now apply exec_char_none.
Qed.

Lemma replaceAll_char (c : ascii) (t s : string) :
  plainText t -> replaceAll (mkRegex [One (CChar c)] []) t s = substChar c t s.
Proof. intros Ht. unfold replaceAll. apply replaceAllFrom_char; [exact Ht | lia]. Qed.

Lemma stripPrefix_some (p s r : string) : stripPrefix p s = Some r -> s = p ++ r.
Proof.
  revert s; induction p as [|a p IH]; intros [|b s] H; simpl in H;
    try discriminate; try (injection H as <-; reflexivity).
  destruct (Ascii.eqb_spec a b) as [<-|]; [|discriminate].
  simpl. f_equal. now apply IH.
Qed.

Lemma stripPrefix_append (p r : string) : stripPrefix p (p ++ r) = Some r.
Proof. induction p as [|a p IH]; simpl; [reflexivity | now rewrite Ascii.eqb_refl]. Qed.

(** The loop of a starred item, one turn unfolded. *)
Lemma matchItems_star (lazy : bool) (k : cls) (r : list item) (s : string) :
  matchItems (Star lazy k :: r) s =
  let more :=
    match s with
    | String a s' =>
        if cmatch k a then growPiece a (matchItems (Star lazy k :: r) s') else None
    | EmptyString => None
    end in
  let stop := consPiece EmptyString (matchItems r s) in
  if lazy then match stop with Some m => Some m | None => more end
  else match more with Some m => Some m | None => stop end.
Proof. destruct s; reflexivity. Qed.

(** A match splits the subject into the pieces of the items and the rest. *)
Lemma matchItems_sound (its : list item) :
  forall s ps rest, matchItems its s = Some (ps, rest) ->
    s = concatAll ps ++ rest /\ Forall2 pieceOf its ps.
Proof.
  induction its as [|it its IH]; intros s ps rest H.
  - simpl in H. injection H as <- <-. split; [reflexivity | constructor].
  - destruct it as [l | k | lazy k].
    + simpl in H. destruct (stripPrefix l s) as [s'|] eqn:P; [|discriminate].
      destruct (matchItems its s') as [[ps' rest']|] eqn:M; [|discriminate].
      injection H as <- <-. destruct (IH _ _ _ M) as [E F].
      apply stripPrefix_some in P. subst s s'. split.
      * simpl. now rewrite append_assoc.
      * constructor; [reflexivity | exact F].
    + simpl in H. destruct s as [|a s']; [discriminate|].
      destruct (cmatch k a) eqn:C; [|discriminate].
      destruct (matchItems its s') as [[ps' rest']|] eqn:M; [|discriminate].
      injection H as <- <-. destruct (IH _ _ _ M) as [E F]. subst s'. split.
      * reflexivity.
      * constructor; [now exists a | exact F].
    + revert ps rest H. induction s as [|a s' IHs]; intros ps rest H;
        rewrite matchItems_star in H; cbv zeta in H.
      * assert (X : consPiece EmptyString (matchItems its EmptyString) = Some (ps, rest))
          by (destruct (consPiece EmptyString (matchItems its EmptyString)), lazy; congruence).
        destruct (matchItems its EmptyString) as [[ps' rest']|] eqn:M; [|discriminate].
        injection X as <- <-. destruct (IH _ _ _ M) as [E F].
        split; [exact E | constructor; [reflexivity | exact F]].
      * assert (X : consPiece EmptyString (matchItems its (String a s')) = Some (ps, rest)
                    \/ (cmatch k a = true /\
                        growPiece a (matchItems (Star lazy k :: its) s') = Some (ps, rest))).
        { destruct (consPiece EmptyString (matchItems its (String a s'))),
            (cmatch k a), (growPiece a (matchItems (Star lazy k :: its) s')), lazy;
            try discriminate; try (left; congruence); right; split; congruence. }
        destruct X as [X | [C X]].
        -- destruct (matchItems its (String a s')) as [[ps' rest']|] eqn:M; [|discriminate].
           injection X as <- <-. destruct (IH _ _ _ M) as [E F].
           split; [exact E | constructor; [reflexivity | exact F]].
        -- destruct (matchItems (Star lazy k :: its) s') as [[[|p ps'] rest']|] eqn:M;
             try discriminate.
           injection X as <- <-. destruct (IHs _ _ eq_refl) as [E F].
           inversion F as [|? ? ? ? Fp Fr]; subst. split.
           ++ reflexivity.
           ++ constructor; [|exact Fr]. simpl in *. now rewrite C, Fp.
Qed.

(** The leftmost match splits the subject in three. *)
Lemma exec_sound (its : list item) :
  forall s pre ps rest, exec its s = Some (pre, ps, rest) ->
    s = pre ++ concatAll ps ++ rest /\
    matchItems its (concatAll ps ++ rest) = Some (ps, rest).
Proof.
  induction s as [|a s IH]; intros pre ps rest H; simpl in H.
  - destruct (matchItems its EmptyString) as [[ps' rest']|] eqn:M; [|discriminate].
    injection H as <- <- <-. destruct (matchItems_sound _ _ _ _ M) as [E _].
    simpl. rewrite <- E. now split.
  - destruct (matchItems its (String a s)) as [[ps' rest']|] eqn:M.
    + injection H as <- <- <-. destruct (matchItems_sound _ _ _ _ M) as [E _].
      simpl. rewrite <- E. now split.
    + destruct (exec its s) as [[[pre' ps'] rest']|] eqn:X; [|discriminate].
      injection H as <- <- <-. destruct (IH _ _ _ eq_refl) as [E M'].
      split; [simpl; now f_equal | exact M'].
Qed.

(** Counting the matches never runs out of turns: every turn moves on by at
    least one character. *)
Lemma countMatchesFrom_enough (its : list item) :
  forall fuel1 fuel2 s,
    String.length s < fuel1 -> String.length s < fuel2 ->
    countMatchesFrom fuel1 its s = countMatchesFrom fuel2 its s.
Proof.
  induction fuel1 as [|f1 IH]; intros fuel2 s L1 L2; [lia|].
  destruct fuel2 as [|f2]; [lia|]. cbn [countMatchesFrom].
  destruct (exec its s) as [[[pre ps] post]|] eqn:X; [|reflexivity].
  destruct (exec_sound _ _ _ _ _ X) as [E _].
  assert (Ls : String.length s
               = String.length pre + (String.length (concatAll ps) + String.length post))
    by (rewrite E at 1; now rewrite !length_append).
  destruct (concatAll ps) as [|c m].
  - destruct post as [|a post']; [reflexivity|].
    f_equal. apply IH; simpl in Ls; lia.
  - f_equal. apply IH; simpl in Ls; lia.
Qed.

Lemma startsWith_append (l r : string) : startsWith (l ++ r) l = true.
Proof. induction l as [|a l IH]; simpl; [reflexivity | now rewrite Ascii.eqb_refl]. Qed.

Lemma startsWith_append_r (l a b : string) :
  startsWith a l = true -> startsWith (a ++ b) l = true.
Proof.
  revert a; induction l as [|x l IH]; intros a H; [reflexivity|].
  destruct a as [|y a]; simpl in H; [discriminate|]. simpl.
  apply andb_prop in H. destruct H as [-> H]. now apply IH.
Qed.

Lemma includes_unfold (hay needle : string) :
  includes hay needle =
  startsWith hay needle ||
  match hay with EmptyString => false | String _ r => includes r needle end.
Proof. destruct hay; reflexivity. Qed.

Lemma includes_append_intro_l (a b l : string) :
  includes b l = true -> includes (a ++ b) l = true.
Proof.
  intros H. induction a as [|c a IH]; simpl; [exact H|].
  rewrite IH. apply orb_true_r.
Qed.

Lemma includes_append_intro_r (a b l : string) :
  includes a l = true -> includes (a ++ b) l = true.
Proof.
  induction a as [|c a IH]; intros H; rewrite includes_unfold in H;
    apply orb_prop in H; rewrite includes_unfold.
  - destruct H as [H|H]; [|discriminate].
    now rewrite (startsWith_append_r l EmptyString b H).
  - destruct H as [H|H].
    + now rewrite (startsWith_append_r l (String c a) b H).
    + simpl. rewrite (IH H). apply orb_true_r.
Qed.

Lemma includes_here (l r : string) : includes (l ++ r) l = true.
Proof. rewrite includes_unfold, startsWith_append. reflexivity. Qed.

(** A literal of the pattern occurs in whatever the pattern matches. *)
Lemma pieces_include_literal (its : list item) (l : string) :
  In (Lit l) its ->
  forall ps, Forall2 pieceOf its ps -> forall rest, includes (concatAll ps ++ rest) l = true.
Proof.
  intros Hin ps F. induction F as [|it p its' ps' Hp F IH]; intros rest; [contradiction|].
  cbn [concatAll]. rewrite append_assoc. destruct Hin as [->|Hin].
  - simpl in Hp. subst p. apply includes_here.
  - apply includes_append_intro_l. now apply IH.
Qed.

Lemma exec_includes_literal (its : list item) (l s pre rest : string) (ps : list string) :
  In (Lit l) its -> exec its s = Some (pre, ps, rest) -> includes s l = true.
Proof.
  intros Hin H. destruct (exec_sound _ _ _ _ _ H) as [-> M].
  destruct (matchItems_sound _ _ _ _ M) as [_ F].
  apply includes_append_intro_l. now apply pieces_include_literal with (its := its).
Qed.

(** Without one of its literals the pattern matches nowhere, and [replace]
    returns its subject. *)
Lemma replace_without_literal (re : regex) (l t s : string) :
  In (Lit l) (items re) -> includes s l = false -> replace re t s = s.
Proof.
  intros Hin Hno. unfold replace.
  destruct (exec (items re) s) as [[[pre ps] rest]|] eqn:X; [|reflexivity].
  rewrite (exec_includes_literal _ _ _ _ _ _ Hin X) in Hno. discriminate.
Qed.

End TextFacts.

(** ** The sanitizer *)

Module SanitizerFacts.

Import Js Reference TextFacts ResumeGenerator.

Lemma passes_append (a b : string) : passes (a ++ b) = passes a ++ passes b.
Proof. unfold passes. now rewrite !substChar_append. Qed.

Lemma passes_char (c : ascii) : passes (String c EmptyString) = escapeChar c.
Proof. destruct c as [[] [] [] [] [] [] [] []]; reflexivity. Qed.

Lemma passes_escapeAll (s : string) : passes s = escapeAll s.
Proof.
  induction s as [|c s IH]; [reflexivity|].
  change (String c s) with (String c EmptyString ++ s).
  now rewrite passes_append, passes_char, IH.
Qed.

Lemma plain_replacement (t : string) :
  In t ["\&"; "\%"; "\$"; "\#"; "\^{}"; "\~{}"; "\_"; "\{"; "\}"] -> plainText t.
Proof.
  intros H m b a caps. simpl in H.
  repeat (destruct H as [<- | H]; [reflexivity|]). contradiction.
Qed.

(** The sanitizer is a character-by-character escape. *)
Lemma sanitize_escapeAll (s : string) : sanitize s = escapeAll s.
Proof.
  unfold sanitize, sanitizeLatex. destruct s as [|c s]; [reflexivity|].
  cbn [truthy isString String.eqb negb orb]. unfold charRegex.
  rewrite !replaceAll_char by (apply plain_replacement; simpl; tauto).
  apply passes_escapeAll.
Qed.

(** C8, at the input ["^"]: the caret does not come out as its escape form
    [\^{}]; the braces of that form are escaped by the two last passes and the
    result is [\^\{\}]. *)
Theorem sanitizeLatex_caret_escaped_twice :
  sanitizeLatex (VString "^") = "\^\{\}" /\ sanitizeLatex (VString "^") <> "\^{}".
Proof. split; [reflexivity | intros H; vm_compute in H; discriminate H]. Qed.

(** C10: for every input that is null, undefined or anything else than a
    string, [sanitizeLatex] returns the empty string. *)
Theorem sanitizeLatex_not_a_string (v : value) :
  isString v = false -> sanitizeLatex v = EmptyString.
Proof.
  intros H. unfold sanitizeLatex. rewrite H. cbn [negb]. now rewrite orb_true_r.
Qed.

Lemma sanitizeLatex_not_a_string_witness :
  isString VNull = false /\ sanitizeLatex VNull = EmptyString.
Proof. split; [reflexivity | apply (sanitizeLatex_not_a_string VNull); reflexivity]. Defined.

End SanitizerFacts.

(** ** Experience selection *)

Module ExperienceFacts.

Import Js Eff KnowledgeBase ResumeGenerator Reference.

Section SortFacts.
Context {A : Type} (score : A -> nat).

Lemma In_insertByScore (x y : A) (l : list A) :
  In y (insertByScore score x l) <-> y = x \/ In y l.
Proof.
  induction l as [|z l IH]; simpl; [intuition congruence|].
  destruct (score x <? score z); simpl; rewrite ?IH; intuition congruence.
Qed.

Lemma In_sortByScore (y : A) (l : list A) :
  In y (sortByScore score l) <-> In y l.
Proof.
  induction l as [|z l IH]; simpl; [tauto|].
  rewrite In_insertByScore, IH. intuition congruence.
Qed.

Lemma length_insertByScore (x : A) (l : list A) :
  List.length (insertByScore score x l) = S (List.length l).
Proof.
  induction l as [|z l IH]; simpl; [reflexivity|].
  destruct (score x <? score z); simpl; [now rewrite IH | reflexivity].
Qed.

Lemma length_sortByScore (l : list A) :
  List.length (sortByScore score l) = List.length l.
Proof.
  induction l as [|z l IH]; simpl; [reflexivity|].
  now rewrite length_insertByScore, IH.
Qed.
End SortFacts.

Lemma In_firstn_In {A : Type} (n : nat) (x : A) (l : list A) :
  In x (firstn n l) -> In x l.
Proof.
  revert l; induction n as [|n IH]; intros [|y l]; simpl; try tauto.
  intros [H|H]; [now left | right; now apply IH].
Qed.

Lemma seq_offset_from (d n start : nat) :
  map (fun k => d + k) (seq start n) = seq (d + start) n.
Proof.
  revert start. induction n as [|n IH]; intros start; simpl; [reflexivity|].
  f_equal. rewrite IH. f_equal. lia.
Qed.

Lemma seq_offset (d n : nat) : map (fun k => d + k) (seq 0 n) = seq d n.
Proof. rewrite seq_offset_from. f_equal. lia. Qed.

Lemma achievementOrFiller_padded (achs : list string) (b d : nat) :
  d <= b ->
  achievementOrFiller achs (Z.of_nat b - Z.of_nat d)%Z = padded achs (b - d).
Proof.
  intros H. unfold achievementOrFiller, padded.
  destruct (Z.ltb_spec (Z.of_nat b - Z.of_nat d) 0) as [L|L]; [lia|].
  replace (Z.to_nat (Z.of_nat b - Z.of_nat d)) with (b - d) by lia.
  destruct (nth_error achs (b - d)) as [[|c a]|]; reflexivity.
Qed.

(** The loop, when the position has an achievements list: it runs until
    there are three bullets, whatever the length of that list. *)
Lemma fillBullets_some (pos : Position) (achs : list string) :
  achievements pos = Some achs ->
  forall turns bullets,
    List.length (description pos) <= List.length bullets ->
    3 <= turns + List.length bullets ->
    fillBullets turns pos bullets =
    (bullets ++
     map (fun j => ("Achieved " ++ padded achs (j - List.length (description pos)))%string)
         (seq (List.length bullets) (3 - List.length bullets)))%list.
Proof.
  intros Ha. induction turns as [|n IH]; intros bullets Hd Hn.
  - cbn [fillBullets]. replace (3 - List.length bullets) with 0 by lia.
    cbn [seq map]. now rewrite app_nil_r.
  - cbn [fillBullets]. destruct (Nat.ltb_spec (List.length bullets) 3) as [L|L].
    + rewrite Ha, IH by (rewrite ?length_app; cbn [List.length]; lia).
      rewrite achievementOrFiller_padded by exact Hd.
      rewrite length_app. cbn [List.length].
      replace (3 - List.length bullets) with (S (3 - (List.length bullets + 1))) by lia.
      cbn [seq map]. rewrite <- app_assoc. cbn [app].
      now replace (S (List.length bullets)) with (List.length bullets + 1) by lia.
    + replace (3 - List.length bullets) with 0 by lia.
      cbn [seq map]. now rewrite app_nil_r.
Qed.

Lemma fillBullets_none (pos : Position) :
  achievements pos = None ->
  forall turns bullets, fillBullets turns pos bullets = bullets.
Proof.
  intros Ha [|n] bullets; simpl; [reflexivity|].
  rewrite Ha. now destruct (List.length bullets <? 3).
Qed.

Lemma fillBullets_full (pos : Position) (turns : nat) (bullets : list string) :
  3 <= List.length bullets -> fillBullets turns pos bullets = bullets.
Proof.
  intros H. destruct turns as [|n]; simpl; [reflexivity|].
  destruct (Nat.ltb_spec (List.length bullets) 3); [lia | reflexivity].
Qed.

(** The bullets [threeBullets] gives a position. *)
Lemma threeBullets_description (sp : ScoredPosition) :
  let pos := scored sp in
  description (scored (threeBullets sp)) =
  if 3 <=? List.length (description pos) then firstn 3 (description pos)
  else match achievements pos with
       | None => description pos
       | Some achs =>
           (description pos ++
            map (fun k => ("Achieved " ++ padded achs k)%string)
                (seq 0 (3 - List.length (description pos))))%list
       end.
Proof.
  intros pos. unfold threeBullets. fold pos. cbn [scored description withDescription].
  destruct (Nat.leb_spec 3 (List.length (description pos))) as [L|L].
  - rewrite fillBullets_full by (rewrite length_firstn; lia).
    now rewrite firstn_firstn.
  - rewrite (firstn_all2 (n := 3) (description pos)) by lia.
    destruct (achievements pos) as [achs|] eqn:Ha.
    + rewrite (fillBullets_some pos achs Ha) by lia.
      rewrite firstn_all2 by (rewrite length_app, length_map, length_seq; lia).
      f_equal. rewrite <- (seq_offset (List.length (description pos))), map_map.
      apply map_ext. intros k.
      now replace (List.length (description pos) + k - List.length (description pos))
        with k by lia.
    + rewrite fillBullets_none by exact Ha. apply firstn_all2. lia.
Qed.

(** Every selected position is [threeBullets] of a position of the
    knowledge base. *)
Lemma selected_origin (positions : list Position) (jd : value)
  (out : list ScoredPosition) (q : ScoredPosition) :
  selectRelevantExperience positions jd = Ok out -> In q out ->
  exists p score, In p positions /\ q = threeBullets (mkScoredPosition p score).
Proof.
  unfold selectRelevantExperience. destruct (extractJobKeywords jd) as [kws|e];
    unfold bind; intros H Hq; [|discriminate].
  remember (sortByScore relevanceScore _) as sorted eqn:Hsorted in H.
  remember (firstn 4 sorted) as top eqn:Htop in H.
  injection H as <-. apply in_map_iff in Hq. destruct Hq as (sp & <- & Hsp).
  subst top sorted.
  apply In_firstn_In, In_sortByScore, in_map_iff in Hsp.
  destruct Hsp as (p & <- & Hp). now exists p, (calculateRelevanceScore p kws).
Qed.

Lemma Forall2_map_self {A B : Type} (R : A -> B -> Prop) (f : A -> B) (l : list A) :
  (forall x, In x l -> R x (f x)) -> Forall2 R l (map f l).
Proof.
  induction l as [|x l IH]; intros H; [constructor|].
  cbn [map]. constructor; [apply H; now left|]. apply IH. intros y Hy. apply H. now right.
Qed.

(** C2: for a job description that is a string, experience selection
    returns one position for each of the positions it selects, the 4 of
    highest score or all of them when there are fewer, in that order; each
    returned position is the result of the bullet step on the selected one,
    and has exactly 3 bullets when the descriptions and achievements of that
    position together count at least 3 strings. *)
Theorem selectRelevantExperience_three_bullets (positions : list Position) (s : string) :
  exists kws out,
    extractJobKeywords (VString s) = Ok kws /\
    selectRelevantExperience positions (VString s) = Ok out /\
    List.length out = Nat.min 4 (List.length positions) /\
    Forall2
      (fun sp q =>
         In (scored sp) positions /\
         relevanceScore sp = calculateRelevanceScore (scored sp) kws /\
         q = threeBullets sp /\
         (3 <= List.length (description (scored sp))
               + List.length (achievementsOf (scored sp)) ->
          List.length (description (scored q)) = 3))
      (firstn 4 (sortByScore relevanceScore
                   (map (fun pos => mkScoredPosition pos (calculateRelevanceScore pos kws))
                        positions)))
      out.
Proof.
  eexists _, _. split; [reflexivity|]. split; [reflexivity|].
  set (kws := filter _ techKeywords). split.
  - now rewrite length_map, length_firstn, length_sortByScore, length_map.
  - apply Forall2_map_self. intros sp Hsp.
    apply In_firstn_In, In_sortByScore, in_map_iff in Hsp.
    destruct Hsp as (p & <- & Hp). cbn [scored relevanceScore].
    split; [exact Hp|]. split; [reflexivity|]. split; [reflexivity|].
    intros H3. rewrite threeBullets_description. cbn [scored].
    destruct (Nat.leb_spec 3 (List.length (description p))) as [L|L].
    + rewrite length_firstn. lia.
    + unfold achievementsOf in H3. destruct (achievements p) as [achs|].
      * rewrite length_app, length_map, length_seq. lia.
      * simpl in H3. lia.
Qed.

Lemma selectRelevantExperience_three_bullets_witness :
  exists q,
    selectRelevantExperience [tutor] (VString "python tutoring") = Ok [q] /\
    List.length (description (scored q)) = 3.
Proof.
  destruct (selectRelevantExperience_three_bullets [tutor] "python tutoring")
    as (kws & out & K & Hsel & L & F).
  vm_compute in K. injection K as <-.
  set (selected := firstn 4 _) in F. vm_compute in selected. subst selected.
  destruct out as [|q [|q' out]]; try discriminate L.
  inversion F as [|sp q0 l l' (Hin & Hs & Hq & H3) F' E1 E2].
  exists q. split; [exact Hsel|]. apply H3. simpl. lia.
Defined.

(** C3, at the position [helpDesk], which has one description and an
    achievements list that is empty: the selected position does not keep
    fewer than 3 bullets as the achievements are exhausted; the loop goes on
    and the position comes back with 3 bullets, two of them the fixed text
    [Achieved significant performance improvements], which is drawn neither
    from its descriptions nor from its achievements. *)
Theorem backfill_invents_filler_bullets :
  exists q,
    selectRelevantExperience [helpDesk] (VString "help desk") = Ok [q] /\
    description helpDesk = ["Ran the help desk"] /\
    achievements helpDesk = Some [] /\
    backfillAsSpecified helpDesk = ["Ran the help desk"] /\
    description (scored q) =
    ["Ran the help desk"; "Achieved significant performance improvements";
     "Achieved significant performance improvements"].
Proof. eexists. repeat split. Qed.

End ExperienceFacts.

(** ** Project bullets *)

Module ProjectFacts.

Import Js Eff KnowledgeBase ResumeGenerator Reference TextFacts ExperienceFacts.

Lemma splitOn_ext (f g : ascii -> bool) (s : string) :
  (forall c, f c = g c) -> splitOn f s = splitOn g s.
Proof.
  intros E. induction s as [|c s IH]; simpl; [reflexivity|]. now rewrite E, IH.
Qed.

Lemma sentencesOf_fragments (text : string) :
  sentencesOf text = filter (fun f => 20 <? String.length (trim f)) (fragments text).
Proof.
  unfold sentencesOf, fragments. f_equal. apply splitOn_ext. intros c.
  unfold isSentenceEnd. simpl. now rewrite orb_false_r.
Qed.

(** [trim] leaves no white space at the end. *)
Lemma trimEnd_no_trailing_space (u x y : string) :
  trimEnd u = x ++ y -> allChars isSpace y = true -> y = EmptyString.
Proof.
  revert x y. induction u as [|c r IH]; intros x y E Hy; simpl in E.
  - destruct x; [exact (eq_sym E) | discriminate].
  - destruct (trimEnd r) as [|d t] eqn:T.
    + destruct (isSpace c) eqn:Sc.
      * destruct x; [exact (eq_sym E) | discriminate].
      * destruct x as [|x0 x]; simpl in E.
        -- subst y. simpl in Hy. rewrite Sc in Hy. discriminate.
        -- injection E as _ E. destruct x; [exact (eq_sym E) | discriminate].
    + destruct x as [|x0 x]; simpl in E.
      * subst y. simpl in Hy. apply andb_prop in Hy. destruct Hy as [_ Hy].
        specialize (IH EmptyString (String d t) eq_refl Hy). discriminate.
      * injection E as _ E. now apply (IH x y).
Qed.

Lemma getSubstitution_empty (m b a : string) (caps : list string) :
  getSubstitution m b a caps EmptyString = EmptyString.
Proof. reflexivity. Qed.

(** A fragment that still has text once trimmed, and not asterisks only,
    keeps some text when it is cleaned up. *)
Lemma cleanBullet_nonempty (f : string) :
  0 < String.length (trim f) -> onlyStars (trim f) = false ->
  cleanBullet f <> EmptyString.
Proof.
  intros Hlen Hstars. unfold cleanBullet, replaceAtStart.
  destruct (matchItems (items leadingStars) (trim f)) as [[ps post]|] eqn:M.
  - rewrite getSubstitution_empty. simpl. intros ->.
    destruct (matchItems_sound _ _ _ _ M) as [E F].
    unfold leadingStars in F. cbn [items] in F.
    inversion F as [|i1 p1 l1 l1' F1 G1]; subst; clear F.
    inversion G1 as [|i2 p2 l2 l2' F2 G2]; subst; clear G1.
    inversion G2 as [|i3 p3 l3 l3' F3 G3]; subst; clear G2.
    inversion G3; subst; clear G3.
    cbn [concatAll] in E. rewrite !append_empty_r in E.
    destruct F1 as (a & -> & Ha). cbn [pieceOf] in F2, F3.
    assert (p3 = EmptyString) as ->.
    { apply (trimEnd_no_trailing_space (trimStart f) (String a EmptyString ++ p2) p3).
      - unfold trim in E. now rewrite append_assoc.
      - exact F3. }
    rewrite append_empty_r in E. rewrite E in Hstars.
    unfold onlyStars in Hstars.
    change (allChars (fun c => Ascii.eqb c "*"%char) p2 = true) in F2.
    change (Ascii.eqb a "*"%char = true) in Ha.
    cbn [append allChars] in Hstars. rewrite Ha, F2 in Hstars. discriminate.
  - intros E. rewrite E in Hlen. simpl in Hlen. lia.
Qed.

Lemma filter_all {A : Type} (p : A -> bool) (l : list A) :
  (forall x, In x l -> p x = true) -> filter p l = l.
Proof.
  induction l as [|x l IH]; intros H; simpl; [reflexivity|].
  rewrite (H x (or_introl eq_refl)). f_equal. apply IH. intros y Hy. apply H. now right.
Qed.

Lemma firstn_two {A : Type} (l : list A) :
  2 <= List.length l -> exists a b, firstn 2 l = [a; b] /\ In a l /\ In b l.
Proof.
  destruct l as [|a [|b l]]; simpl; intros H; try lia.
  exists a, b. auto.
Qed.

(** C4, as amended: when the summary, split at [.] and [!], has at least 2
    fragments longer than 20 characters once trimmed, and none of these
    fragments holds asterisks only, [generateProjectBulletPoints] returns
    exactly 2 bullet points. *)
Theorem generateProjectBulletPoints_two (project : Project) (text : string) :
  effectiveSummary project = Some text ->
  2 <= List.length (filter (fun f => 20 <? String.length (trim f)) (fragments text)) ->
  (forall f, In f (fragments text) -> 20 < String.length (trim f) ->
             onlyStars (trim f) = false) ->
  exists b1 b2, generateProjectBulletPoints project = Ok [b1; b2].
Proof.
  intros Hsum Hlen Hstars. unfold generateProjectBulletPoints. rewrite Hsum.
  rewrite <- sentencesOf_fragments in Hlen.
  set (sentences := sentencesOf text) in *.
  set (technical := filter _ sentences).
  assert (Hchosen : exists a b,
             (if 2 <=? List.length technical then firstn 2 technical
              else firstn 2 sentences) = [a; b] /\ In a sentences /\ In b sentences).
  { destruct (Nat.leb_spec 2 (List.length technical)) as [L|L].
    - destruct (firstn_two technical L) as (a & b & E & Ia & Ib).
      exists a, b. split; [exact E|].
      split; [apply (filter_In _ a sentences) in Ia | apply (filter_In _ b sentences) in Ib];
        tauto.
    - apply firstn_two. exact Hlen. }
  destruct Hchosen as (a & b & -> & Ia & Ib).
  assert (Hkeep : forall f, In f sentences ->
                            (0 <? String.length (cleanBullet f)) = true).
  { intros f Hf. unfold sentences in Hf. rewrite sentencesOf_fragments in Hf.
    apply filter_In in Hf. destruct Hf as [Hf Hl]. apply Nat.ltb_lt in Hl.
    apply Nat.ltb_lt.
    pose proof (cleanBullet_nonempty f ltac:(lia) (Hstars f Hf Hl)) as Hne.
    destruct (cleanBullet f); [congruence | simpl; lia]. }
  exists (cleanBullet a), (cleanBullet b).
  cbn [map]. rewrite filter_all; [reflexivity|].
  intros x [<-|[<-|[]]]; now apply Hkeep.
Qed.

Lemma generateProjectBulletPoints_two_witness :
  exists b1 b2, generateProjectBulletPoints ordersProject = Ok [b1; b2].
Proof.
  apply (generateProjectBulletPoints_two ordersProject
           "Designed a REST API for orders. Cut response times by 40% overall.").
  - reflexivity.
  - vm_compute. lia.
  - intros f Hf Hl. vm_compute in Hf.
    destruct Hf as [<-|[<-|[<-|[]]]]; try reflexivity. vm_compute in Hl. lia.
Defined.

(** C4, as stated, fails on [chatProject]: its summary has two fragments of
    20 characters, none shorter, and no bullet is returned. *)
Lemma generateProjectBulletPoints_counterexample :
  effectiveSummary chatProject = Some "Built a chat service. Added the login page." /\
  List.length
    (filter (fun f => 20 <=? String.length (trim f))
            (fragments "Built a chat service. Added the login page.")) = 2 /\
  generateProjectBulletPoints chatProject = Ok [].
Proof. repeat split. Qed.

(** Fragments of asterisks are long enough to be kept and are then cleaned
    away. *)
Lemma generateProjectBulletPoints_stars :
  List.length (sentencesOf "*********************.*********************") = 2 /\
  generateProjectBulletPoints starProject = Ok [].
Proof. split; reflexivity. Qed.

End ProjectFacts.

(** ** Generation and its handlers *)

Module GenerationFacts.

Import Js Eff KnowledgeBase ResumeGenerator AIResumeMcpServer Reference TextFacts.

(** The [try] block performs the five loads and nothing else, and when it
    completes it yields the [success: true] object. *)
Lemma generateResumeBody_shape (w : World) (jd : value) (title : string) :
  exists r, generateResumeBody w jd title = (fiveLoads, r) /\
    match r with
    | Ok o => exists latex meta, o = Success latex meta
    | Throw _ => True
    end.
Proof.
  unfold generateResumeBody, loadAll, ioBind, ioLift, ioRet, bind.
  destruct (earliest (rejections w)) as [[time e]|]; [now eexists|].
  destruct (profileSummary w) as [profile|e]; [|now eexists].
  destruct (workExperience w) as [workExp|e]; [|now eexists].
  destruct (skillsFile w) as [skills|e]; [|now eexists].
  destruct (allProjects w) as [projects|e]; [|now eexists].
  destruct (latexTemplate w) as [template|e]; [|now eexists].
  destruct (generateTailoredSummary profile jd title) as [summaryText|e]; [|now eexists].
  destruct (selectRelevantExperience workExp jd) as [experience|e]; [|now eexists].
  destruct (selectRelevantSkills skills jd) as [relevant|e]; [|now eexists].
  destruct (selectRelevantProjects projects jd) as [chosen|e]; [|now eexists].
  eexists. split; [reflexivity|]. now eexists _, _.
Qed.

Lemma generateResume_settles (w : World) (jd : value) (title : option string)
  (custom : value) :
  exists outcome,
    generateResume w jd title custom = (fiveLoads, Ok outcome) /\
    ((exists latex meta, outcome = Success latex meta) \/
     (exists e, outcome = Failure (message e) (stackOf e) /\
                snd (generateResumeBody w jd
                       (match title with Some t => t | None => "Software Engineer" end))
                = Throw e)).
Proof.
  unfold generateResume, tryCatch.
  destruct (generateResumeBody_shape w jd
              (match title with Some t => t | None => "Software Engineer" end))
    as (r & -> & Hr).
  destruct r as [o|e].
  - exists o. split; [reflexivity | now left].
  - eexists. split; [reflexivity|]. right. now exists e.
Qed.

(** C9: [generateResume] never rejects.  For every world and every
    arguments it resolves, after the five loads: to the object with
    [success: true], the document and the metadata when the [try] block
    completes, and to the object with [success: false], the message and the
    stack of the error when the [try] block throws that error.  So a load
    that rejects gives the [success: false] object with the message of the
    rejection that comes first, and a job description that is not a string
    gives the [success: false] object. *)
Theorem generateResume_always_resolves (w : World) (jd : value)
  (title : option string) (custom : value) :
  exists outcome,
    generateResume w jd title custom = (fiveLoads, Ok outcome) /\
    match snd (generateResumeBody w jd
                 (match title with Some t => t | None => "Software Engineer" end)) with
    | Ok o => outcome = o /\ exists latex meta, o = Success latex meta
    | Throw e => outcome = Failure (message e) (stackOf e)
    end /\
    (forall time e, earliest (rejections w) = Some (time, e) ->
       outcome = Failure (message e) (stackOf e)) /\
    (isString jd = false -> exists e, outcome = Failure (message e) (stackOf e)).
Proof.
  unfold generateResume, tryCatch.
  set (jobTitle := match title with Some t => t | None => "Software Engineer" end).
  destruct (generateResumeBody_shape w jd jobTitle) as (r & E & Hr).
  assert (Hloads : forall time e, earliest (rejections w) = Some (time, e) -> r = Throw e).
  { intros time e R. revert E.
    unfold generateResumeBody, loadAll, ioBind. rewrite R. cbv beta iota.
    intros E. now injection E as <-. }
  assert (Hjd : isString jd = false -> exists e, r = Throw e).
  { intros N. revert E.
    unfold generateResumeBody, loadAll, ioBind, ioLift, bind.
    destruct (earliest (rejections w)) as [[time e]|];
      [cbv beta iota; intros E; eexists; now injection E as <-|].
    destruct (profileSummary w) as [profile|e];
      [|cbv beta iota; intros E; eexists; now injection E as <-].
    destruct (workExperience w) as [workExp|e];
      [|cbv beta iota; intros E; eexists; now injection E as <-].
    destruct (skillsFile w) as [skills|e];
      [|cbv beta iota; intros E; eexists; now injection E as <-].
    destruct (allProjects w) as [projects|e];
      [|cbv beta iota; intros E; eexists; now injection E as <-].
    destruct (latexTemplate w) as [template|e];
      [|cbv beta iota; intros E; eexists; now injection E as <-].
    destruct jd as [| |b|n|s0|]; try discriminate N;
      cbn [generateTailoredSummary extractJobKeywords bind]; cbv beta iota;
      intros E; eexists; now injection E as <-. }
  rewrite E. cbn [snd]. destruct r as [o|e].
  - exists o. split; [reflexivity|]. split; [split; [reflexivity | exact Hr]|]. split.
    + intros time e R. discriminate (Hloads time e R).
    + intros N. destruct (Hjd N) as [e He]. discriminate He.
  - eexists. split; [reflexivity|]. split; [reflexivity|]. split.
    + intros time e' R. pose proof (Hloads time e' R) as He. now injection He as <-.
    + intros _. now exists e.
Qed.

Lemma generateResume_always_resolves_witness :
  exists outcome,
    generateResume offlineWorld VNull None VObject = (fiveLoads, Ok outcome) /\
    outcome = Failure "ENOENT: no such file or directory"
                      "Error: ENOENT: no such file or directory".
Proof.
  destruct (generateResume_always_resolves offlineWorld VNull None VObject)
    as (outcome & E & _ & Hloads & _).
  exists outcome. split; [exact E|].
  apply (Hloads 1 (PlainError "ENOENT: no such file or directory")). reflexivity.
Defined.

Lemma trimStart_blank (s : string) :
  allChars isSpace s = true -> trimStart s = EmptyString.
Proof.
  induction s as [|c s IH]; simpl; [reflexivity|].
  intros H. apply andb_prop in H. destruct H as [-> H]. now apply IH.
Qed.

(** The sibling handler validates: an empty or all-white-space job
    description is rejected with the validation error and nothing is loaded. *)
Lemma handleGenerateResume_rejects_blank (w : World) (args : Args) (s : string) :
  jobDescription args = VString s -> allChars isSpace s = true ->
  handleGenerateResume w args = ([], Throw validationError).
Proof.
  intros Hjd Hs. unfold handleGenerateResume, requireJobDescription.
  rewrite Hjd. unfold trim. rewrite (trimStart_blank s Hs).
  destruct s; reflexivity.
Qed.

(** C5, at the all-white-space job description ["   "]: the
    generate-and-convert handler does not validate; it starts with the five
    loads of the knowledge base and does not end with the validation error. *)
Theorem handleGenerateAndConvertResume_loads_unvalidated (w : World) :
  let r := handleGenerateAndConvertResume w (mkArgs (VString "   ") None None None) in
  firstn 5 (fst r) = fiveLoads /\ snd r <> Throw validationError.
Proof.
  cbv zeta. unfold handleGenerateAndConvertResume.
  cbn [jobDescription jobTitle orDefault fileName customizations].
  destruct (generateResume_settles w (VString "   ") (Some "Software Engineer") VObject)
    as (o & -> & _).
  unfold ioBind. destruct o as [latex meta | err stack].
  - unfold perform.
    destruct (convertLatexToPdf w latex "tailored_resume") as [err|[pdf tex]];
      simpl; (split; [reflexivity | discriminate]).
  - simpl. split; [reflexivity | discriminate].
Qed.

(** In [resumeWorld] the same call runs to the end: a resume is generated
    from the blank job description and converted. *)
Lemma handleGenerateAndConvertResume_blank_example :
  exists latex meta,
    handleGenerateAndConvertResume resumeWorld (mkArgs (VString "   ") None None None)
    = ((fiveLoads ++ [ConvertLatexToPdf latex "tailored_resume"])%list,
       Ok (GeneratedAndConverted meta "output/resume.pdf" "output/resume.tex")).
Proof. eexists _, _. vm_compute. reflexivity. Qed.

End GenerationFacts.

(** ** Relevance scores *)

Module ScoringFacts.

Import Js Eff KnowledgeBase ResumeGenerator Reference TextFacts.

Lemma startsWith_length (s k : string) :
  startsWith s k = true -> String.length k <= String.length s.
Proof.
  revert s; induction k as [|a k IH]; intros [|b s] H; simpl in *;
    try discriminate; try lia.
  apply andb_prop in H. destruct H as [_ H]. apply IH in H. lia.
Qed.

(** When [k] begins [u ++ v], one of [u] and [k] begins the other. *)
Lemma startsWith_append_cases (u v k : string) :
  startsWith (u ++ v) k = true -> startsWith k u = true \/ startsWith u k = true.
Proof.
  revert u; induction k as [|a k IH]; intros u H; [now right|].
  destruct u as [|b u]; [now left|]. simpl in H.
  apply andb_prop in H. destruct H as [E H].
  destruct (IH u H) as [K|K]; [left | right]; simpl; rewrite ?E, ?K;
    [rewrite Ascii.eqb_sym, E|]; reflexivity.
Qed.

(** For a keyword without dot the pattern is the keyword itself. *)
Lemma plain_pieces (k : string) (ps : list string) :
  noDot k = true -> Forall2 pieceOf (keywordRegex k) ps -> concatAll ps = k.
Proof.
  revert ps; induction k as [|c k IH]; intros ps D F; simpl in F.
  - inversion F. reflexivity.
  - cbn [noDot allChars] in D. apply andb_prop in D. destruct D as [Dc Dk].
    apply negb_true_iff in Dc. rewrite Dc in F.
    inversion F as [|i p l l' Hp F']; subst. destruct Hp as (a & -> & Ha).
    simpl in Ha. apply Ascii.eqb_eq in Ha. subst a. simpl. f_equal. now apply IH.
Qed.

Lemma plain_no_match (k s : string) :
  noDot k = true -> matchItems (keywordRegex k) s = None -> startsWith s k = false.
Proof.
  revert s; induction k as [|c k IH]; intros s D H; [discriminate|].
  cbn [noDot allChars] in D. apply andb_prop in D. destruct D as [Dc Dk].
  apply negb_true_iff in Dc. simpl in H. rewrite Dc in H.
  destruct s as [|a s]; [reflexivity|]. simpl in *.
  rewrite (Ascii.eqb_sym c a). destruct (Ascii.eqb a c); [|reflexivity].
  destruct (matchItems (keywordRegex k) s) as [[ps rest]|] eqn:M; [discriminate|].
  simpl. now apply IH.
Qed.

Lemma plain_exec_none (k s : string) :
  noDot k = true -> exec (keywordRegex k) s = None -> countOccurrences s k = 0.
Proof.
  intros D. induction s as [|a s IH]; intros H; simpl in H.
  - destruct (matchItems (keywordRegex k) EmptyString) as [[ps rest]|] eqn:M;
      [discriminate|]. simpl. now rewrite (plain_no_match _ _ D M).
  - destruct (matchItems (keywordRegex k) (String a s)) as [[ps rest]|] eqn:M;
      [discriminate|].
    destruct (exec (keywordRegex k) s) as [[[pre ps] rest]|] eqn:X; [discriminate|].
    cbn [countOccurrences]. now rewrite (plain_no_match _ _ D M), IH.
Qed.

Lemma plain_exec_some (k s pre post : string) (ps : list string) :
  noDot k = true -> exec (keywordRegex k) s = Some (pre, ps, post) ->
  s = pre ++ k ++ post /\ concatAll ps = k /\ beginsIn pre (k ++ post) k = false.
Proof.
  intros D. revert pre. induction s as [|a s IH]; intros pre H; simpl in H.
  - destruct (matchItems (keywordRegex k) EmptyString) as [[ps' rest]|] eqn:M;
      [|discriminate].
    injection H as <- <- <-. destruct (matchItems_sound _ _ _ _ M) as [E F].
    rewrite (plain_pieces _ _ D F) in *. now repeat split.
  - destruct (matchItems (keywordRegex k) (String a s)) as [[ps' rest]|] eqn:M.
    + injection H as <- <- <-. destruct (matchItems_sound _ _ _ _ M) as [E F].
      rewrite (plain_pieces _ _ D F) in *. now repeat split.
    + destruct (exec (keywordRegex k) s) as [[[pre' ps'] rest]|] eqn:X; [|discriminate].
      injection H as <- <- <-. destruct (IH _ eq_refl) as (E & C & B).
      split; [simpl; now f_equal|]. split; [exact C|].
      cbn [beginsIn]. rewrite B, orb_false_r. cbn [append]. rewrite <- E.
      now apply plain_no_match.
Qed.

Lemma countOccurrences_skip (pre rest k : string) :
  beginsIn pre rest k = false ->
  countOccurrences (pre ++ rest) k = countOccurrences rest k.
Proof.
  induction pre as [|c p IH]; intros B; [reflexivity|].
  cbn [beginsIn] in B. apply orb_false_elim in B. destruct B as [B1 B2].
  cbn [append countOccurrences]. cbn [append] in B1. rewrite B1. now rewrite IH.
Qed.

Lemma noBorder_beginsIn (k r post : string) :
  String.length r < String.length k -> noBorderFrom k r = true ->
  beginsIn r post k = false.
Proof.
  induction r as [|c r IH]; intros L N; [reflexivity|].
  cbn [noBorderFrom] in N. apply andb_prop in N. destruct N as [N1 N2].
  apply negb_true_iff in N1. cbn [beginsIn].
  rewrite IH by (simpl in L; try lia; exact N2). rewrite orb_false_r.
  destruct (startsWith (String c r ++ post) k) eqn:S; [|reflexivity].
  destruct (startsWith_append_cases _ _ _ S) as [K|K]; [congruence|].
  apply startsWith_length in K. lia.
Qed.

Lemma countOccurrences_after (k post : string) :
  unbordered k = true -> countOccurrences (k ++ post) k = S (countOccurrences post k).
Proof.
  destruct k as [|c r]; [discriminate|]. intros U. cbn [unbordered] in U.
  cbn [append countOccurrences].
  change (String c (r ++ post)) with (String c r ++ post).
  rewrite startsWith_append. simpl Nat.add. f_equal.
  apply countOccurrences_skip. apply noBorder_beginsIn; [simpl; lia | exact U].
Qed.

(** For a keyword without dot whose occurrences cannot overlap, the matches
    of the pattern are the occurrences of the keyword. *)
Lemma countMatches_plain (k : string) :
  noDot k = true -> unbordered k = true ->
  forall s, countMatches (keywordRegex k) s = countOccurrences s k.
Proof.
  intros D U. unfold countMatches.
  assert (G : forall fuel s, String.length s < fuel ->
                countMatchesFrom fuel (keywordRegex k) s = countOccurrences s k).
  { induction fuel as [|f IH]; intros s L; [lia|]. cbn [countMatchesFrom].
    destruct (exec (keywordRegex k) s) as [[[pre ps] post]|] eqn:X.
    - destruct (plain_exec_some _ _ _ _ _ D X) as (-> & -> & B).
      rewrite countOccurrences_skip by exact B.
      rewrite countOccurrences_after by exact U.
      destruct k as [|c r]; [discriminate|]. f_equal. apply IH.
      rewrite !length_append in L. simpl in L. lia.
    - symmetry. now apply plain_exec_none. }
  intros s. apply G. lia.
Qed.

Lemma fold_left_add (f : string -> nat) (l : list string) (acc : nat) :
  fold_left (fun score k => score + f k) l acc = acc + list_sum (map f l).
Proof.
  revert acc; induction l as [|x l IH]; intros acc; simpl; [lia|].
  rewrite IH. lia.
Qed.

Lemma noMeta_noDot (k : string) : noMeta k = true -> noDot k = true.
Proof.
  unfold noMeta, noDot. induction k as [|c k IH]; simpl; [reflexivity|].
  intros H. apply andb_prop in H. destruct H as [Hc Hk]. rewrite (IH Hk), andb_true_r.
  destruct (Ascii.eqb_spec c "."%char) as [->|]; [discriminate Hc | reflexivity].
Qed.

Lemma keywordScore_plain (text : string) (jobKeywords : list string) :
  forallb plainKeyword jobKeywords = true ->
  keywordScore text jobKeywords
  = list_sum (map (fun k => 2 * countOccurrences text (toLowerCase k)) jobKeywords).
Proof.
  intros P. unfold keywordScore. cbv zeta.
  rewrite (fold_left_add
             (fun k => countMatches (keywordRegex (toLowerCase k)) text * 2)).
  cbn [Nat.add]. f_equal. apply map_ext_in. intros k Hk.
  rewrite forallb_forall in P. specialize (P k Hk). unfold plainKeyword in P.
  apply andb_prop in P. destruct P as [D U].
  rewrite (countMatches_plain _ (noMeta_noDot _ D) U). lia.
Qed.

(** For keywords that hold no pattern character and whose occurrences cannot
    overlap, the score is the one the specification words. *)
Lemma calculateRelevanceScore_plain (pos : Position) (jobKeywords : list string) :
  forallb plainKeyword jobKeywords = true ->
  calculateRelevanceScore pos jobKeywords = scoreAsSpecified pos jobKeywords.
Proof.
  intros P. unfold calculateRelevanceScore, scoreAsSpecified. cbv zeta.
  rewrite (keywordScore_plain _ _ P). unfold joinOrEmpty.
  destruct (String.eqb (status pos) "Current");
    destruct (includes (toLowerCase (position pos)) "engineer"
              || includes (toLowerCase (position pos)) "developer"); lia.
Qed.

(** Every keyword of the vocabulary but [node.js] is such a keyword. *)
Lemma vocabulary_plain :
  filter (fun k => negb (plainKeyword k)) techKeywords = ["node.js"].
Proof. reflexivity. Qed.

(** C6, at the position [buildClerk] and the keyword [node.js] of the
    vocabulary: the keyword is read as a pattern, its dot matches the space
    of [node js], and the score is 2 where twice the number of occurrences of
    the keyword is 0. *)
Theorem calculateRelevanceScore_reads_keyword_as_pattern :
  extractJobKeywords (VString "We use Node.js every day") = Ok ["node.js"] /\
  calculateRelevanceScore buildClerk ["node.js"] = 2 /\
  scoreAsSpecified buildClerk ["node.js"] = 0.
Proof. repeat split. Qed.

End ScoringFacts.

(** ** Splicing *)

Module SplicerFacts.

Import Js Eff KnowledgeBase ResumeGenerator Reference TextFacts.

Lemma replaceSection_without_marker (t name content : string) :
  includes t (sectionMarker name) = false \/ includes t listStart = false
  \/ includes t listEnd = false ->
  replaceSection t name content = t.
Proof.
  unfold replaceSection.
  intros [H|[H|H]]; eapply replace_without_literal; try exact H; simpl; tauto.
Qed.

Lemma replaceSkillsSection_without_marker (t content : string) :
  includes t skillsMarker = false -> replaceSkillsSection t content = t.
Proof.
  intros H. unfold replaceSkillsSection.
  eapply replace_without_literal; [|exact H]. simpl. tauto.
Qed.

Lemma summary_without_sentinel (t r : string) :
  includes t sentinel = false -> replace summaryRegex r t = t.
Proof.
  intros H. eapply replace_without_literal; [|exact H]. simpl. tauto.
Qed.

(** C1, as amended: when the markers of a region are absent from the text,
    the splice of that region returns the text as it is and raises nothing;
    [replaceSection], [replaceSkillsSection] and the replacement of the
    summary each do so, and [buildLatexResume] returns a template that has
    none of the markers unchanged. *)
Theorem splice_without_markers_is_silent :
  (forall t name content,
     includes t (sectionMarker name) = false -> replaceSection t name content = t) /\
  (forall t content,
     includes t skillsMarker = false -> replaceSkillsSection t content = t) /\
  (forall t summaryText,
     includes t sentinel = false ->
     replace summaryRegex (summaryItem summaryText) t = t) /\
  (forall t summaryText experience skills projects,
     includes t sentinel = false ->
     includes t (sectionMarker "Experience") = false ->
     includes t (sectionMarker "Projects") = false ->
     includes t skillsMarker = false ->
     buildLatexResume t summaryText experience skills projects = t).
Proof.
  split; [|split; [|split]].
  - intros t name content H. apply replaceSection_without_marker. now left.
  - apply replaceSkillsSection_without_marker.
  - intros t summaryText. apply summary_without_sentinel.
  - intros t summaryText experience skills projects Hs He Hp Hk.
    unfold buildLatexResume. rewrite (summary_without_sentinel _ _ Hs).
    rewrite (replaceSection_without_marker t "Experience") by now left.
    rewrite (replaceSection_without_marker t "Projects") by now left.
    now apply replaceSkillsSection_without_marker.
Qed.

Lemma splice_without_markers_is_silent_witness :
  replaceSection plainTemplate "Experience" "x" = plainTemplate /\
  replaceSkillsSection plainTemplate "x" = plainTemplate /\
  replace summaryRegex (summaryItem "x") plainTemplate = plainTemplate /\
  buildLatexResume plainTemplate "x" [] [] [] = plainTemplate.
Proof.
  destruct splice_without_markers_is_silent as (H1 & H2 & H3 & H4).
  split; [apply H1; reflexivity|].
  split; [apply H2; reflexivity|].
  split; [apply H3; reflexivity|].
  apply H4; reflexivity.
Defined.

(** C1, as stated, fails in [plainWorld], whose template has no marker at
    all: generation succeeds and hands back the template itself. *)
Lemma splice_counterexample :
  includes plainTemplate sentinel = false /\
  includes plainTemplate (sectionMarker "Experience") = false /\
  includes plainTemplate (sectionMarker "Projects") = false /\
  includes plainTemplate skillsMarker = false /\
  exists meta,
    snd (generateResume plainWorld (VString "python developer") None VObject)
    = Ok (Success plainTemplate meta).
Proof. repeat split. eexists. reflexivity. Qed.

End SplicerFacts.

(** ** The frame of the splice *)

Module FrameFacts.

Import Js Eff KnowledgeBase ResumeGenerator Reference TextFacts.

Lemma stripPrefix_none (p s : string) : startsWith s p = false -> stripPrefix p s = None.
Proof.
  revert s; induction p as [|a p IH]; intros [|b s] H; simpl in *;
    try discriminate; try reflexivity.
  destruct (Ascii.eqb a b); [now apply IH | reflexivity].
Qed.

Lemma exec_here (its : list item) (s post : string) (ps : list string) :
  matchItems its s = Some (ps, post) -> exec its s = Some (EmptyString, ps, post).
Proof. destruct s; simpl; now intros ->. Qed.

(** The leftmost match of a pattern that opens with the literal [m], when
    no occurrence of [m] begins before the place where the pattern matches. *)
Lemma exec_after (m : string) (r : list item) (rest post : string) (ps : list string) :
  matchItems (Lit m :: r) rest = Some (ps, post) ->
  forall pre, beginsIn pre rest m = false ->
    exec (Lit m :: r) (pre ++ rest) = Some (pre, ps, post).
Proof.
  intros M. induction pre as [|c p IH]; intros B.
  - now apply exec_here.
  - cbn [beginsIn] in B. apply orb_false_elim in B. destruct B as [B1 B2].
    change (String c p ++ rest) with (String c (p ++ rest)) in *.
    assert (N : matchItems (Lit m :: r) (String c (p ++ rest)) = None).
    { cbn [matchItems]. now rewrite (stripPrefix_none _ _ B1). }
    cbn [exec]. rewrite N. now rewrite (IH B2).
Qed.

(** A replacement text without dollar sign stands for itself. *)
Lemma getSubstitution_plain (m b a : string) (caps : list string) (c t : string) :
  noDollar c = true ->
  getSubstitution m b a caps (c ++ t) = c ++ getSubstitution m b a caps t.
Proof.
  induction c as [|x c IH]; intros H; [reflexivity|].
  cbn [noDollar allChars] in H. apply andb_prop in H. destruct H as [Hx Hc].
  cbn [append]. cbn [getSubstitution]. rewrite Hx. f_equal. now apply IH.
Qed.

Lemma getSubstitution_whole (m b a : string) (caps : list string) (c : string) :
  noDollar c = true -> getSubstitution m b a caps c = c.
Proof.
  intros H. rewrite <- (append_empty_r c) at 1.
  rewrite getSubstitution_plain by exact H. apply append_empty_r.
Qed.

Lemma digitVal_bound (e : ascii) (n : nat) : digitVal e = Some n -> n <= 9.
Proof.
  unfold digitVal, isDigit. destruct (48 <=? nat_of_ascii e) eqn:A;
    destruct (nat_of_ascii e <=? 57) eqn:B; simpl; try discriminate.
  intros H. injection H as <-. apply Nat.leb_le in B. lia.
Qed.

(** With three groups, [$1] is the first group whatever follows it. *)
Lemma getSubstitution_first (m b a g1 g2 g3 t : string) :
  getSubstitution m b a [g1; g2; g3] ("$1" ++ t)
  = g1 ++ getSubstitution m b a [g1; g2; g3] t.
Proof.
  destruct t as [|e t3]; [reflexivity|].
  cbn [append]. cbn [getSubstitution]. cbn [Ascii.eqb Bool.eqb negb andb digitVal isDigit].
  change (digitVal "1") with (Some 1). cbv iota beta.
  destruct (digitVal e) as [n2|] eqn:D; [|reflexivity].
  unfold capture at 1. cbn [List.length].
  destruct (Nat.leb_spec (10 * 1 + n2) 3) as [L|L]; [lia|].
  rewrite andb_false_r. reflexivity.
Qed.

Lemma getSubstitution_third (m b a g1 g2 g3 : string) :
  getSubstitution m b a [g1; g2; g3] "$3" = g3.
Proof. simpl. apply append_empty_r. Qed.

(** One splice of a section: only the inner span changes. *)
Lemma replaceSection_at (name pre lead old post content : string) :
  matchItems (items (sectionRegex name))
             (sectionMarker name ++ lead ++ listStart ++ old ++ listEnd ++ post)
  = Some ([sectionMarker name; lead; listStart; old; listEnd], post) ->
  beginsIn pre (sectionMarker name ++ lead ++ listStart ++ old ++ listEnd ++ post)
           (sectionMarker name) = false ->
  noDollar content = true ->
  replaceSection
    (pre ++ sectionMarker name ++ lead ++ listStart ++ old ++ listEnd ++ post)
    name content
  = pre ++ sectionMarker name ++ lead ++ listStart ++ padded2 content ++ listEnd ++ post.
Proof.
  intros M B D. unfold replaceSection, replace.
  cbn [items sectionRegex] in *. rewrite (exec_after _ _ _ _ _ M pre B).
  unfold captures. cbn [groups sectionRegex map fst snd firstn skipn concatAll].
  rewrite getSubstitution_first.
  change (nl ++ nl ++ content ++ nl ++ nl ++ "  $3")
    with ((nl ++ nl) ++ content ++ (nl ++ nl ++ "  ") ++ "$3").
  rewrite (getSubstitution_plain _ _ _ _ (nl ++ nl)) by reflexivity.
  rewrite (getSubstitution_plain _ _ _ _ content) by exact D.
  rewrite (getSubstitution_plain _ _ _ _ (nl ++ nl ++ "  ")) by reflexivity.
  rewrite getSubstitution_third. unfold padded2.
  rewrite !append_empty_r, !append_assoc. reflexivity.
Qed.

(** The splice of the skills: only the inner span changes. *)
Lemma replaceSkillsSection_at (pre lead1 lead2 old post content : string) :
  matchItems (items skillsRegex)
             (skillsMarker ++ lead1 ++ "\section{Skills}" ++ lead2 ++ ("\small" ++ nl)
              ++ old ++ (nl ++ "\vspace{-12pt}") ++ post)
  = Some ([skillsMarker; lead1; "\section{Skills}"; lead2; "\small" ++ nl; old;
           nl ++ "\vspace{-12pt}"], post) ->
  beginsIn pre
           (skillsMarker ++ lead1 ++ "\section{Skills}" ++ lead2 ++ ("\small" ++ nl)
            ++ old ++ (nl ++ "\vspace{-12pt}") ++ post)
           skillsMarker = false ->
  noDollar content = true ->
  replaceSkillsSection
    (pre ++ skillsMarker ++ lead1 ++ "\section{Skills}" ++ lead2 ++ ("\small" ++ nl)
     ++ old ++ (nl ++ "\vspace{-12pt}") ++ post)
    content
  = pre ++ skillsMarker ++ lead1 ++ "\section{Skills}" ++ lead2 ++ ("\small" ++ nl)
    ++ content ++ (nl ++ "\vspace{-12pt}") ++ post.
Proof.
  intros M B D. unfold replaceSkillsSection, replace.
  cbn [items skillsRegex] in *. rewrite (exec_after _ _ _ _ _ M pre B).
  unfold captures. cbn [groups skillsRegex map fst snd firstn skipn concatAll].
  rewrite getSubstitution_first.
  rewrite (getSubstitution_plain _ _ _ _ content) by exact D.
  rewrite getSubstitution_third.
  rewrite !append_empty_r, !append_assoc. reflexivity.
Qed.

Lemma assemble_experience (L : Layout) (s e p k : string) :
  assemble L s e p k = upToExperience L s ++ experienceAfter L e p k.
Proof. unfold assemble, upToExperience. now rewrite !append_assoc. Qed.

Lemma assemble_projects (L : Layout) (s e p k : string) :
  assemble L s e p k = upToProjects L s e ++ projectsAfter L p k.
Proof.
  unfold assemble, upToProjects, upToExperience, experienceAfter.
  now rewrite !append_assoc.
Qed.

Lemma assemble_skills (L : Layout) (s e p k : string) :
  assemble L s e p k = upToSkills L s e p ++ skillsAfter L k.
Proof.
  unfold assemble, upToSkills, upToProjects, upToExperience, experienceAfter,
    projectsAfter.
  now rewrite !append_assoc.
Qed.

(** X28: the splice leaves the frame of the template as it is: for a template
    whose regions the patterns locate, and rendered blocks that hold no
    dollar sign and bring no opening marker of a later region in front of
    that region, the output is the template with the four inner spans
    replaced and nothing else changed. *)
Theorem buildLatexResume_frame (L : Layout) (summaryText : string)
  (experience : list ScoredPosition) (skills : SkillCategories)
  (projects : list ScoredProject) :
  let s := summaryItem summaryText in
  let e := padded2 (buildExperienceSection experience) in
  let p := padded2 (buildProjectsSection projects) in
  let k := buildSkillsSection skills in
  located L ->
  noDollar s = true ->
  noDollar (buildExperienceSection experience) = true ->
  noDollar (buildProjectsSection projects) = true ->
  noDollar k = true ->
  beginsIn (upToExperience L s)
           (experienceAfter L (oldExperience L) (oldProjects L) (oldSkills L))
           (sectionMarker "Experience") = false ->
  beginsIn (upToProjects L s e) (projectsAfter L (oldProjects L) (oldSkills L))
           (sectionMarker "Projects") = false ->
  beginsIn (upToSkills L s e p) (skillsAfter L (oldSkills L)) skillsMarker = false ->
  buildLatexResume (templateOf L) summaryText experience skills projects
  = assemble L s e p k.
Proof.
  intros s e p k ((ps & Xs & Es) & Me & Mp & Mk) Ds De Dp Dk Be Bp Bk.
  unfold buildLatexResume.
  assert (S1 : replace summaryRegex s (templateOf L)
               = assemble L s (oldExperience L) (oldProjects L) (oldSkills L)).
  { unfold replace. rewrite Xs. rewrite getSubstitution_whole by exact Ds.
    reflexivity. }
  fold s. rewrite S1. rewrite assemble_experience.
  assert (S2 : replaceSection
                 (upToExperience L s
                  ++ experienceAfter L (oldExperience L) (oldProjects L) (oldSkills L))
                 "Experience" (buildExperienceSection experience)
               = assemble L s e (oldProjects L) (oldSkills L)).
  { unfold experienceAfter in *. rewrite replaceSection_at by assumption.
    rewrite assemble_experience. reflexivity. }
  rewrite S2. rewrite assemble_projects.
  assert (S3 : replaceSection
                 (upToProjects L s e ++ projectsAfter L (oldProjects L) (oldSkills L))
                 "Projects" (buildProjectsSection projects)
               = assemble L s e p (oldSkills L)).
  { unfold projectsAfter in *. rewrite replaceSection_at by assumption.
    rewrite assemble_projects. reflexivity. }
  rewrite S3. rewrite assemble_skills.
  unfold skillsAfter in *. rewrite replaceSkillsSection_at by assumption.
  rewrite assemble_skills. reflexivity.
Qed.

Lemma resumeLayout_located : templateOf resumeLayout = resumeTemplate /\ located resumeLayout.
Proof.
  split; [reflexivity|]. unfold located.
  split; [eexists; split; reflexivity|]. repeat split.
Qed.

(** The hypotheses of the frame theorem hold for [resumeTemplate] and the
    data of [resumeWorld]. *)
Lemma buildLatexResume_frame_example :
  exists experience projects,
    selectRelevantExperience [tutor] (VString "python backend") = Ok experience /\
    selectRelevantProjects [ordersProject] (VString "python backend") = Ok projects /\
    buildLatexResume resumeTemplate "Backend engineer" experience [] projects
    = assemble resumeLayout (summaryItem "Backend engineer")
               (padded2 (buildExperienceSection experience))
               (padded2 (buildProjectsSection projects))
               (buildSkillsSection []).
Proof.
  eexists _, _. split; [reflexivity|]. split; [reflexivity|].
  destruct resumeLayout_located as [<- Hloc].
  apply buildLatexResume_frame; solve [exact Hloc | vm_compute; reflexivity].
Defined.

(** Every document assembled on [resumeLayout] holds the heading of the
    Experience section, which lies between the markers of the region. *)
Lemma assemble_keeps_heading (s e p k : string) :
  includes (assemble resumeLayout s e p k) "\section{Experience}" = true.
Proof.
  unfold assemble, experienceAfter.
  do 3 apply includes_append_intro_l.
  rewrite <- append_assoc. apply includes_append_intro_r.
  apply includes_append_intro_l. reflexivity.
Qed.

(** C7, at a job title that holds the opening markers of the Experience
    region: the title enters the summary, the Experience pattern then matches
    from inside the spliced summary, and the heading of the template lying
    between the markers and the marker line itself are removed; the output is
    the template with four inner spans replaced for no choice of spans. *)
Theorem buildLatexResume_loses_markup_for_marker_in_title :
  templateOf resumeLayout = resumeTemplate /\
  located resumeLayout /\
  exists out meta,
    snd (generateResume resumeWorld (VString "python backend") (Some injectedTitle)
                        VObject)
    = Ok (Success out meta) /\
    includes resumeTemplate "\section{Experience}" = true /\
    includes out "\section{Experience}" = false /\
    forall s e p k, out <> assemble resumeLayout s e p k.
Proof.
  split; [apply resumeLayout_located|]. split; [apply resumeLayout_located|].
  eexists _, _. split; [vm_compute; reflexivity|].
  split; [reflexivity|]. split; [vm_compute; reflexivity|].
  intros s e p k H.
  pose proof (assemble_keeps_heading s e p k) as K. rewrite <- H in K.
  vm_compute in K. discriminate K.
Qed.

(** A skills block that ends with a dollar sign makes [$$] of the [$3] of
    the replacement text: the closing marker of the region is lost. *)
Lemma replaceSkillsSection_trailing_dollar :
  includes resumeTemplate "\vspace{-12pt}" = true /\
  includes (replaceSkillsSection resumeTemplate "\textbf{Languages:} C\$")
           "\vspace{-12pt}" = false.
Proof. split; vm_compute; reflexivity. Qed.

End FrameFacts.

(** ** The cache of the knowledge base manager *)

Module CacheFacts.

Import Js Eff KnowledgeBaseManager Reference.

Section Facts.

Context {Json : Type}.
Variable pathJoin : list string -> string.
Variable indexFiles : Json -> result (list string).

Local Abbreviation FS := (@FileSystem Json).
Local Abbreviation C := (@Cache Json).

Lemma cacheGet_set_same (p : string) (d : Json) (c : C) :
  cacheGet p (cacheSet p d c) = Some d.
Proof.
  induction c as [|[k v] r IH]; simpl.
  - now rewrite String.eqb_refl.
  - destruct (String.eqb k p) eqn:E; simpl; rewrite E; [reflexivity | exact IH].
Qed.

Lemma cacheGet_set_other (p q : string) (d : Json) (c : C) :
  q <> p -> cacheGet q (cacheSet p d c) = cacheGet q c.
Proof.
  intros N. induction c as [|[k v] r IH]; simpl.
  - destruct (String.eqb_spec p q); [congruence | reflexivity].
  - destruct (String.eqb_spec k p) as [->|]; simpl.
    + destruct (String.eqb_spec p q); [congruence | reflexivity].
    + now rewrite IH.
Qed.

(** What is cached stays cached, with the same data, through a read. *)
Lemma readJsonFile_keeps (fs : FS) (p q : string) (d : Json) (c c' : C)
  (t : list access) (r : result Json) :
  readJsonFile fs p c = (t, r, c') -> cacheGet q c = Some d -> cacheGet q c' = Some d.
Proof.
  unfold readJsonFile. intros H G.
  destruct (cacheGet p c) as [d0|] eqn:Gp.
  - injection H as <- <- <-. exact G.
  - destruct (readJson fs p) as [d1|e]; injection H as <- <- <-; [|exact G].
    rewrite cacheGet_set_other; [exact G|]. intros ->. congruence.
Qed.

(** A read that succeeded leaves its data cached under the path. *)
Lemma readJsonFile_caches (fs : FS) (p : string) (c c' : C) (t : list access) (d : Json) :
  readJsonFile fs p c = (t, Ok d, c') -> cacheGet p c' = Some d.
Proof.
  unfold readJsonFile. intros H.
  destruct (cacheGet p c) as [d0|] eqn:G.
  - injection H as <- <- <-. exact G.
  - destruct (readJson fs p) as [d1|e]; [|discriminate].
    injection H as <- <- <-. apply cacheGet_set_same.
Qed.

Lemma cacheAfterReads_keeps (q : string) (d : Json) (reads : list (FS * string)) :
  forall c : C, cacheGet q c = Some d -> cacheGet q (cacheAfterReads reads c) = Some d.
Proof.
  induction reads as [|[fs p] reads IH]; intros c G; [exact G|].
  cbn [cacheAfterReads]. apply IH.
  destruct (readJsonFile fs p c) as [[t r] c1] eqn:R.
  exact (readJsonFile_keeps _ _ _ _ _ _ _ _ R G).
Qed.

(** X1: after a read that succeeded, and as long as [clearCache] is not
    called, every later read of the same path returns the same data without
    an access to the file system, whatever the files hold by then and
    whatever was read in between, of this path or of others, with or without
    success. *)
Theorem readJsonFile_hit_after_success (fs fs' : FS) (p : string) (c c' : C)
  (t : list access) (d : Json) (reads : list (FS * string)) :
  readJsonFile fs p c = (t, Ok d, c') ->
  readJsonFile fs' p (cacheAfterReads reads c')
  = ([], Ok d, cacheAfterReads reads c').
Proof.
  intros H. pose proof (readJsonFile_caches _ _ _ _ _ _ H) as G.
  unfold readJsonFile. now rewrite (cacheAfterReads_keeps p d reads c' G).
Qed.

(** X2: a read that fails leaves the cache as it was, so that the next read
    of the path goes to the file system again and, when the file is readable
    by then, returns and caches its data. *)
Theorem readJsonFile_failure_not_cached (fs fs' : FS) (p : string) (c c' : C)
  (t : list access) (e : error) (d : Json) :
  readJsonFile fs p c = (t, Throw e, c') ->
  readJson fs' p = Ok d ->
  c' = c /\ readJsonFile fs' p c' = ([ReadJson p], Ok d, cacheSet p d c).
Proof.
  unfold readJsonFile. intros H R.
  destruct (cacheGet p c) as [d0|] eqn:G; [discriminate|].
  destruct (readJson fs p) as [d1|e1]; [discriminate|].
  injection H as <- <- <-. split; [reflexivity|]. now rewrite G, R.
Qed.

(** X3: after [clearCache] a read goes to the file system whatever was
    cached before, and settles as the file system does. *)
Theorem readJsonFile_after_clearCache (fs : FS) (p : string) (c : C) :
  exists c',
    kbBind clearCache (fun _ => readJsonFile fs p) c
    = ([ReadJson p], readJson fs p, c') /\
    c' = match readJson fs p with Ok d => [(p, d)] | Throw _ => [] end.
Proof.
  unfold kbBind, clearCache, readJsonFile. cbn [cacheGet].
  destruct (readJson fs p) as [d|e]; eexists; split; reflexivity.
Qed.

Lemma loadProjectFiles_keeps (fs : FS) (base q : string) (d : Json) :
  forall files c c' t r,
    loadProjectFiles pathJoin fs base files c = (t, r, c') ->
    cacheGet q c = Some d -> cacheGet q c' = Some d.
Proof.
  induction files as [|f files IH]; intros c c' t r H G.
  - injection H as <- <- <-. exact G.
  - cbn [loadProjectFiles] in H. unfold kbBind at 1 in H.
    destruct (readJsonFile fs (pathJoin [base; "github_projects"; f]) c)
      as [[t1 [proj|e]] c1] eqn:R.
    + pose proof (readJsonFile_keeps _ _ _ _ _ _ _ _ R G) as G1.
      unfold kbBind in H.
      destruct (loadProjectFiles pathJoin fs base files c1) as [[t2 [ps|e]] c2] eqn:L.
      * cbn in H. injection H as <- <- <-. exact (IH _ _ _ _ L G1).
      * injection H as <- <- <-. exact (IH _ _ _ _ L G1).
    + injection H as <- <- <-. exact (readJsonFile_keeps _ _ _ _ _ _ _ _ R G).
Qed.

(** The projects a successful loop returns are cached under their paths. *)
Lemma loadProjectFiles_cached (fs : FS) (base : string) :
  forall files c c' t ps,
    loadProjectFiles pathJoin fs base files c = (t, Ok ps, c') ->
    Forall2 (fun file proj =>
               cacheGet (pathJoin [base; "github_projects"; file]) c' = Some proj)
            files ps.
Proof.
  induction files as [|f files IH]; intros c c' t ps H.
  - injection H as <- <- <-. constructor.
  - cbn [loadProjectFiles] in H. unfold kbBind at 1 in H.
    destruct (readJsonFile fs (pathJoin [base; "github_projects"; f]) c)
      as [[t1 [proj|e]] c1] eqn:R; [|discriminate].
    unfold kbBind in H.
    destruct (loadProjectFiles pathJoin fs base files c1) as [[t2 [ps'|e]] c2] eqn:L;
      [|discriminate].
    cbn in H. injection H as <- <- <-. constructor; [|exact (IH _ _ _ _ L)].
    apply (loadProjectFiles_keeps _ _ _ _ _ _ _ _ _ L).
    exact (readJsonFile_caches _ _ _ _ _ _ R).
Qed.

Lemma loadProjectFiles_all_cached (fs : FS) (base : string) :
  forall files ps c,
    Forall2 (fun file proj =>
               cacheGet (pathJoin [base; "github_projects"; file]) c = Some proj)
            files ps ->
    loadProjectFiles pathJoin fs base files c = ([], Ok ps, c).
Proof.
  intros files ps c F. induction F as [|f proj files ps G F IH]; [reflexivity|].
  cbn [loadProjectFiles]. unfold kbBind at 1. unfold readJsonFile at 1. rewrite G.
  unfold kbBind. rewrite IH. reflexivity.
Qed.

Lemma loadAllProjects_in_index_order_aux (fs : FS) (base : string) (c c' : C)
  (t : list access) (ps : list Json) :
  loadAllProjects pathJoin indexFiles fs base c = (t, Ok ps, c') ->
  exists index files,
    cacheGet (pathJoin [base; "github_projects"; "00_index.json"]) c' = Some index /\
    indexFiles index = Ok files /\
    Forall2 (fun file proj =>
               cacheGet (pathJoin [base; "github_projects"; file]) c' = Some proj)
            files ps.
Proof.
  unfold loadAllProjects. unfold kbBind at 1. intros H.
  destruct (readJsonFile fs (pathJoin [base; "github_projects"; "00_index.json"]) c)
    as [[t1 [index|e]] c1] eqn:R; [|discriminate].
  unfold kbBind at 1 in H.
  destruct (indexFiles index) as [files|e] eqn:I; [|discriminate].
  destruct (loadProjectFiles pathJoin fs base files c1) as [[t2 [ps'|e]] c2] eqn:L;
    [|discriminate].
  cbn in H. injection H as <- <- <-.
  assert (Gi : cacheGet (pathJoin [base; "github_projects"; "00_index.json"]) c1
               = Some index).
  { exact (readJsonFile_caches _ _ _ _ _ _ R). }
  exists index, files. split; [exact (loadProjectFiles_keeps _ _ _ _ _ _ _ _ _ L Gi)|].
  split; [exact I|].
  exact (loadProjectFiles_cached _ _ _ _ _ _ _ L).
Qed.

(** X4: a successful [loadAllProjects] returns one project for each file of
    the index, in the order of the index, and leaves each of them cached
    under its path. *)
Theorem loadAllProjects_in_index_order (fs : FS) (base : string) (c c' : C)
  (t : list access) (ps : list Json) :
  loadAllProjects pathJoin indexFiles fs base c = (t, Ok ps, c') ->
  exists index files,
    cacheGet (pathJoin [base; "github_projects"; "00_index.json"]) c' = Some index /\
    indexFiles index = Ok files /\
    List.length ps = List.length files /\
    Forall2 (fun file proj =>
               cacheGet (pathJoin [base; "github_projects"; file]) c' = Some proj)
            files ps.
Proof.
  intros H.
  destruct (loadAllProjects_in_index_order_aux fs base c c' t ps H)
    as (index & files & Gi & I & F).
  exists index, files. repeat split; try assumption.
  symmetry. exact (Forall2_length F).
Qed.

(** X5: after a successful [loadAllProjects], a second one returns the same
    projects from the cache, without any access to the file system, whatever
    the files hold by then. *)
Theorem loadAllProjects_repeat_from_cache (fs fs' : FS) (base : string) (c c' : C)
  (t : list access) (ps : list Json) :
  loadAllProjects pathJoin indexFiles fs base c = (t, Ok ps, c') ->
  loadAllProjects pathJoin indexFiles fs' base c' = ([], Ok ps, c').
Proof.
  intros H.
  destruct (loadAllProjects_in_index_order_aux fs base c c' t ps H)
    as (index & files & Gi & I & F).
  unfold loadAllProjects. unfold kbBind at 1. unfold readJsonFile at 1. rewrite Gi.
  unfold kbBind at 1. rewrite I.
  rewrite (loadProjectFiles_all_cached fs' base files ps c' F). reflexivity.
Qed.

End Facts.

Lemma readJsonFile_hit_after_success_witness :
  let later :=
    cacheAfterReads [(noFiles, "kb/skills/skills.json");
                     (diskFiles, "kb/github_projects/orders.json");
                     (noFiles, chatPath)]
                    [(chatPath, ["chat-service"])] in
  readJsonFile noFiles chatPath later = ([], Ok ["chat-service"], later).
Proof.
  apply (readJsonFile_hit_after_success diskFiles noFiles chatPath [] _
           [ReadJson chatPath] ["chat-service"]).
  reflexivity.
Defined.

Lemma readJsonFile_failure_not_cached_witness :
  readJsonFile diskFiles chatPath []
  = ([ReadJson chatPath], Ok ["chat-service"], [(chatPath, ["chat-service"])]).
Proof.
  apply (readJsonFile_failure_not_cached noFiles diskFiles chatPath [] []
           [ReadJson chatPath] (PlainError "ENOENT") ["chat-service"]);
    reflexivity.
Defined.

Lemma loadAllProjects_in_index_order_witness :
  exists index files,
    namesOf index = Ok files /\
    List.length [["chat-service"]; ["orders-api"]] = List.length files.
Proof.
  destruct (loadAllProjects_in_index_order joinPath namesOf diskFiles "kb" [] _ _ _
              eq_refl) as (index & files & G & I & L & F).
  exists index, files. split; [exact I | exact L].
Defined.

Lemma loadAllProjects_repeat_from_cache_witness :
  exists c',
    fst (loadAllProjects joinPath namesOf diskFiles "kb" [])
    = ([ReadJson "kb/github_projects/00_index.json"; ReadJson chatPath;
        ReadJson "kb/github_projects/orders.json"],
       Ok [["chat-service"]; ["orders-api"]]) /\
    loadAllProjects joinPath namesOf noFiles "kb" c'
    = ([], Ok [["chat-service"]; ["orders-api"]], c').
Proof.
  eexists. split; [reflexivity|].
  eapply (loadAllProjects_repeat_from_cache joinPath namesOf diskFiles noFiles "kb" []).
  reflexivity.
Defined.

End CacheFacts.

(** ** The selections *)

Module SelectionFacts.

Import Js Eff KnowledgeBase ResumeGenerator Reference TextFacts ExperienceFacts
  ProjectFacts.

Lemma descending_head (n : nat) (l : list nat) :
  descending (n :: l) = true -> forall m, In m l -> m <= n.
Proof.
  revert n. induction l as [|a l IH]; intros n H m Hm; [contradiction|].
  cbn [descending] in H. apply andb_prop in H. destruct H as [H1 H2].
  apply Nat.leb_le in H1. destruct Hm as [<-|Hm]; [exact H1|].
  specialize (IH a H2 m Hm). lia.
Qed.

Lemma descending_tail (n : nat) (l : list nat) :
  descending (n :: l) = true -> descending l = true.
Proof.
  destruct l as [|a l]; [reflexivity|]. cbn [descending]. intros H.
  apply andb_prop in H. exact (proj2 H).
Qed.

Lemma descending_cons (n : nat) (l : list nat) :
  (forall m, In m l -> m <= n) -> descending l = true -> descending (n :: l) = true.
Proof.
  destruct l as [|a l]; intros H D; [reflexivity|].
  cbn [descending]. rewrite (proj2 (Nat.leb_le a n) (H a (or_introl eq_refl))).
  exact D.
Qed.

Lemma descending_app (a b : list nat) :
  descending (a ++ b)%list = true ->
  forall x y, In x a -> In y b -> y <= x.
Proof.
  induction a as [|n a IH]; intros D x y Hx Hy; [contradiction|].
  cbn [app] in D. destruct Hx as [<-|Hx].
  - apply (descending_head _ _ D). apply in_or_app. now right.
  - exact (IH (descending_tail _ _ D) x y Hx Hy).
Qed.

Lemma descending_firstn (k : nat) (l : list nat) :
  descending l = true -> descending (firstn k l) = true.
Proof.
  revert l. induction k as [|k IH]; intros l D; [reflexivity|].
  destruct l as [|n l]; [reflexivity|]. cbn [firstn].
  apply descending_cons.
  - intros m Hm. apply (descending_head _ _ D). exact (In_firstn_In _ _ _ Hm).
  - apply IH. exact (descending_tail _ _ D).
Qed.

Section SortedFacts.

Context {A : Type} (score : A -> nat).

Lemma insertByScore_descending (x : A) (l : list A) :
  descending (map score l) = true ->
  descending (map score (insertByScore score x l)) = true.
Proof.
  induction l as [|y l IH]; intros D; [reflexivity|].
  cbn [insertByScore]. destruct (Nat.ltb_spec (score x) (score y)) as [L|L].
  - cbn [map]. apply descending_cons.
    + intros m Hm. apply in_map_iff in Hm. destruct Hm as (z & <- & Hz).
      apply In_insertByScore in Hz. destruct Hz as [->|Hz]; [lia|].
      apply (descending_head _ _ D). now apply in_map.
    + apply IH. exact (descending_tail _ _ D).
  - cbn [map]. apply descending_cons; [|exact D].
    intros m [<-|Hm]; [exact L|].
    pose proof (descending_head _ _ D m Hm). lia.
Qed.

Lemma sortByScore_descending (l : list A) :
  descending (map score (sortByScore score l)) = true.
Proof.
  induction l as [|x l IH]; [reflexivity|].
  cbn [sortByScore]. now apply insertByScore_descending.
Qed.

(** The first [k] of the sorted list: as many as there are, in descending
    order, and nothing left out scores more than one of them. *)
Lemma top_of_sorted (k : nat) (l : list A) :
  List.length (firstn k (sortByScore score l)) = Nat.min k (List.length l) /\
  descending (map score (firstn k (sortByScore score l))) = true /\
  forall x, In x l ->
    In x (firstn k (sortByScore score l)) \/
    forall y, In y (firstn k (sortByScore score l)) -> score x <= score y.
Proof.
  split; [now rewrite length_firstn, length_sortByScore|]. split.
  - rewrite <- firstn_map. apply descending_firstn, sortByScore_descending.
  - intros x Hx. apply (In_sortByScore score) in Hx.
    rewrite <- (firstn_skipn k (sortByScore score l)) in Hx at 1.
    apply in_app_or in Hx. destruct Hx as [Hx|Hx]; [now left | right].
    intros y Hy.
    pose proof (sortByScore_descending l) as D.
    rewrite <- (firstn_skipn k (sortByScore score l)), map_app in D.
    apply (descending_app _ _ D); now apply in_map.
Qed.

End SortedFacts.

Lemma map_score_threeBullets (l : list ScoredPosition) :
  map relevanceScore (map threeBullets l) = map relevanceScore l.
Proof. rewrite map_map. reflexivity. Qed.

(** X6: for a job description that is a string, experience selection
    returns the 4 positions of highest score, or all of them when there are
    fewer, in descending order of score; every returned position carries the
    score of the position it comes from, and no position left out scores
    more than a returned one. *)
Theorem selectRelevantExperience_top_four (positions : list Position) (s : string) :
  exists kws out,
    extractJobKeywords (VString s) = Ok kws /\
    selectRelevantExperience positions (VString s) = Ok out /\
    List.length out = Nat.min 4 (List.length positions) /\
    descending (map relevanceScore out) = true /\
    (forall q, In q out ->
       exists p, In p positions /\
         q = threeBullets (mkScoredPosition p (calculateRelevanceScore p kws))) /\
    (forall p, In p positions ->
       In (threeBullets (mkScoredPosition p (calculateRelevanceScore p kws))) out \/
       forall q, In q out -> calculateRelevanceScore p kws <= relevanceScore q).
Proof.
  eexists _, _. split; [reflexivity|]. split; [reflexivity|].
  set (kws := filter _ techKeywords).
  set (scoredAll := map (fun pos => mkScoredPosition pos (calculateRelevanceScore pos kws))
                        positions).
  destruct (top_of_sorted relevanceScore 4 scoredAll) as (L & D & M).
  split; [rewrite length_map, L; unfold scoredAll; now rewrite length_map|].
  split; [rewrite map_score_threeBullets; exact D|]. split.
  - intros q Hq. apply in_map_iff in Hq. destruct Hq as (sp & <- & Hsp).
    apply In_firstn_In, In_sortByScore, in_map_iff in Hsp.
    destruct Hsp as (p & <- & Hp). now exists p.
  - intros p Hp.
    destruct (M (mkScoredPosition p (calculateRelevanceScore p kws))) as [Hin|Hle].
    + unfold scoredAll. apply in_map_iff. now exists p.
    + left. now apply in_map.
    + right. intros q Hq. apply in_map_iff in Hq. destruct Hq as (sp & <- & Hsp).
      exact (Hle sp Hsp).
Qed.

Lemma selectRelevantExperience_top_four_witness :
  exists out,
    selectRelevantExperience [helpDesk; tutor] (VString "python tutoring") = Ok out /\
    List.length out = 2.
Proof.
  destruct (selectRelevantExperience_top_four [helpDesk; tutor] "python tutoring")
    as (kws & out & _ & H & L & _).
  exists out. split; [exact H | exact L].
Defined.

(** X7: the bullet step keeps the first descriptions of a position, up to
    3, in their order and unchanged, and only adds bullets after them; the
    result has 3 bullets when the position has 3 descriptions or more or has
    an achievements list, even an empty one, and its descriptions otherwise.
    The score and the other fields are not changed. *)
Theorem threeBullets_keeps_descriptions (sp : ScoredPosition) :
  let pos := scored sp in
  let q := threeBullets sp in
  (exists added,
      description (scored q) = (firstn 3 (description pos) ++ added)%list) /\
  List.length (description (scored q))
  = (if (3 <=? List.length (description pos)) || hasAchievements pos
     then 3 else List.length (description pos)) /\
  scored q = withDescription pos (description (scored q)) /\
  relevanceScore q = relevanceScore sp.
Proof.
  cbv zeta.
  assert (F : scored (threeBullets sp)
              = withDescription (scored sp) (description (scored (threeBullets sp)))
              /\ relevanceScore (threeBullets sp) = relevanceScore sp)
    by (split; reflexivity).
  revert F. rewrite threeBullets_description. unfold hasAchievements. intros F.
  destruct (Nat.leb_spec 3 (List.length (description (scored sp)))) as [L|L];
    cbn [orb].
  - split; [exists []; now rewrite app_nil_r|].
    split; [rewrite length_firstn; lia | exact F].
  - rewrite (firstn_all2 (n := 3) (description (scored sp))) by lia.
    destruct (achievements (scored sp)) as [achs|] eqn:Ha.
    + split; [now eexists|].
      split; [rewrite length_app, length_map, length_seq; lia | exact F].
    + split; [exists []; now rewrite app_nil_r|]. split; [reflexivity | exact F].
Qed.

(** X8: for a job description that is a string, skill selection returns no
    empty category and none of more than 8 skills; each returned category
    stands for a category of the knowledge base of the same key, and each of
    its skills is a skill of that category that matches a keyword of the job
    or has proficiency Advanced or Intermediate.  A category with such a
    skill is returned. *)
Theorem selectRelevantSkills_filtered (cats : SkillCategories) (s : string) :
  exists kws out,
    extractJobKeywords (VString s) = Ok kws /\
    selectRelevantSkills cats (VString s) = Ok out /\
    (forall key cat, In (key, cat) out ->
       skills cat <> [] /\ List.length (skills cat) <= 8 /\
       exists orig, In (key, orig) cats /\
         forall sk, In sk (skills cat) ->
           In sk (skills orig) /\ (isRelevantSkill kws sk || isProficient sk = true)) /\
    (forall key orig sk, In (key, orig) cats -> In sk (skills orig) ->
       isRelevantSkill kws sk || isProficient sk = true ->
       exists cat, In (key, cat) out).
Proof.
  eexists _, _. split; [reflexivity|]. split; [reflexivity|].
  set (kws := filter _ techKeywords).
  set (keep := fun sk => isRelevantSkill kws sk || isProficient sk).
  split.
  - intros key cat H. apply in_flat_map in H. destruct H as ([k orig] & Hin & H).
    fold keep in H.
    destruct (filter keep (skills orig)) as [|sk0 rest] eqn:F; cbn in H; [contradiction|].
    destruct H as [H|[]]. injection H as -> <-. cbn [skills].
    split; [discriminate|].
    split; [change (List.length (firstn 8 (sk0 :: rest)) <= 8); rewrite length_firstn; lia|].
    exists orig. split; [exact Hin|]. intros sk Hsk.
    assert (In sk (filter keep (skills orig))) as Hf.
    { rewrite F. exact (In_firstn_In 8 sk (sk0 :: rest) Hsk). }
    apply filter_In in Hf. exact Hf.
  - intros key orig sk Hin Hsk Hk.
    assert (In sk (filter keep (skills orig))) as Hf by (apply filter_In; now split).
    exists (mkSkillCategory (firstn 8 (filter keep (skills orig)))).
    apply in_flat_map. exists (key, orig). split; [exact Hin|]. fold keep.
    destruct (filter keep (skills orig)) as [|sk0 rest]; [contradiction|].
    cbn. now left.
Qed.

Lemma selectRelevantSkills_filtered_witness :
  exists cat,
    selectRelevantSkills
      [("databases", mkSkillCategory [mkSkill "PostgreSQL" "Beginner" []])]
      (VString "We run PostgreSQL") = Ok [("databases", cat)].
Proof.
  destruct (selectRelevantSkills_filtered
              [("databases", mkSkillCategory [mkSkill "PostgreSQL" "Beginner" []])]
              "We run PostgreSQL") as (kws & out & _ & H & _ & _).
  vm_compute in H. injection H as <-. eexists. reflexivity.
Defined.

Lemma mapM_Ok {A B : Type} (f : A -> result B) (l : list A) (out : list B) :
  mapM f l = Ok out -> Forall2 (fun x y => f x = Ok y) l out.
Proof.
  revert out. induction l as [|x l IH]; intros out H; cbn in H.
  - injection H as <-. constructor.
  - destruct (f x) as [y|e] eqn:Fx; cbn in H; [|discriminate].
    destruct (mapM f l) as [ys|e]; cbn in H; [|discriminate].
    injection H as <-. constructor; [exact Fx | now apply IH].
Qed.

Lemma mapM_total {A B : Type} (f : A -> result B) (l : list A) :
  (forall x, In x l -> exists y, f x = Ok y) -> exists out, mapM f l = Ok out.
Proof.
  induction l as [|x l IH]; intros H; [now eexists|].
  destruct (H x (or_introl eq_refl)) as [y Fy].
  destruct IH as [ys Hys]; [intros z Hz; apply H; now right|].
  exists (y :: ys). cbn. now rewrite Fy, Hys.
Qed.

Lemma mapM_Throw {A B : Type} (f : A -> result B) (l : list A) (x : A) (e : error) :
  In x l -> f x = Throw e ->
  exists x' e', In x' l /\ f x' = Throw e' /\ mapM f l = Throw e'.
Proof.
  induction l as [|a l IH]; intros Hin Fx; [contradiction|].
  cbn. destruct (f a) as [y|e0] eqn:Fa.
  - destruct Hin as [->|Hin]; [congruence|].
    destruct (IH Hin Fx) as (x' & e' & Hx' & Fx' & ->).
    exists x', e'. cbn. split; [now right | now split].
  - exists a, e0. cbn. split; [now left | now split].
Qed.

Lemma Forall2_In_l {A B : Type} (R : A -> B -> Prop) (l : list A) (m : list B) (x : A) :
  Forall2 R l m -> In x l -> exists y, In y m /\ R x y.
Proof.
  induction 1 as [|a b l m Hab _ IH]; intros Hin; [contradiction|].
  destruct Hin as [<-|Hin]; [exists b; split; [now left | exact Hab]|].
  destruct (IH Hin) as (y & Hy & Hxy). exists y. split; [now right | exact Hxy].
Qed.

Lemma Forall2_In_r {A B : Type} (R : A -> B -> Prop) (l : list A) (m : list B) (y : B) :
  Forall2 R l m -> In y m -> exists x, In x l /\ R x y.
Proof.
  induction 1 as [|a b l m Hab _ IH]; intros Hin; [contradiction|].
  destruct Hin as [<-|Hin]; [exists a; split; [now left | exact Hab]|].
  destruct (IH Hin) as (x & Hx & Hxy). exists x. split; [now right | exact Hxy].
Qed.

Lemma generateProjectBulletPoints_defined (project : Project) :
  (effectiveSummary project = None ->
   exists m, generateProjectBulletPoints project = Throw (TypeError m)) /\
  (effectiveSummary project <> None ->
   exists bullets, generateProjectBulletPoints project = Ok bullets).
Proof.
  unfold generateProjectBulletPoints.
  destruct (effectiveSummary project) as [text|]; split; intros H;
    try discriminate; try congruence; now eexists.
Qed.

(** X9: for a job description that is a string, project selection returns
    when [project.summary || project.raw_summary] is defined for every
    project of the knowledge base, and throws a TypeError as soon as it is
    undefined for one project (no raw summary, and a summary that is missing
    or empty), whatever the relevance of that project and however many other
    projects there are. *)
Theorem selectRelevantProjects_needs_every_summary (projects : list Project) (s : string) :
  ((forall p, In p projects -> effectiveSummary p <> None) ->
   exists out, selectRelevantProjects projects (VString s) = Ok out) /\
  ((exists p, In p projects /\ effectiveSummary p = None) ->
   exists m, selectRelevantProjects projects (VString s) = Throw (TypeError m)).
Proof.
  unfold selectRelevantProjects. cbn [extractJobKeywords bind].
  set (kws := filter _ techKeywords).
  set (f := fun project : Project => _).
  assert (Ff : forall p,
             (effectiveSummary p = None -> exists m, f p = Throw (TypeError m)) /\
             (effectiveSummary p <> None -> exists y, f p = Ok y)).
  { intros p. destruct (generateProjectBulletPoints_defined p) as [N S].
    split; intros H.
    - destruct (N H) as [m E]. exists m. unfold f. now rewrite E.
    - destruct (S H) as [b E]. unfold f. rewrite E. now eexists. }
  split.
  - intros H. destruct (mapM_total f projects) as [out E].
    + intros x Hx. exact (proj2 (Ff x) (H x Hx)).
    + rewrite E. now eexists.
  - intros (p & Hp & N). destruct (proj1 (Ff p) N) as [m E].
    destruct (mapM_Throw f projects p _ Hp E) as (x' & e' & _ & Fx' & ->).
    destruct (effectiveSummary x') as [t|] eqn:S.
    + destruct (proj2 (Ff x')) as [y Ey]; [rewrite S; discriminate | congruence].
    + destruct (proj1 (Ff x') S) as [m' E']. exists m'. cbn [bind]. congruence.
Qed.

Lemma selectRelevantProjects_needs_every_summary_witness :
  (exists out, selectRelevantProjects [chatProject; ordersProject] (VString "python") = Ok out) /\
  (exists m, selectRelevantProjects [ordersProject; mkProject "notes" (Some EmptyString) None]
                                    (VString "python") = Throw (TypeError m)).
Proof.
  split.
  - apply (proj1 (selectRelevantProjects_needs_every_summary
                    [chatProject; ordersProject] "python")).
    intros p [<-|[<-|[]]]; discriminate.
  - apply (proj2 (selectRelevantProjects_needs_every_summary
                    [ordersProject; mkProject "notes" (Some EmptyString) None] "python")).
    exists (mkProject "notes" (Some EmptyString) None). split; [right; now left | reflexivity].
Defined.

(** X10: when project selection returns, it returns the 3 projects of
    highest score, or all of them when there are fewer, in descending order
    of score; each one is a project of the knowledge base with its own score,
    its own bullet points and the GitHub address made of the fixed account
    and its title, and no project left out scores more than a returned
    one. *)
Theorem selectRelevantProjects_top_three (projects : list Project) (s : string)
  (out : list ScoredProject) :
  selectRelevantProjects projects (VString s) = Ok out ->
  exists kws,
    extractJobKeywords (VString s) = Ok kws /\
    List.length out = Nat.min 3 (List.length projects) /\
    descending (map projectScore out) = true /\
    (forall q, In q out ->
       In (scoredProject q) projects /\
       projectScore q = calculateProjectRelevanceScore (scoredProject q) kws /\
       githubUrl q = "https://github.com/Dextron04/" ++ title (scoredProject q) /\
       generateProjectBulletPoints (scoredProject q) = Ok (bulletPoints q)) /\
    (forall p, In p projects ->
       (exists q, In q out /\ scoredProject q = p) \/
       (forall q, In q out -> calculateProjectRelevanceScore p kws <= projectScore q)).
Proof.
  unfold selectRelevantProjects. cbn [extractJobKeywords bind].
  set (kws := filter _ techKeywords).
  set (f := fun project : Project => _).
  intros H. exists kws. split; [reflexivity|].
  destruct (mapM f projects) as [scoredAll|e] eqn:M; [|discriminate].
  assert (out = firstn 3 (sortByScore projectScore scoredAll)) as ->
    by (cbn [bind] in H; congruence).
  clear H. apply mapM_Ok in M.
  assert (Fshape : forall p y, f p = Ok y ->
             scoredProject y = p /\
             projectScore y = calculateProjectRelevanceScore p kws /\
             githubUrl y = "https://github.com/Dextron04/" ++ title p /\
             generateProjectBulletPoints p = Ok (bulletPoints y)).
  { intros p y E. unfold f in E.
    destruct (generateProjectBulletPoints p) as [b|e]; cbn [bind] in E; [|discriminate].
    injection E as <-. repeat split. }
  destruct (top_of_sorted projectScore 3 scoredAll) as (L & D & Mx).
  split; [rewrite L; f_equal; symmetry; exact (Forall2_length M)|].
  split; [exact D|]. split.
  - intros q Hq. apply In_firstn_In, In_sortByScore in Hq.
    destruct (Forall2_In_r _ _ _ q M Hq) as (p & Hp & E).
    destruct (Fshape p q E) as (E1 & E2 & E3 & E4). rewrite E1.
    now repeat split.
  - intros p Hp. destruct (Forall2_In_l _ _ _ p M Hp) as (y & Hy & E).
    destruct (Fshape p y E) as (E1 & E2 & _).
    destruct (Mx y Hy) as [Hin|Hle].
    + left. now exists y.
    + right. intros q Hq. rewrite <- E2. now apply Hle.
Qed.

Lemma selectRelevantProjects_top_three_witness :
  exists out,
    selectRelevantProjects [chatProject; ordersProject] (VString "rest api") = Ok out /\
    List.length out = 2.
Proof.
  eexists. split; [reflexivity|].
  destruct (selectRelevantProjects_top_three [chatProject; ordersProject] "rest api" _ eq_refl)
    as (kws & _ & L & _).
  exact L.
Defined.

(** X11: the bullet points of a project are at most 2, none is empty, and
    each is the clean-up of a fragment of the summary of more than 20
    characters once trimmed; when 2 such fragments or more match the
    technical pattern, every bullet point is the clean-up of one that
    does. *)
Theorem generateProjectBulletPoints_from_fragments (project : Project)
  (bullets : list string) :
  generateProjectBulletPoints project = Ok bullets ->
  exists text,
    effectiveSummary project = Some text /\
    List.length bullets <= 2 /\
    (forall b, In b bullets ->
       b <> EmptyString /\
       exists f, In f (fragments text) /\ 20 < String.length (trim f) /\
                 b = cleanBullet f) /\
    (2 <= List.length (filter (fun f => test technicalPattern (toLowerCase f))
                              (sentencesOf text)) ->
     forall b, In b bullets ->
       exists f, In f (fragments text) /\
                 test technicalPattern (toLowerCase f) = true /\ b = cleanBullet f).
Proof.
  unfold generateProjectBulletPoints.
  destruct (effectiveSummary project) as [text|]; [|discriminate].
  intros H. exists text. split; [reflexivity|]. revert H.
  set (sentences := sentencesOf text).
  set (technical := filter _ sentences).
  set (chosen := if 2 <=? List.length technical then firstn 2 technical
                 else firstn 2 sentences).
  intros H.
  assert (bullets = firstn 2 (filter (fun bp => 0 <? String.length bp)
                                     (map cleanBullet chosen))) as -> by congruence.
  clear H.
  assert (Hsent : forall f, In f sentences ->
                            In f (fragments text) /\ 20 < String.length (trim f)).
  { intros f Hf. unfold sentences in Hf. rewrite sentencesOf_fragments in Hf.
    apply filter_In in Hf. destruct Hf as [Hf Hl]. apply Nat.ltb_lt in Hl. now split. }
  assert (Hchosen : forall f, In f chosen -> In f sentences).
  { intros f Hf. unfold chosen in Hf.
    destruct (2 <=? List.length technical); apply In_firstn_In in Hf; [|exact Hf].
    apply filter_In in Hf. exact (proj1 Hf). }
  assert (Hb : forall b,
             In b (firstn 2 (filter (fun bp => 0 <? String.length bp)
                                    (map cleanBullet chosen))) ->
             b <> EmptyString /\ exists f, In f chosen /\ b = cleanBullet f).
  { intros b Hin. apply In_firstn_In, filter_In in Hin. destruct Hin as [Hin Hlen].
    apply in_map_iff in Hin. destruct Hin as (f & <- & Hf).
    split; [|now exists f].
    intros E. rewrite E in Hlen. discriminate. }
  split; [rewrite length_firstn; lia|]. split.
  - intros b Hin. destruct (Hb b Hin) as (Hne & f & Hf & ->).
    split; [exact Hne|]. exists f.
    destruct (Hsent f (Hchosen f Hf)) as [H1 H2]. now repeat split.
  - intros Htech b Hin. destruct (Hb b Hin) as (_ & f & Hf & ->).
    exists f. unfold chosen in Hf. fold sentences technical in Htech.
    rewrite (proj2 (Nat.leb_le _ _) Htech) in Hf.
    apply In_firstn_In, filter_In in Hf. destruct Hf as [Hf Ht].
    split; [exact (proj1 (Hsent f Hf))|]. now split.
Qed.

Lemma generateProjectBulletPoints_from_fragments_witness :
  exists bullets,
    generateProjectBulletPoints ordersProject = Ok bullets /\ List.length bullets <= 2.
Proof.
  eexists. split; [reflexivity|].
  destruct (generateProjectBulletPoints_from_fragments ordersProject _ eq_refl)
    as (text & _ & L & _).
  exact L.
Defined.

Lemma lowerChar_upperChar (c : ascii) : lowerChar (upperChar c) = lowerChar c.
Proof. destruct c as [[] [] [] [] [] [] [] []]; reflexivity. Qed.

Lemma toLowerCase_toUpperCase (s : string) : toLowerCase (toUpperCase s) = toLowerCase s.
Proof.
  induction s as [|c s IH]; [reflexivity|].
  cbn. f_equal; [apply lowerChar_upperChar | exact IH].
Qed.

Lemma toLowerCase_append (a b : string) :
  toLowerCase (a ++ b) = toLowerCase a ++ toLowerCase b.
Proof. induction a as [|c a IH]; [reflexivity|]. cbn. f_equal. exact IH. Qed.

(** X12: the keywords extracted from a job description do not depend on the
    case of its letters, and text added before and after a job description
    loses none of its keywords. *)
Theorem extractJobKeywords_case_and_context (s before after : string) :
  extractJobKeywords (VString (toUpperCase s)) = extractJobKeywords (VString s) /\
  exists kws more,
    extractJobKeywords (VString s) = Ok kws /\
    extractJobKeywords (VString (before ++ s ++ after)) = Ok more /\
    forall k, In k kws -> In k more.
Proof.
  split.
  - cbn [extractJobKeywords]. now rewrite toLowerCase_toUpperCase.
  - eexists _, _. split; [reflexivity|]. split; [reflexivity|].
    intros k Hk. apply filter_In in Hk. destruct Hk as [Hk Hi].
    apply filter_In. split; [exact Hk|].
    rewrite !toLowerCase_append.
    apply includes_append_intro_l, includes_append_intro_r. exact Hi.
Qed.

Lemma extractJobKeywords_case_and_context_witness :
  extractJobKeywords (VString "REACT AND AWS") = Ok ["react"; "aws"].
Proof.
  rewrite (proj1 (extractJobKeywords_case_and_context "react and aws" EmptyString EmptyString)
           : extractJobKeywords (VString "REACT AND AWS") = _).
  reflexivity.
Defined.

End SelectionFacts.

(** ** The tool calls *)

Module ServerFacts.

Import Js Eff KnowledgeBase ResumeGenerator AIResumeMcpServer ServerTools Reference
  TextFacts ExperienceFacts GenerationFacts SelectionFacts.

Lemma eqb_not_in (name known : string) (l : list string) :
  ~ In name l -> In known l -> String.eqb name known = false.
Proof.
  intros Hn Hk. destruct (String.eqb_spec name known) as [->|]; [contradiction | reflexivity].
Qed.

(** X13: a call of a tool whose name is none of the five tool names, compared
    exactly, resolves without any effect to the error result whose text is
    [Error executing NAME: Unknown tool: NAME]; it does not reject. *)
Theorem callTool_unknown_tool (refresh analyze : io ToolResult) (w : World)
  (name : string) (args : CallArguments) :
  ~ In name toolNames ->
  callTool refresh analyze w name args
  = ([], Ok (ErrorResult ("Error executing " ++ name ++ ": Unknown tool: " ++ name))).
Proof.
  intros H. unfold callTool.
  rewrite !(eqb_not_in name _ toolNames H) by (cbn; tauto).
  reflexivity.
Qed.

Lemma callTool_unknown_tool_witness :
  callTool (ioRet (OtherReport "refreshed")) (ioRet (OtherReport "analysed"))
           plainWorld "Generate-Resume"
           (mkCallArguments (mkArgs (VString "python") None None None) VUndefined)
  = ([], Ok (ErrorResult "Error executing Generate-Resume: Unknown tool: Generate-Resume")).
Proof.
  apply (callTool_unknown_tool _ _ plainWorld "Generate-Resume").
  cbn. intros [H|[H|[H|[H|[H|[]]]]]]; discriminate.
Defined.

Lemma requireLatexContent_blank (s : string) :
  allChars isSpace s = true -> requireLatexContent (VString s) = Throw latexRequired.
Proof.
  intros Hs. unfold requireLatexContent, trim. rewrite (trimStart_blank s Hs).
  destruct s; reflexivity.
Qed.

(** X14: through the tool call, [generate-resume] with an empty or
    all-white-space job description and [convert-latex-to-pdf] with an empty
    or all-white-space LaTeX content resolve to an error result carrying the
    validation message, and nothing is loaded, written or converted. *)
Theorem callTool_rejects_blank_input (refresh analyze : io ToolResult) (w : World)
  (args : CallArguments) (s : string) :
  allChars isSpace s = true ->
  (jobDescription (generationArgs args) = VString s ->
   callTool refresh analyze w "generate-resume" args
   = ([], Ok (ErrorResult
         "Error executing generate-resume: Job description is required and cannot be empty"))) /\
  (latexContent args = VString s ->
   callTool refresh analyze w "convert-latex-to-pdf" args
   = ([], Ok (ErrorResult
         "Error executing convert-latex-to-pdf: LaTeX content is required and cannot be empty"))).
Proof.
  intros Hs. split; intros E; unfold callTool; cbn [String.eqb Ascii.eqb Bool.eqb].
  - rewrite (handleGenerateResume_rejects_blank w (generationArgs args) s E Hs).
    reflexivity.
  - unfold handleConvertLatexToPdf. rewrite E, (requireLatexContent_blank s Hs).
    reflexivity.
Qed.

Lemma callTool_rejects_blank_input_witness :
  callTool (ioRet (OtherReport "refreshed")) (ioRet (OtherReport "analysed"))
           resumeWorld "generate-resume"
           (mkCallArguments (mkArgs (VString "   ") None None None) VUndefined)
  = ([], Ok (ErrorResult
        "Error executing generate-resume: Job description is required and cannot be empty")).
Proof.
  apply (callTool_rejects_blank_input _ _ resumeWorld
           (mkCallArguments (mkArgs (VString "   ") None None None) VUndefined) "   ");
    reflexivity.
Defined.

(** X15: the conversion handler starts the converter only for a LaTeX
    content that is a string with text left once trimmed, and then exactly
    once, on that content unchanged and on the file name given, [resume] when
    none is. *)
Theorem handleConvertLatexToPdf_converts_only_valid (w : World) (args : CallArguments)
  (ev : event) :
  In ev (fst (handleConvertLatexToPdf w args)) ->
  exists s,
    latexContent args = VString s /\
    trim s <> EmptyString /\
    fst (handleConvertLatexToPdf w args)
    = [ConvertLatexToPdf s (orDefault (fileName (generationArgs args)) "resume")].
Proof.
  unfold handleConvertLatexToPdf, requireLatexContent.
  destruct (latexContent args) as [| |b|n|s|] eqn:E;
    destruct (negb (truthy _)); cbn [ioLift ioBind fst]; try contradiction.
  destruct (String.length (trim s) =? 0) eqn:L; cbn [ioBind fst]; [contradiction|].
  intros _. exists s. split; [reflexivity|]. split.
  - intros T. rewrite T in L. discriminate.
  - unfold perform.
    destruct (convertLatexToPdf w s _) as [err|[pdf tex]]; reflexivity.
Qed.

Lemma handleConvertLatexToPdf_converts_only_valid_witness :
  exists s,
    VString "\documentclass{article}" = VString s /\
    trim s <> EmptyString /\
    fst (handleConvertLatexToPdf resumeWorld
           (mkCallArguments (mkArgs VUndefined None None None)
                            (VString "\documentclass{article}")))
    = [ConvertLatexToPdf s "resume"].
Proof.
  apply (handleConvertLatexToPdf_converts_only_valid resumeWorld
           (mkCallArguments (mkArgs VUndefined None None None)
                            (VString "\documentclass{article}"))
           (ConvertLatexToPdf "\documentclass{article}" "resume")).
  vm_compute. now left.
Defined.



Lemma increment_keys (key : string) (c : Categories) :
  map fst (increment key c) = map fst c.
Proof.
  induction c as [|[k n] r IH]; [reflexivity|].
  cbn [increment]. destruct (String.eqb k key); cbn [map fst]; [reflexivity|].
  now rewrite IH.
Qed.

Lemma total_increment (key : string) (c : Categories) :
  In key (map fst c) -> total (increment key c) = S (total c).
Proof.
  induction c as [|[k n] r IH]; intros H; [contradiction|].
  cbn [increment]. destruct (String.eqb_spec k key) as [->|N]; cbn [total]; [lia|].
  destruct H as [H|H]; [contradiction|]. rewrite (IH H). lia.
Qed.

Lemma countOf_increment (key k : string) (c : Categories) :
  In key (map fst c) ->
  countOf key (increment k c) = countOf key c + (if String.eqb k key then 1 else 0).
Proof.
  induction c as [|[k0 n] r IH]; intros H; [contradiction|].
  cbn [increment countOf].
  destruct (String.eqb_spec k0 k) as [->|N]; cbn [countOf].
  - destruct (String.eqb k key); lia.
  - destruct (String.eqb_spec k0 key) as [->|N'].
    + destruct (String.eqb_spec k key) as [->|]; [contradiction | lia].
    + destruct H as [H|H]; [contradiction|]. exact (IH H).
Qed.

Lemma summaryCategory_named (project : Project) : In (summaryCategory project) categoryNames.
Proof.
  unfold summaryCategory, categoryOf.
  repeat match goal with |- context [if ?b then _ else _] => destruct b end;
    cbn; tauto.
Qed.

Lemma categorize_from (projects : list Project) (c : Categories) :
  map fst c = categoryNames ->
  let out :=
    fold_left (fun categories project => increment (summaryCategory project) categories)
              projects c in
  map fst out = categoryNames /\
  total out = total c + List.length projects /\
  forall key, In key categoryNames ->
    countOf key out
    = countOf key c
      + List.length (filter (fun p => String.eqb (summaryCategory p) key) projects).
Proof.
  revert c. induction projects as [|p ps IH]; intros c Hc; cbn [fold_left].
  - cbn. split; [exact Hc|]. split; [lia|]. intros key _. lia.
  - destruct (IH (increment (summaryCategory p) c)) as (K & T & N).
    { now rewrite increment_keys. }
    cbv zeta. split; [exact K|]. split.
    + rewrite T, total_increment by (rewrite Hc; apply summaryCategory_named).
      cbn [List.length]. lia.
    + intros key Hkey. rewrite (N key Hkey), countOf_increment by now rewrite Hc.
      cbn [filter]. destruct (String.eqb (summaryCategory p) key); cbn [List.length]; lia.
Qed.

(** X17: the project categories keep the seven keys they start with, in
    their order; each key counts exactly the projects whose summary, or raw
    summary, or the empty text when both are missing, falls in that category
    by the first test of the chain that holds; and the counts add up to the
    number of projects. *)
Theorem categorizeProjects_counts (projects : list Project) :
  map fst (categorizeProjects projects) = categoryNames /\
  total (categorizeProjects projects) = List.length projects /\
  forall key, In key categoryNames ->
    countOf key (categorizeProjects projects)
    = List.length (filter (fun p => String.eqb (summaryCategory p) key) projects).
Proof.
  destruct (categorize_from projects noProjects eq_refl) as (K & T & N).
  split; [exact K|]. split; [exact T|].
  intros key Hkey. etransitivity; [exact (N key Hkey)|].
  assert (countOf key noProjects = 0) as ->; [|reflexivity].
  cbn in Hkey. repeat (destruct Hkey as [<-|Hkey]; [reflexivity|]). contradiction.
Qed.

Lemma categorizeProjects_counts_witness :
  countOf "Web Development" (categorizeProjects [webProject; mkProject "notes" None None]) = 1 /\
  countOf "Other" (categorizeProjects [webProject; mkProject "notes" None None]) = 1.
Proof.
  destruct (categorizeProjects_counts [webProject; mkProject "notes" None None])
    as (_ & _ & N).
  split; rewrite N by (cbn; tauto); reflexivity.
Defined.

Lemma selectRelevantExperience_length (positions : list Position) (jd : value)
  (out : list ScoredPosition) :
  selectRelevantExperience positions jd = Ok out ->
  List.length out = Nat.min 4 (List.length positions).
Proof.
  unfold selectRelevantExperience.
  destruct (extractJobKeywords jd) as [kws|e]; cbn [bind]; [|discriminate].
  intros H.
  assert (out = map threeBullets
                  (firstn 4 (sortByScore relevanceScore
                     (map (fun pos => mkScoredPosition pos (calculateRelevanceScore pos kws))
                          positions)))) as -> by congruence.
  now rewrite length_map, length_firstn, length_sortByScore, length_map.
Qed.

Lemma selectRelevantProjects_length (projects : list Project) (jd : value)
  (out : list ScoredProject) :
  selectRelevantProjects projects jd = Ok out ->
  List.length out = Nat.min 3 (List.length projects).
Proof.
  unfold selectRelevantProjects.
  destruct (extractJobKeywords jd) as [kws|e]; cbn [bind]; [|discriminate].
  set (f := fun project : Project => _).
  destruct (mapM f projects) as [scoredAll|e] eqn:M; cbn [bind]; [|discriminate].
  intros H.
  assert (out = firstn 3 (sortByScore projectScore scoredAll)) as -> by congruence.
  rewrite length_firstn, length_sortByScore.
  now rewrite (Forall2_length (mapM_Ok _ _ _ M)).
Qed.

Lemma selectRelevantSkills_keys (cats : SkillCategories) (jd : value)
  (out : SkillCategories) (key : string) :
  selectRelevantSkills cats jd = Ok out -> In key (map fst out) -> In key (map fst cats).
Proof.
  unfold selectRelevantSkills.
  destruct (extractJobKeywords jd) as [kws|e]; cbn [bind]; [|discriminate].
  intros H Hk. injection H as <-.
  apply in_map_iff in Hk. destruct Hk as ([k cat] & <- & Hin).
  apply in_flat_map in Hin. destruct Hin as ([k0 orig] & Hin & H).
  destruct (0 <? _) in H; [|contradiction].
  destruct H as [H|[]]. injection H as -> _.
  apply in_map_iff. now exists (k, orig).
Qed.

(** X18: when [generateResume] resolves to the [success: true] object, the
    job description was a string, and the metadata hold the job title given,
    [Software Engineer] when none is, the time of the clock, the number of
    positions of the knowledge base up to 4, the number of its projects up to
    3, keys of its skill categories only, and both flags set. *)
Theorem generateResume_metadata (w : World) (jd : value) (title : option string)
  (custom : value) (trace : list event) (latex : string) (meta : Metadata) :
  generateResume w jd title custom = (trace, Ok (Success latex meta)) ->
  exists s positions projects cats,
    jd = VString s /\
    workExperience w = Ok positions /\
    allProjects w = Ok projects /\
    skillsFile w = Ok cats /\
    metaJobTitle meta = match title with Some t => t | None => "Software Engineer" end /\
    generatedAt meta = now w /\
    experienceCount meta = Nat.min 4 (List.length positions) /\
    projectCount meta = Nat.min 3 (List.length projects) /\
    (forall key, In key (skillCategoryNames meta) -> In key (map fst cats)) /\
    atsOptimized meta = true /\ singlePage meta = true.
Proof.
  unfold generateResume, tryCatch, generateResumeBody, loadAll, ioBind, ioLift, ioRet, bind.
  destruct (earliest (rejections w)) as [[time e]|]; [discriminate|].
  destruct (profileSummary w) as [profile|e]; [|discriminate].
  destruct (workExperience w) as [workExp|e]; [|discriminate].
  destruct (skillsFile w) as [cats|e]; [|discriminate].
  destruct (allProjects w) as [projects|e]; [|discriminate].
  destruct (latexTemplate w) as [template|e]; [|discriminate].
  destruct (generateTailoredSummary profile jd _) as [summaryText|e] eqn:S; [|discriminate].
  destruct (selectRelevantExperience workExp jd) as [experience|e] eqn:E; [|discriminate].
  destruct (selectRelevantSkills cats jd) as [relevant|e] eqn:K; [|discriminate].
  destruct (selectRelevantProjects projects jd) as [chosen|e] eqn:P; [|discriminate].
  intros H.
  assert (M : meta = mkMetadata
                       match title with Some t => t | None => "Software Engineer" end
                       (now w) (List.length experience) (List.length chosen)
                       (map fst relevant) true true) by congruence.
  clear H. subst meta. cbn [metaJobTitle generatedAt experienceCount projectCount
                            skillCategoryNames atsOptimized singlePage].
  destruct jd as [| |b|n|s|]; try discriminate.
  exists s, workExp, projects, cats.
  repeat (split; [reflexivity|]).
  split; [exact (selectRelevantExperience_length _ _ _ E)|].
  split; [exact (selectRelevantProjects_length _ _ _ P)|].
  split; [|split; reflexivity].
  intros key Hk. exact (selectRelevantSkills_keys _ _ _ key K Hk).
Qed.

Lemma generateResume_metadata_witness :
  exists meta,
    experienceCount meta = 1 /\ projectCount meta = 1 /\
    metaJobTitle meta = "Software Engineer".
Proof.
  destruct (generateResume resumeWorld (VString "python") None VObject)
    as [trace [[latex meta|err stack]|e]] eqn:G; try (vm_compute in G; discriminate).
  exists meta.
  destruct (generateResume_metadata resumeWorld (VString "python") None VObject
              trace latex meta G)
    as (s & positions & projects & cats & _ & Hw & Hp & _ & T & _ & Ec & Pc & _).
  vm_compute in Hw. vm_compute in Hp. injection Hw as <-. injection Hp as <-.
  split; [exact Ec|]. split; [exact Pc | exact T].
Defined.

End ServerFacts.

(** ** The headings of the template *)

Module LatexFacts.

Import Js Eff ResumeGenerator ServerTools Reference TextFacts FrameFacts.

(** A greedy run of characters other than the closing brace stops at the
    first closing brace. *)
Lemma greedy_until_brace (tail : list item) (post : string) (r : string) :
  braceFree r = true ->
  matchItems (Star false (CNot "}") :: Lit "}" :: tail) (r ++ "}" ++ post)
  = consPiece r (consPiece "}" (matchItems tail post)).
Proof.
  induction r as [|a r IH]; intros H; rewrite matchItems_star; cbv zeta.
  - cbn. now destruct (matchItems tail post) as [[ps rest]|].
  - cbn [braceFree allChars] in H. apply andb_prop in H. destruct H as [Ha Hr].
    change (String a r ++ "}" ++ post) with (String a (r ++ "}" ++ post)).
    cbv iota. rewrite Ha, (IH Hr).
    destruct (matchItems tail post) as [[ps rest]|]; [reflexivity|].
    cbn [consPiece growPiece matchItems stripPrefix].
    cbn [cmatch] in Ha. apply negb_true_iff in Ha.
    rewrite Ascii.eqb_sym in Ha. now rewrite Ha.
Qed.

Lemma matchItems_lit (l : string) (r : list item) (s : string) :
  matchItems (Lit l :: r) s
  = match stripPrefix l s with
    | Some s' => consPiece l (matchItems r s')
    | None => None
    end.
Proof. reflexivity. Qed.

Lemma matchItems_one (k : cls) (r : list item) (a : ascii) (s : string) :
  matchItems (One k :: r) (String a s)
  = if cmatch k a then consPiece (String a EmptyString) (matchItems r s) else None.
Proof. reflexivity. Qed.

Lemma braced_match (opening : string) (tail : list item) (a : ascii) (r post : string) :
  braceFree (String a r) = true ->
  matchItems (braced opening tail) (opening ++ String a r ++ "}" ++ post)
  = consPiece opening
      (consPiece (String a EmptyString)
         (consPiece r (consPiece "}" (matchItems tail post)))).
Proof.
  intros H. cbn [braceFree allChars] in H. apply andb_prop in H. destruct H as [Ha Hr].
  unfold braced. rewrite matchItems_lit, stripPrefix_append.
  change (String a r ++ "}" ++ post) with (String a (r ++ "}" ++ post)).
  rewrite matchItems_one, Ha.
  now rewrite (greedy_until_brace tail post r Hr).
Qed.

(** Listing the matches never runs out of turns. *)
Lemma matchAllFrom_enough (its : list item) :
  forall fuel1 fuel2 s,
    String.length s < fuel1 -> String.length s < fuel2 ->
    matchAllFrom fuel1 its s = matchAllFrom fuel2 its s.
Proof.
  induction fuel1 as [|f1 IH]; intros fuel2 s L1 L2; [lia|].
  destruct fuel2 as [|f2]; [lia|]. cbn [matchAllFrom].
  destruct (exec its s) as [[[pre ps] post]|] eqn:X; [|reflexivity].
  destruct (exec_sound _ _ _ _ _ X) as [E _].
  assert (Ls : String.length s
               = String.length pre + (String.length (concatAll ps) + String.length post))
    by (rewrite E at 1; now rewrite !length_append).
  destruct (concatAll ps) as [|c m].
  - destruct post as [|a post']; [reflexivity|].
    f_equal. apply IH; simpl in Ls; lia.
  - f_equal. apply IH; simpl in Ls; lia.
Qed.

(** The first match of the list, and the list of the rest. *)
Lemma matchAll_first (its : list item) (s pre post : string) (ps : list string) :
  exec its s = Some (pre, ps, post) -> concatAll ps <> EmptyString ->
  matchAll its s = concatAll ps :: matchAll its post.
Proof.
  intros X N. unfold matchAll at 1. cbn [matchAllFrom]. rewrite X.
  destruct (exec_sound _ _ _ _ _ X) as [E _].
  assert (Ls : String.length s
               = String.length pre + (String.length (concatAll ps) + String.length post))
    by (rewrite E at 1; now rewrite !length_append).
  destruct (concatAll ps) as [|c m]; [congruence|].
  f_equal. unfold matchAll. apply matchAllFrom_enough; simpl in Ls; lia.
Qed.

Lemma matchAll_none (its : list item) (s : string) :
  exec its s = None -> matchAll its s = [].
Proof. intros X. unfold matchAll. cbn [matchAllFrom]. now rewrite X. Qed.

(** The heading between an opening and the closing brace, found first in the
    subject and taken out of the match by the second pattern. *)
Lemma braced_first (opening pre name post : string) :
  beginsIn pre (opening ++ name ++ "}" ++ post) opening = false ->
  name <> EmptyString -> braceFree name = true ->
  matchAll (braced opening []) (pre ++ opening ++ name ++ "}" ++ post)
  = (opening ++ name ++ "}") :: matchAll (braced opening []) post.
Proof.
  intros B N H. destruct name as [|a r]; [congruence|].
  pose proof (braced_match opening [] a r post H) as M. cbn [matchItems consPiece] in M.
  pose proof (exec_after opening _ _ _ _ M pre B) as X.
  unfold braced. rewrite (matchAll_first _ _ _ _ _ X).
  - reflexivity.
  - cbn [concatAll]. destruct opening; discriminate.
Qed.

Lemma replace_braced_whole (opening : string) (tail : list item) (name : string) :
  name <> EmptyString -> braceFree name = true ->
  matchItems tail EmptyString = Some ([EmptyString], EmptyString) \/ tail = [] ->
  replace (mkRegex (braced opening tail) [(1, 2)]) "$1" (opening ++ name ++ "}") = name.
Proof.
  intros N H T. destruct name as [|a r]; [congruence|].
  pose proof (braced_match opening tail a r EmptyString H) as M.
  change ("}" ++ EmptyString) with "}" in M.
  unfold replace. cbn [items].
  destruct T as [T| ->].
  - rewrite T in M. cbn [consPiece] in M. rewrite (exec_here _ _ _ _ M).
    cbn. change (digitVal "1"%char) with (Some 1). cbn. now rewrite !append_empty_r.
  - cbn [matchItems consPiece] in M. rewrite (exec_here _ _ _ _ M).
    cbn. change (digitVal "1"%char) with (Some 1). cbn. now rewrite !append_empty_r.
Qed.

(** X19: in a template where the first [\section{] opens a heading, that is
    a text without closing brace and not empty, followed by a closing brace,
    the sections extracted are that heading followed by the sections
    extracted from the text after its closing brace; and a template without
    [\section{] has no section. *)
Theorem extractLatexSections_first_heading (pre name post : string) :
  (beginsIn pre ("\section{" ++ name ++ "}" ++ post) "\section{" = false ->
   name <> EmptyString -> braceFree name = true ->
   extractLatexSections (pre ++ "\section{" ++ name ++ "}" ++ post)
   = name :: extractLatexSections post) /\
  (includes pre "\section{" = false -> extractLatexSections pre = []).
Proof.
  split.
  - intros B N H. unfold extractLatexSections.
    change (items sectionHeading) with (braced "\section{" []).
    rewrite (braced_first "\section{" pre name post B N H). cbn [map]. f_equal.
    exact (replace_braced_whole "\section{" [] name N H (or_intror eq_refl)).
  - intros I. unfold extractLatexSections. rewrite matchAll_none; [reflexivity|].
    destruct (exec (items sectionHeading) pre) as [[[b ps] rest]|] eqn:X; [|reflexivity].
    rewrite (exec_includes_literal (items sectionHeading) "\section{" _ _ _ _
               (or_introl eq_refl) X) in I.
    discriminate.
Qed.

Lemma extractLatexSections_first_heading_witness :
  extractLatexSections ("\documentclass{article} " ++ "\section{" ++ "Skills" ++ "}" ++ " text")
  = "Skills" :: extractLatexSections " text".
Proof.
  apply (proj1 (extractLatexSections_first_heading "\documentclass{article} " "Skills" " text"));
    [reflexivity | discriminate | reflexivity].
Defined.

(** X20: in a template where the first [\newcommand{] opens a name, that is
    a text without closing brace and not empty, followed by a closing brace,
    the commands extracted are that name followed by the commands extracted
    from the text after its closing brace; and a template without
    [\newcommand{] has no command. *)
Theorem extractLatexCommands_first_name (pre name post : string) :
  (beginsIn pre ("\newcommand{" ++ name ++ "}" ++ post) "\newcommand{" = false ->
   name <> EmptyString -> braceFree name = true ->
   extractLatexCommands (pre ++ "\newcommand{" ++ name ++ "}" ++ post)
   = name :: extractLatexCommands post) /\
  (includes pre "\newcommand{" = false -> extractLatexCommands pre = []).
Proof.
  split.
  - intros B N H. unfold extractLatexCommands.
    change (items commandHeading) with (braced "\newcommand{" []).
    rewrite (braced_first "\newcommand{" pre name post B N H). cbn [map]. f_equal.
    exact (replace_braced_whole "\newcommand{" [Star false CDot] name N H
             (or_introl eq_refl)).
  - intros I. unfold extractLatexCommands. rewrite matchAll_none; [reflexivity|].
    destruct (exec (items commandHeading) pre) as [[[b ps] rest]|] eqn:X; [|reflexivity].
    rewrite (exec_includes_literal (items commandHeading) "\newcommand{" _ _ _ _
               (or_introl eq_refl) X) in I.
    discriminate.
Qed.

Lemma extractLatexCommands_first_name_witness :
  extractLatexCommands ("% macros " ++ "\newcommand{" ++ "\resumeItem" ++ "}" ++ "[1]{\item #1}")
  = "\resumeItem" :: extractLatexCommands "[1]{\item #1}".
Proof.
  apply (proj1 (extractLatexCommands_first_name "% macros " "\resumeItem" "[1]{\item #1}"));
    [reflexivity | discriminate | reflexivity].
Defined.

End LatexFacts.

(** ** The sanitizer, character by character *)

Module EscapeFacts.

Import Js Eff KnowledgeBase ResumeGenerator Reference TextFacts SanitizerFacts.

Lemma sanitizeLatex_escapeAll (s : string) : sanitizeLatex (VString s) = escapeAll s.
Proof. exact (sanitize_escapeAll s). Qed.

Lemma escapeAll_append (a b : string) : escapeAll (a ++ b) = escapeAll a ++ escapeAll b.
Proof. now rewrite <- !passes_escapeAll, passes_append. Qed.

Lemma escapeChar_plain (c : ascii) :
  isSpecial c = false -> escapeChar c = String c EmptyString.
Proof. destruct c as [[] [] [] [] [] [] [] []]; try reflexivity; discriminate. Qed.

Lemma escapeChar_longer (c : ascii) :
  isSpecial c = true -> 2 <= String.length (escapeChar c).
Proof. destruct c as [[] [] [] [] [] [] [] []]; try discriminate; cbn; lia. Qed.

Lemma escapeChar_length (c : ascii) : 1 <= String.length (escapeChar c).
Proof.
  destruct (isSpecial c) eqn:S.
  - pose proof (escapeChar_longer c S). lia.
  - rewrite (escapeChar_plain c S). cbn. lia.
Qed.

Lemma escapeAll_length (s : string) : String.length s <= String.length (escapeAll s).
Proof.
  induction s as [|c s IH]; [reflexivity|].
  cbn [escapeAll]. rewrite length_append. pose proof (escapeChar_length c).
  cbn [String.length]. lia.
Qed.

(** X21: on a string the nine passes of the sanitizer amount to one pass
    that replaces each character on its own: [&], [%], [$], [#] and [_] by
    the character after a backslash, the braces likewise, the caret by
    [\^\{\}] and the tilde by [\~\{\}], and that leaves every other character,
    the backslash among them, as it is.  The result of a concatenation is
    the concatenation of the results. *)
Theorem sanitizeLatex_character_by_character (s : string) :
  sanitizeLatex (VString s) = escapeAll s /\
  (forall a b, s = a ++ b ->
     sanitizeLatex (VString s) = sanitizeLatex (VString a) ++ sanitizeLatex (VString b)) /\
  (forall c r, s = String c r -> isSpecial c = false ->
     sanitizeLatex (VString s) = String c (sanitizeLatex (VString r))).
Proof.
  split; [exact (sanitizeLatex_escapeAll s)|]. split.
  - intros a b ->. rewrite !sanitizeLatex_escapeAll. apply escapeAll_append.
  - intros c r -> S. rewrite !sanitizeLatex_escapeAll. cbn [escapeAll].
    now rewrite (escapeChar_plain c S).
Qed.

Lemma sanitizeLatex_character_by_character_witness :
  sanitizeLatex (VString "\R&D") = String "\"%char (sanitizeLatex (VString "R&D")).
Proof.
  apply (proj2 (proj2 (sanitizeLatex_character_by_character "\R&D")) "\"%char "R&D");
    reflexivity.
Defined.

(** X22: the sanitizer returns a string as it is exactly when the string
    holds none of the nine characters; any other string comes out longer. *)
Theorem sanitizeLatex_unchanged_iff_plain (s : string) :
  (noSpecial s = true -> sanitizeLatex (VString s) = s) /\
  (noSpecial s = false -> String.length s < String.length (sanitizeLatex (VString s))).
Proof.
  rewrite sanitizeLatex_escapeAll.
  induction s as [|c s [IH1 IH2]]; [split; [reflexivity | discriminate]|].
  cbn [noSpecial allChars escapeAll]. fold (noSpecial s).
  destruct (isSpecial c) eqn:S; cbn [negb andb].
  - split; [discriminate|]. intros _. rewrite length_append.
    pose proof (escapeChar_longer c S). pose proof (escapeAll_length s).
    cbn [String.length]. lia.
  - rewrite (escapeChar_plain c S). split.
    + intros H. cbn. now rewrite (IH1 H).
    + intros H. specialize (IH2 H). cbn. lia.
Qed.

Lemma sanitizeLatex_unchanged_iff_plain_witness :
  sanitizeLatex (VString "Led a team of 5") = "Led a team of 5" /\
  String.length "R&D" < String.length (sanitizeLatex (VString "R&D")).
Proof.
  split.
  - apply (proj1 (sanitizeLatex_unchanged_iff_plain "Led a team of 5")). reflexivity.
  - apply (proj2 (sanitizeLatex_unchanged_iff_plain "R&D")). reflexivity.
Defined.

Lemma guardedFrom_escape (c prev : ascii) (t : string) :
  (forall q, guardedFrom q t = true) ->
  guardedFrom prev (escapeChar c ++ t) = true.
Proof.
  intros H. destruct (isSpecial c) eqn:S.
  - destruct c as [[] [] [] [] [] [] [] []]; try discriminate S;
      cbn; rewrite H; now rewrite ?orb_true_r.
  - rewrite (escapeChar_plain c S). cbn [append guardedFrom]. now rewrite S, H.
Qed.

(** X23: in what the sanitizer returns, every one of the nine characters
    comes right after a backslash. *)
Theorem sanitizeLatex_guards_every_special (v : value) :
  guarded (sanitizeLatex v) = true.
Proof.
  assert (G : forall s q, guardedFrom q (escapeAll s) = true).
  { induction s as [|c s IH]; intros q; [reflexivity|].
    cbn [escapeAll]. apply guardedFrom_escape. exact IH. }
  destruct v as [| |b|n|s|];
    try (unfold sanitizeLatex; cbn [isString negb]; rewrite orb_true_r; reflexivity).
  rewrite sanitizeLatex_escapeAll. apply G.
Qed.

End EscapeFacts.

(** ** Scores of job descriptions without [node.js] *)

Module ScoreFacts.

Import Js Eff KnowledgeBase ResumeGenerator Reference TextFacts ScoringFacts.

Lemma vocabulary_plain_but_one (k : string) :
  In k techKeywords -> k <> "node.js" -> plainKeyword k = true.
Proof.
  intros Hk N. destruct (plainKeyword k) eqn:P; [reflexivity|].
  assert (In k (filter (fun k => negb (plainKeyword k)) techKeywords)) as H
    by (apply filter_In; split; [exact Hk | now rewrite P]).
  rewrite vocabulary_plain in H. destruct H as [<-|[]]. congruence.
Qed.

(** X24: for a job description that is a string and does not hold
    [node.js], in any case of letters, the score of a position is twice the
    number of occurrences of each extracted keyword in its text plus the two
    bonuses, and the score of a project is twice the number of occurrences of
    each extracted keyword in its summary. *)
Theorem scores_as_specified_without_node_js (s : string) (pos : Position)
  (project : Project) :
  includes (toLowerCase s) "node.js" = false ->
  exists kws,
    extractJobKeywords (VString s) = Ok kws /\
    calculateRelevanceScore pos kws = scoreAsSpecified pos kws /\
    calculateProjectRelevanceScore project kws = projectScoreAsSpecified project kws.
Proof.
  intros N. eexists. split; [reflexivity|].
  set (kws := filter _ techKeywords).
  assert (P : forallb plainKeyword kws = true).
  { apply forallb_forall. intros k Hk. apply filter_In in Hk. destruct Hk as [Hk Hi].
    apply vocabulary_plain_but_one; [exact Hk|]. intros ->. congruence. }
  split; [exact (calculateRelevanceScore_plain pos kws P)|].
  unfold calculateProjectRelevanceScore, projectScoreAsSpecified. cbv zeta.
  exact (keywordScore_plain _ kws P).
Qed.

Lemma scores_as_specified_without_node_js_witness :
  exists kws,
    extractJobKeywords (VString "Python and REST") = Ok kws /\
    calculateRelevanceScore tutor kws = scoreAsSpecified tutor kws /\
    calculateProjectRelevanceScore ordersProject kws
    = projectScoreAsSpecified ordersProject kws.
Proof.
  apply (scores_as_specified_without_node_js "Python and REST" tutor ordersProject).
  reflexivity.
Defined.

End ScoreFacts.

(** ** The regions of the template *)

Module RegionFacts.

Import Js Eff KnowledgeBase ResumeGenerator Reference TextFacts FrameFacts LatexFacts.

(** A lazy run stops at the first place where the literal that follows
    begins, when the rest of the pattern matches there. *)
Lemma lazy_until (l : string) (r : list item) (rest post : string) (ps : list string) :
  matchItems r rest = Some (ps, post) ->
  forall x, beginsIn x (l ++ rest) l = false ->
    matchItems (Star true CAll :: Lit l :: r) (x ++ l ++ rest) = Some (x :: l :: ps, post).
Proof.
  intros M. induction x as [|c x IH]; intros B; rewrite matchItems_star; cbv zeta.
  - cbn [append]. rewrite matchItems_lit, stripPrefix_append, M. reflexivity.
  - cbn [beginsIn] in B. apply orb_false_elim in B. destruct B as [B1 B2].
    rewrite matchItems_lit, (stripPrefix_none _ _ B1). cbn [consPiece].
    change (String c x ++ l ++ rest) with (String c (x ++ l ++ rest)).
    cbv iota. cbn [cmatch]. now rewrite (IH B2).
Qed.

Lemma startsWith_long (m a r : string) :
  String.length m <= String.length a -> startsWith (a ++ r) m = startsWith a m.
Proof.
  revert a. induction m as [|c m IH]; intros a L; [reflexivity|].
  destruct a as [|d a]; [cbn in L; lia|].
  cbn [append startsWith]. rewrite IH by (cbn in L; lia). reflexivity.
Qed.

(** Whether an occurrence of [m] begins before a text that opens with [m]
    does not depend on what comes after that [m]. *)
Lemma beginsIn_same_head (m pre r1 r2 : string) :
  beginsIn pre (m ++ r1) m = beginsIn pre (m ++ r2) m.
Proof.
  induction pre as [|c p IH]; [reflexivity|].
  cbn [beginsIn]. rewrite IH. f_equal.
  rewrite <- !append_assoc.
  rewrite !(startsWith_long m (String c p ++ m)); [reflexivity| |];
    rewrite length_append; cbn [String.length]; lia.
Qed.

Lemma section_found (name lead old post : string) :
  beginsIn lead (listStart ++ old ++ listEnd ++ post) listStart = false ->
  beginsIn old (listEnd ++ post) listEnd = false ->
  matchItems (items (sectionRegex name))
             (sectionMarker name ++ lead ++ listStart ++ old ++ listEnd ++ post)
  = Some ([sectionMarker name; lead; listStart; old; listEnd], post).
Proof.
  intros B1 B2. cbn [items sectionRegex].
  rewrite matchItems_lit, stripPrefix_append.
  assert (M2 : matchItems [Star true CAll; Lit listEnd] (old ++ listEnd ++ post)
               = Some ([old; listEnd], post))
    by exact (lazy_until listEnd [] post post [] eq_refl old B2).
  now rewrite (lazy_until listStart _ _ _ _ M2 lead B1).
Qed.

Lemma replaceSection_located (name pre lead old post content : string) :
  beginsIn pre (sectionMarker name ++ lead ++ listStart ++ old ++ listEnd ++ post)
           (sectionMarker name) = false ->
  beginsIn lead (listStart ++ old ++ listEnd ++ post) listStart = false ->
  beginsIn old (listEnd ++ post) listEnd = false ->
  noDollar content = true ->
  replaceSection
    (pre ++ sectionMarker name ++ lead ++ listStart ++ old ++ listEnd ++ post)
    name content
  = pre ++ sectionMarker name ++ lead ++ listStart ++ padded2 content ++ listEnd ++ post.
Proof.
  intros B0 B1 B2 D. apply replaceSection_at; [|exact B0 | exact D].
  now apply section_found.
Qed.

(** X25: for a section name made of letters, in a document where the first
    marker line of the section is followed by a first list opening and that
    one by a first list closing, and for a new content without dollar sign,
    [replaceSection] returns the document with the text between that opening
    and that closing replaced by the new content between two line feeds
    before and two line feeds and two spaces after; the rest of the document
    is unchanged. *)
Theorem replaceSection_replaces_first_region (name pre lead old post content : string) :
  allChars isLetter name = true ->
  beginsIn pre (sectionMarker name ++ lead ++ listStart ++ old ++ listEnd ++ post)
           (sectionMarker name) = false ->
  beginsIn lead (listStart ++ old ++ listEnd ++ post) listStart = false ->
  beginsIn old (listEnd ++ post) listEnd = false ->
  noDollar content = true ->
  replaceSection
    (pre ++ sectionMarker name ++ lead ++ listStart ++ old ++ listEnd ++ post)
    name content
  = pre ++ sectionMarker name ++ lead ++ listStart
    ++ (nl ++ nl ++ content ++ nl ++ nl ++ "  ") ++ listEnd ++ post.
Proof.
  intros _ B0 B1 B2 D. rewrite (replaceSection_located _ _ _ _ _ _ B0 B1 B2 D).
  unfold padded2. now rewrite ?append_assoc.
Qed.

Lemma replaceSection_replaces_first_region_witness :
  replaceSection
    ("\begin{document} " ++ sectionMarker "Projects" ++ nl ++ "\section{Projects} "
     ++ listStart ++ " old " ++ listEnd ++ " \end{document}")
    "Projects" "\resumeItem{new}"
  = "\begin{document} " ++ sectionMarker "Projects" ++ nl ++ "\section{Projects} "
    ++ listStart ++ (nl ++ nl ++ "\resumeItem{new}" ++ nl ++ nl ++ "  ") ++ listEnd
    ++ " \end{document}".
Proof.
  apply (replaceSection_replaces_first_region "Projects" "\begin{document} "
           (nl ++ "\section{Projects} ") " old " " \end{document}" "\resumeItem{new}");
    reflexivity.
Defined.

(** X26: under the same conditions, and when the first new content between
    its line feeds holds no list closing, replacing the section a second time
    gives what replacing it once with the second content gives: the first
    content leaves no trace. *)
Theorem replaceSection_overwrites (name pre lead old post first second : string) :
  allChars isLetter name = true ->
  beginsIn pre (sectionMarker name ++ lead ++ listStart ++ old ++ listEnd ++ post)
           (sectionMarker name) = false ->
  beginsIn lead (listStart ++ old ++ listEnd ++ post) listStart = false ->
  beginsIn old (listEnd ++ post) listEnd = false ->
  beginsIn (padded2 first) (listEnd ++ post) listEnd = false ->
  noDollar first = true -> noDollar second = true ->
  let document :=
    pre ++ sectionMarker name ++ lead ++ listStart ++ old ++ listEnd ++ post in
  replaceSection (replaceSection document name first) name second
  = replaceSection document name second.
Proof.
  intros _ B0 B1 B2 B3 D1 D2 document. unfold document.
  rewrite (replaceSection_located _ _ _ _ _ first B0 B1 B2 D1).
  rewrite (replaceSection_located _ _ _ _ _ second B0 B1 B2 D2).
  apply replaceSection_located; [| |exact B3 | exact D2].
  - now rewrite (beginsIn_same_head _ pre _ (lead ++ listStart ++ old ++ listEnd ++ post)).
  - now rewrite (beginsIn_same_head _ lead _ (old ++ listEnd ++ post)).
Qed.

Lemma replaceSection_overwrites_witness :
  let document :=
    "\begin{document} " ++ sectionMarker "Projects" ++ nl ++ "\section{Projects} "
    ++ listStart ++ " old " ++ listEnd ++ " \end{document}" in
  replaceSection (replaceSection document "Projects" "\resumeItem{one}") "Projects"
                 "\resumeItem{two}"
  = replaceSection document "Projects" "\resumeItem{two}".
Proof.
  apply (replaceSection_overwrites "Projects" "\begin{document} "
           (nl ++ "\section{Projects} ") " old " " \end{document}"
           "\resumeItem{one}" "\resumeItem{two}");
    reflexivity.
Defined.

Lemma skills_found (lead1 lead2 old post : string) :
  beginsIn lead1 ("\section{Skills}" ++ lead2 ++ ("\small" ++ nl) ++ old
                  ++ (nl ++ "\vspace{-12pt}") ++ post) "\section{Skills}" = false ->
  beginsIn lead2 (("\small" ++ nl) ++ old ++ (nl ++ "\vspace{-12pt}") ++ post)
           ("\small" ++ nl) = false ->
  beginsIn old ((nl ++ "\vspace{-12pt}") ++ post) (nl ++ "\vspace{-12pt}") = false ->
  matchItems (items skillsRegex)
             (skillsMarker ++ lead1 ++ "\section{Skills}" ++ lead2 ++ ("\small" ++ nl)
              ++ old ++ (nl ++ "\vspace{-12pt}") ++ post)
  = Some ([skillsMarker; lead1; "\section{Skills}"; lead2; "\small" ++ nl; old;
           nl ++ "\vspace{-12pt}"], post).
Proof.
  intros B1 B2 B3. cbn [items skillsRegex].
  rewrite matchItems_lit, stripPrefix_append.
  assert (M3 : matchItems [Star true CAll; Lit (nl ++ "\vspace{-12pt}")]
                 (old ++ (nl ++ "\vspace{-12pt}") ++ post)
               = Some ([old; nl ++ "\vspace{-12pt}"], post))
    by exact (lazy_until (nl ++ "\vspace{-12pt}") [] post post [] eq_refl old B3).
  assert (M2 : matchItems
                 [Star true CAll; Lit ("\small" ++ nl); Star true CAll;
                  Lit (nl ++ "\vspace{-12pt}")]
                 (lead2 ++ ("\small" ++ nl) ++ old ++ (nl ++ "\vspace{-12pt}") ++ post)
               = Some ([lead2; "\small" ++ nl; old; nl ++ "\vspace{-12pt}"], post))
    by exact (lazy_until ("\small" ++ nl) _ _ _ _ M3 lead2 B2).
  now rewrite (lazy_until "\section{Skills}" _ _ _ _ M2 lead1 B1).
Qed.

(** X27: in a document where the first marker line of the skills is
    followed by a first [\section{Skills}], that one by a first [\small] at
    the end of a line, and that one by a first line that opens with
    [\vspace{-12pt}], and for a new content without dollar sign,
    [replaceSkillsSection] returns the document with the text between the
    line of [\small] and the line of [\vspace{-12pt}] replaced by the new
    content, nothing added around it; the rest of the document is
    unchanged. *)
Theorem replaceSkillsSection_replaces_first_region
  (pre lead1 lead2 old post content : string) :
  let after :=
    skillsMarker ++ lead1 ++ "\section{Skills}" ++ lead2 ++ ("\small" ++ nl)
    ++ old ++ (nl ++ "\vspace{-12pt}") ++ post in
  beginsIn pre after skillsMarker = false ->
  beginsIn lead1 ("\section{Skills}" ++ lead2 ++ ("\small" ++ nl) ++ old
                  ++ (nl ++ "\vspace{-12pt}") ++ post) "\section{Skills}" = false ->
  beginsIn lead2 (("\small" ++ nl) ++ old ++ (nl ++ "\vspace{-12pt}") ++ post)
           ("\small" ++ nl) = false ->
  beginsIn old ((nl ++ "\vspace{-12pt}") ++ post) (nl ++ "\vspace{-12pt}") = false ->
  noDollar content = true ->
  replaceSkillsSection (pre ++ after) content
  = pre ++ skillsMarker ++ lead1 ++ "\section{Skills}" ++ lead2 ++ ("\small" ++ nl)
    ++ content ++ (nl ++ "\vspace{-12pt}") ++ post.
Proof.
  intros after B0 B1 B2 B3 D. unfold after in *.
  apply replaceSkillsSection_at; [|exact B0 | exact D].
  now apply skills_found.
Qed.

Lemma replaceSkillsSection_replaces_first_region_witness :
  replaceSkillsSection
    ("\begin{document} " ++ skillsMarker ++ nl ++ "\section{Skills}" ++ " \item "
     ++ ("\small" ++ nl) ++ "old skills" ++ (nl ++ "\vspace{-12pt}") ++ " \end{document}")
    "\textbf{Languages:} Python"
  = "\begin{document} " ++ skillsMarker ++ nl ++ "\section{Skills}" ++ " \item "
    ++ ("\small" ++ nl) ++ "\textbf{Languages:} Python" ++ (nl ++ "\vspace{-12pt}")
    ++ " \end{document}".
Proof.
  apply (replaceSkillsSection_replaces_first_region "\begin{document} " nl " \item "
           "old skills" " \end{document}" "\textbf{Languages:} Python");
    reflexivity.
Defined.

End RegionFacts.

(** ** The summary and the generate-and-convert handler *)

Module HandlerFacts.

Import Js Eff KnowledgeBase ResumeGenerator AIResumeMcpServer Reference TextFacts
  GenerationFacts.

Lemma filter_none {A : Type} (l : list A) : filter (fun _ => false) l = [].
Proof. induction l as [|x l IH]; [reflexivity | exact IH]. Qed.

(** X29: for a job description in which no word of the vocabulary occurs,
    the tailored summary names no area of expertise, whatever the strongest
    areas of the profile are: its first sentence ends in [specializing in .]
    with nothing between the last word and the full stop. *)
Theorem generateTailoredSummary_without_keywords (profile : Profile) (s title : string) :
  extractJobKeywords (VString s) = Ok [] ->
  generateTailoredSummary profile (VString s) title
  = Ok (title ++ " with " ++ total_experience profile
        ++ " full-stack development experience specializing in . "
        ++ join " and " (firstn 2 (key_achievements profile))
        ++ " across enterprise applications. Expertise in scalable system design, team leadership, and agile development methodologies.").
Proof.
  intros H. unfold generateTailoredSummary. rewrite H. cbn [bind existsb].
  now rewrite filter_none.
Qed.

Lemma generateTailoredSummary_without_keywords_witness :
  generateTailoredSummary profile0 (VString "We sell garden furniture") "Clerk"
  = Ok ("Clerk" ++ " with " ++ total_experience profile0
        ++ " full-stack development experience specializing in . "
        ++ join " and " (firstn 2 (key_achievements profile0))
        ++ " across enterprise applications. Expertise in scalable system design, team leadership, and agile development methodologies.").
Proof.
  apply (generateTailoredSummary_without_keywords profile0 "We sell garden furniture" "Clerk").
  reflexivity.
Defined.

(** X30: the generate-and-convert handler starts the converter only after
    generation succeeded, once, on the generated document unchanged and on
    the file name given, [tailored_resume] when none is; when generation
    fails it rejects with [Resume generation failed:] and the message, and
    converts nothing. *)
Theorem handleGenerateAndConvertResume_converts_only_generated (w : World) (args : Args) :
  let generated :=
    generateResume w (jobDescription args)
                   (Some (orDefault (jobTitle args) "Software Engineer"))
                   (orDefault (customizations args) VObject) in
  (forall latex meta, generated = (fiveLoads, Ok (Success latex meta)) ->
     fst (handleGenerateAndConvertResume w args)
     = (fiveLoads
        ++ [ConvertLatexToPdf latex (orDefault (fileName args) "tailored_resume")])%list) /\
  (forall err stack, generated = (fiveLoads, Ok (Failure err stack)) ->
     handleGenerateAndConvertResume w args
     = (fiveLoads, Throw (PlainError ("Resume generation failed: " ++ err)))).
Proof.
  cbv zeta. unfold handleGenerateAndConvertResume. split.
  - intros latex meta ->. unfold ioBind, perform.
    destruct (convertLatexToPdf w latex _) as [err|[pdf tex]]; reflexivity.
  - intros err stack ->. reflexivity.
Qed.

Lemma handleGenerateAndConvertResume_converts_only_generated_witness :
  exists latex,
    fst (handleGenerateAndConvertResume resumeWorld
           (mkArgs (VString "python") None None None))
    = (fiveLoads ++ [ConvertLatexToPdf latex "tailored_resume"])%list.
Proof.
  destruct (generateResume resumeWorld (VString "python") (Some "Software Engineer") VObject)
    as [trace [[latex meta|err stack]|e]] eqn:G; try (vm_compute in G; discriminate).
  exists latex.
  apply (proj1 (handleGenerateAndConvertResume_converts_only_generated resumeWorld
                  (mkArgs (VString "python") None None None)) latex meta).
  cbn [jobDescription jobTitle customizations orDefault]. rewrite G.
  assert (trace = fiveLoads) as ->; [|reflexivity].
  destruct (generateResume_settles resumeWorld (VString "python")
              (Some "Software Engineer") VObject) as (o & E & _).
  congruence.
Defined.

End HandlerFacts.
